(** * NVMe multipath core (core.c): controller state machine, command
      completion, path registry, failover engine and congestion queue.

    A shallow embedding of the functions of [core.c] that implement the
    controller lifecycle, the retry decision of a completed command and the
    active/standby failover of a multipath volume, together with the
    properties established about them. *)

From stdpp Require Import gmap list.
From Stdlib Require Import ZArith Lia.

Local Open Scope Z_scope.

(** ** Constants that come from headers outside [core.c]

    [nvme.h], [linux/nvme.h] and the kernel configuration are not part of
    the translated file.  Their constants are the fields of a class; every
    definition below is parametric in an instance of it. *)

Class kernel_consts := {
  HZ : Z;                       (* jiffies per second, CONFIG_HZ *)
  REQ_FAILFAST_MASK : Z;        (* blk_noretry_request tests these bits *)
  REQ_FAILFAST_TRANSPORT : Z;
  NVME_SC_SUCCESS : Z;
  NVME_SC_CAP_EXCEEDED : Z;
  NVME_SC_ONCS_NOT_SUPPORTED : Z;
  NVME_SC_WRITE_FAULT : Z;
  NVME_SC_READ_ERROR : Z;
  NVME_SC_UNWRITTEN_BLOCK : Z;
  NVME_SC_DNR : Z;
  NVME_NS_REMOVING : Z;         (* bit numbers of nvme_ns.flags *)
  NVME_NS_ROOT : Z;
  NVME_NS_MULTIPATH : Z;
  NVME_NS_FO_IN_PROGRESS : Z;
  NVME_CTRL_MPATH_CHILD : Z;    (* bit numbers of nvme_ctrl.flags *)
  NVME_CTRL_MULTIPATH : Z;
}.

(** An instance used to run the model: the values of a 4.13-era x86-64
    kernel for the block layer and the NVMe status codes, and distinct bit
    numbers for the flags that the driver's own [nvme.h] defines. *)
Definition linux_consts : kernel_consts := {|
  HZ := 1000;
  REQ_FAILFAST_MASK := 0x700;
  REQ_FAILFAST_TRANSPORT := 0x200;
  NVME_SC_SUCCESS := 0x0;
  NVME_SC_CAP_EXCEEDED := 0x81;
  NVME_SC_ONCS_NOT_SUPPORTED := 0x183;
  NVME_SC_WRITE_FAULT := 0x280;
  NVME_SC_READ_ERROR := 0x281;
  NVME_SC_UNWRITTEN_BLOCK := 0x287;
  NVME_SC_DNR := 0x4000;
  NVME_NS_REMOVING := 0;
  NVME_NS_ROOT := 2;
  NVME_NS_MULTIPATH := 3;
  NVME_NS_FO_IN_PROGRESS := 4;
  NVME_CTRL_MPATH_CHILD := 1;
  NVME_CTRL_MULTIPATH := 0;
|}.

(** ** Machine integers and bit operations

    [unsigned long] is 64 bits wide, [unsigned int] 32, [u8] 8; [jiffies]
    and the timestamps are [unsigned long]. *)

Definition ulong (x : Z) : Z := x mod 2 ^ 64.
Definition uint (x : Z) : Z := x mod 2 ^ 32.
Definition u8 (x : Z) : Z := x mod 2 ^ 8.

Definition test_bit (nr : Z) (addr : Z) : bool := Z.testbit addr nr.
Definition set_bit (nr : Z) (addr : Z) : Z := Z.lor addr (Z.shiftl 1 nr).
Definition clear_bit (nr : Z) (addr : Z) : Z := Z.ldiff addr (Z.shiftl 1 nr).

(** ** Controller state machine *)

Inductive nvme_ctrl_state :=
| NVME_CTRL_NEW
| NVME_CTRL_LIVE
| NVME_CTRL_RESETTING
| NVME_CTRL_RECONNECTING
| NVME_CTRL_DELETING
| NVME_CTRL_DEAD.

#[global] Instance nvme_ctrl_state_eq_dec : EqDecision nvme_ctrl_state.
Proof. solve_decision. Defined.

(** The nested switch of [nvme_change_ctrl_state]: the value of [changed]
    for a requested [new_state] and the current [old_state]. *)
Definition ctrl_state_changed (old_state new_state : nvme_ctrl_state) : bool :=
  match new_state with
  | NVME_CTRL_LIVE =>
      match old_state with
      | NVME_CTRL_NEW | NVME_CTRL_RESETTING | NVME_CTRL_RECONNECTING => true
      | _ => false
      end
  | NVME_CTRL_RESETTING =>
      match old_state with
      | NVME_CTRL_NEW | NVME_CTRL_LIVE => true
      | _ => false
      end
  | NVME_CTRL_RECONNECTING =>
      match old_state with
      | NVME_CTRL_LIVE => true
      | _ => false
      end
  | NVME_CTRL_DELETING =>
      match old_state with
      | NVME_CTRL_LIVE | NVME_CTRL_RESETTING | NVME_CTRL_RECONNECTING => true
      | _ => false
      end
  | NVME_CTRL_DEAD =>
      match old_state with
      | NVME_CTRL_DELETING => true
      | _ => false
      end
  | NVME_CTRL_NEW => false
  end.

(** The transition table of the design document, section 4.2. *)
Definition spec_transition_table (old_state new_state : nvme_ctrl_state) : bool :=
  match old_state, new_state with
  | NVME_CTRL_NEW, (NVME_CTRL_LIVE | NVME_CTRL_RESETTING | NVME_CTRL_DELETING) => true
  | NVME_CTRL_LIVE, (NVME_CTRL_RESETTING | NVME_CTRL_RECONNECTING | NVME_CTRL_DELETING) => true
  | NVME_CTRL_RESETTING, (NVME_CTRL_LIVE | NVME_CTRL_DELETING) => true
  | NVME_CTRL_RECONNECTING, (NVME_CTRL_LIVE | NVME_CTRL_DELETING) => true
  | NVME_CTRL_DELETING, NVME_CTRL_DEAD => true
  | _, _ => false
  end.

(** The table the code implements: the one above without NEW -> DELETING. *)
Definition code_transition_table (old_state new_state : nvme_ctrl_state) : bool :=
  match old_state, new_state with
  | NVME_CTRL_NEW, (NVME_CTRL_LIVE | NVME_CTRL_RESETTING) => true
  | NVME_CTRL_LIVE, (NVME_CTRL_RESETTING | NVME_CTRL_RECONNECTING | NVME_CTRL_DELETING) => true
  | NVME_CTRL_RESETTING, (NVME_CTRL_LIVE | NVME_CTRL_DELETING) => true
  | NVME_CTRL_RECONNECTING, (NVME_CTRL_LIVE | NVME_CTRL_DELETING) => true
  | NVME_CTRL_DELETING, NVME_CTRL_DEAD => true
  | _, _ => false
  end.

(** ** Command completion and retry *)

Inductive blk_status_t :=
| BLK_STS_OK
| BLK_STS_NOSPC
| BLK_STS_NOTSUPP
| BLK_STS_MEDIUM
| BLK_STS_IOERR.

#[global] Instance blk_status_t_eq_dec : EqDecision blk_status_t.
Proof. solve_decision. Defined.

(** [struct nvme_request]: [retries] is a u8, [status] a u16. *)
Record nvme_request := mk_nvme_request {
  retries : Z;
  status : Z;
}.

(** The fields of [struct request] the completion path reads. *)
Record request := mk_request {
  cmd_flags : Z;
  rq_start_time : Z;            (* req->start_time, unsigned long *)
  rq_timeout : Z;               (* req->timeout, unsigned int *)
  nvme_req : nvme_request;
}.

(** What the completion path asks of the block layer. *)
Inductive blk_mq_call :=
| blk_mq_requeue_request (rq : request) (kick_requeue_list : bool)
| blk_mq_end_request (rq : request) (error : blk_status_t).

Section Command.
Context `{KC : kernel_consts}.

Definition nvme_error_status (req : request) : blk_status_t :=
  let sc := Z.land (status (nvme_req req)) 0x7ff in
  if sc =? NVME_SC_SUCCESS then BLK_STS_OK
  else if sc =? NVME_SC_CAP_EXCEEDED then BLK_STS_NOSPC
  else if sc =? NVME_SC_ONCS_NOT_SUPPORTED then BLK_STS_NOTSUPP
  else if (sc =? NVME_SC_WRITE_FAULT) || (sc =? NVME_SC_READ_ERROR)
          || (sc =? NVME_SC_UNWRITTEN_BLOCK) then BLK_STS_MEDIUM
  else BLK_STS_IOERR.

Definition blk_noretry_request (req : request) : bool :=
  negb (Z.land (cmd_flags req) REQ_FAILFAST_MASK =? 0).

(** [jiffies] is the clock at the call, [nvme_max_retries] the module
    parameter (an unsigned char). *)
Definition nvme_req_needs_retry (jiffies nvme_max_retries : Z) (req : request) : bool :=
  if blk_noretry_request req then false
  else if negb (Z.land (status (nvme_req req)) NVME_SC_DNR =? 0) then false
  else if rq_timeout req <=? ulong (jiffies - rq_start_time req) then false
  else if nvme_max_retries <=? retries (nvme_req req) then false
  else true.

Definition nvme_complete_rq (jiffies nvme_max_retries : Z) (req : request) : list blk_mq_call :=
  if negb (status (nvme_req req) =? 0)
     && nvme_req_needs_retry jiffies nvme_max_retries req
  then
    let req' := mk_request (cmd_flags req) (rq_start_time req) (rq_timeout req)
                  (mk_nvme_request (u8 (retries (nvme_req req) + 1))
                                   (status (nvme_req req))) in
    [blk_mq_requeue_request req' true]
  else
    [blk_mq_end_request req (nvme_error_status req)].

(** The four conditions of a retry, as the design document lists them. *)
Definition retry_eligible (jiffies max_retries : Z) (req : request) : Prop :=
  blk_noretry_request req = false ∧
  Z.land (status (nvme_req req)) NVME_SC_DNR = 0 ∧
  ulong (jiffies - rq_start_time req) < rq_timeout req ∧
  retries (nvme_req req) < max_retries.

End Command.

(** ** Data model *)

(** [struct nvme_mpath_priv]: the shadow record of an I/O on a multipath
    volume.  Pointers to namespaces are the addresses of the store below;
    [priv_bi_end_io] and [priv_bi_private] identify the completion callback
    and the cookie of the submitter. *)
Record nvme_mpath_priv := mk_priv {
  priv_ns : nat;
  priv_mpath_ns : nat;
  priv_bi_bdev : nat;
  priv_bi_flags : Z;
  priv_bi_sector : Z;
  priv_bi_vcnt : Z;
  priv_bi_phys_segments : Z;
  priv_bi_private : nat;
  priv_nr_bytes : Z;
  priv_bi_end_io : nat;
  nr_retries : Z;
  priv_start_time : Z;
}.

(** [bio->bi_end_io] together with [bio->bi_private]: either the
    submitter's pair, or [nvme_mpath_endio] with the shadow record. *)
Inductive bio_owner :=
| owner_caller (end_io : nat) (private : nat)
| owner_mpath (priv : nvme_mpath_priv).

Record bio := mk_bio {
  bi_id : nat;
  bi_bdev : nat;
  bi_opf : Z;
  bi_status : blk_status_t;
  bi_flags : Z;
  bi_sector : Z;
  bi_size : Z;
  bi_idx : Z;
  bi_bvec_done : Z;
  bi_vcnt : Z;
  bi_phys_segments : Z;
  bi_seg_front_size : Z;
  bi_seg_back_size : Z;
  bi_remaining : Z;
  bi_owner : bio_owner;
}.

(** [struct nvme_ctrl].  [namespaces] is the list head that links the
    namespaces of a physical controller through [list] and the members of an
    aggregate controller through [mpathlist]; [mpath_req_pool] is the number
    of reserved elements left in the pool, [None] for a null pool. *)
Record nvme_ctrl := mk_ctrl {
  state : nvme_ctrl_state;
  ctrl_flags : Z;
  namespaces : list nat;
  mpath_namespace : list nat;
  cleanup_done : bool;
  mpath_req_pool : option Z;
}.

(** [struct nvme_ns].  [fq_full] tells whether [fq_cong_wait] is on the wait
    queue, which is what [waitqueue_active] reads. *)
Record nvme_ns := mk_ns {
  ctrl : nat;
  mpath_ctrl : option nat;
  active : bool;
  ns_flags : Z;
  start_time : Z;
  bdev : nat;
  fq_cong : list bio;
  fq_full : bool;
}.

Definition NVME_FAILOVER_RETRIES : Z := 3.

(** [struct nvme_failover_data] as [nvme_set_ns_active] fills it
    ([active_ns] is never written). *)
Record nvme_failover_data := mk_failover_data {
  standby_ns : nat;
  fo_mpath_ns : nat;
  fo_retries : Z;
}.

(** The two work items of a controller: [failover_work] runs
    [nvme_trigger_failover_work], [cu_work] runs [nvme_mpath_flush_io_work]. *)
Inductive work :=
| failover_work (c : nat)
| cu_work (c : nat).

#[global] Instance work_eq_dec : EqDecision work.
Proof. solve_decision. Defined.

(** The kernel state the functions act on: the two object stores, the
    global list and module parameters of [core.c], and the calls made to the
    rest of the kernel (admin requests in flight, delayed work, bios handed
    to [generic_make_request], bios completed to their submitter). *)
Record kstate := mk_kstate {
  ctrls : gmap nat nvme_ctrl;
  nss : gmap nat nvme_ns;
  nvme_mpath_ctrl_list : list nat;
  ns_failover_interval : Z;
  nvme_max_retries : Z;
  nvme_io_timeout : Z;
  inflight : list nvme_failover_data;
  delayed : list (work * Z);
  submitted : list bio;
  ended : list bio;
}.

Definition with_ctrls (f : gmap nat nvme_ctrl → gmap nat nvme_ctrl) (s : kstate) : kstate :=
  mk_kstate (f (ctrls s)) (nss s) (nvme_mpath_ctrl_list s) (ns_failover_interval s)
    (nvme_max_retries s) (nvme_io_timeout s) (inflight s) (delayed s)
    (submitted s) (ended s).

Definition with_nss (f : gmap nat nvme_ns → gmap nat nvme_ns) (s : kstate) : kstate :=
  mk_kstate (ctrls s) (f (nss s)) (nvme_mpath_ctrl_list s) (ns_failover_interval s)
    (nvme_max_retries s) (nvme_io_timeout s) (inflight s) (delayed s)
    (submitted s) (ended s).

Definition with_inflight (f : list nvme_failover_data → list nvme_failover_data)
    (s : kstate) : kstate :=
  mk_kstate (ctrls s) (nss s) (nvme_mpath_ctrl_list s) (ns_failover_interval s)
    (nvme_max_retries s) (nvme_io_timeout s) (f (inflight s)) (delayed s)
    (submitted s) (ended s).

Definition with_delayed (f : list (work * Z) → list (work * Z)) (s : kstate) : kstate :=
  mk_kstate (ctrls s) (nss s) (nvme_mpath_ctrl_list s) (ns_failover_interval s)
    (nvme_max_retries s) (nvme_io_timeout s) (inflight s) (f (delayed s))
    (submitted s) (ended s).

Definition with_submitted (f : list bio → list bio) (s : kstate) : kstate :=
  mk_kstate (ctrls s) (nss s) (nvme_mpath_ctrl_list s) (ns_failover_interval s)
    (nvme_max_retries s) (nvme_io_timeout s) (inflight s) (delayed s)
    (f (submitted s)) (ended s).

Definition with_ended (f : list bio → list bio) (s : kstate) : kstate :=
  mk_kstate (ctrls s) (nss s) (nvme_mpath_ctrl_list s) (ns_failover_interval s)
    (nvme_max_retries s) (nvme_io_timeout s) (inflight s) (delayed s)
    (submitted s) (f (ended s)).

(** Field updates of the two structs. *)
Definition set_state (v : nvme_ctrl_state) (c : nvme_ctrl) : nvme_ctrl :=
  mk_ctrl v (ctrl_flags c) (namespaces c) (mpath_namespace c) (cleanup_done c)
    (mpath_req_pool c).
Definition set_cleanup_done (v : bool) (c : nvme_ctrl) : nvme_ctrl :=
  mk_ctrl (state c) (ctrl_flags c) (namespaces c) (mpath_namespace c) v
    (mpath_req_pool c).
Definition set_mpath_req_pool (v : option Z) (c : nvme_ctrl) : nvme_ctrl :=
  mk_ctrl (state c) (ctrl_flags c) (namespaces c) (mpath_namespace c)
    (cleanup_done c) v.

Definition set_active (v : bool) (n : nvme_ns) : nvme_ns :=
  mk_ns (ctrl n) (mpath_ctrl n) v (ns_flags n) (start_time n) (bdev n)
    (fq_cong n) (fq_full n).
Definition set_ns_flags (v : Z) (n : nvme_ns) : nvme_ns :=
  mk_ns (ctrl n) (mpath_ctrl n) (active n) v (start_time n) (bdev n)
    (fq_cong n) (fq_full n).
Definition set_start_time (v : Z) (n : nvme_ns) : nvme_ns :=
  mk_ns (ctrl n) (mpath_ctrl n) (active n) (ns_flags n) v (bdev n)
    (fq_cong n) (fq_full n).
Definition set_fq (q : list bio) (w : bool) (n : nvme_ns) : nvme_ns :=
  mk_ns (ctrl n) (mpath_ctrl n) (active n) (ns_flags n) (start_time n) (bdev n)
    q w.

(** ** The monad of kernel code

    A function either returns with a new state, faults (it dereferences a
    null or dangling pointer), or does not return (it sleeps or spins). *)
Inductive outcome (A : Type) :=
| Done (a : A) (s : kstate)
| Fault
| Blocked.
Arguments Done {A} a s.
Arguments Fault {A}.
Arguments Blocked {A}.

Definition M (A : Type) : Type := kstate → outcome A.

Definition ret {A} (a : A) : M A := λ s, Done a s.
Definition bind {A B} (m : M A) (k : A → M B) : M B :=
  λ s, match m s with
       | Done a s' => k a s'
       | Fault => Fault
       | Blocked => Blocked
       end.
Definition fault {A} : M A := λ _, Fault.
Definition blocked {A} : M A := λ _, Blocked.

Notation "x <- m ;; k" := (bind m (λ x, k))
  (at level 100, m at next level, right associativity).
Notation "m ;;; k" := (bind m (λ _, k))
  (at level 100, right associativity).

Definition gets {A} (f : kstate → A) : M A := λ s, Done (f s) s.
Definition modify (f : kstate → kstate) : M unit := λ s, Done tt (f s).

(** Dereferences. *)
Definition get_ctrl (c : nat) : M nvme_ctrl :=
  λ s, match ctrls s !! c with Some x => Done x s | None => Fault end.
Definition get_ns (p : nat) : M nvme_ns :=
  λ s, match nss s !! p with Some x => Done x s | None => Fault end.

(** Stores through a pointer. *)
Definition modify_ctrl (c : nat) (f : nvme_ctrl → nvme_ctrl) : M unit :=
  x <- get_ctrl c ;; modify (with_ctrls (insert c (f x))).
Definition modify_ns (p : nat) (f : nvme_ns → nvme_ns) : M unit :=
  x <- get_ns p ;; modify (with_nss (insert p (f x))).

Definition test_and_set_bit_ns (nr : Z) (p : nat) : M bool :=
  x <- get_ns p ;;
  modify (with_nss (insert p (set_ns_flags (set_bit nr (ns_flags x)) x))) ;;;
  ret (test_bit nr (ns_flags x)).
Definition test_and_clear_bit_ns (nr : Z) (p : nat) : M bool :=
  x <- get_ns p ;;
  modify (with_nss (insert p (set_ns_flags (clear_bit nr (ns_flags x)) x))) ;;;
  ret (test_bit nr (ns_flags x)).

(** [schedule_delayed_work]: a work item that is already pending is left
    as it is. *)
Definition schedule_delayed_work (w : work) (delay : Z) : M unit :=
  modify (with_delayed (λ l,
    if bool_decide (w ∈ l.*1) then l else l ++ [(w, delay)])).

Definition generic_make_request (b : bio) : M unit :=
  modify (with_submitted (λ l, l ++ [b])).

(** The kernel's mempool as its callers see it: [mempool_alloc] first asks
    the backing allocator ([slab_ok] tells whether that succeeds), then
    takes a reserved element, and with nothing left returns NULL unless the
    mask allows it to sleep. *)
Inductive gfp_t := GFP_ATOMIC | GFP_KERNEL.

Inductive mempool_result :=
| mempool_elem (curr_nr : Z)
| mempool_null
| mempool_sleep.

Definition mempool_alloc (curr_nr : Z) (gfp_mask : gfp_t) (slab_ok : bool) : mempool_result :=
  if slab_ok then mempool_elem curr_nr
  else if 0 <? curr_nr then mempool_elem (curr_nr - 1)
  else match gfp_mask with
       | GFP_ATOMIC => mempool_null
       | GFP_KERNEL => mempool_sleep
       end.

(** [mempool_create(4096, ...)] in [nvme_init_mpath_ctrl]. *)
Definition mpath_req_pool_min_nr : Z := 4096.

Definition mempool_free (curr_nr : Z) : Z :=
  if curr_nr <? mpath_req_pool_min_nr then curr_nr + 1 else curr_nr.

(** The anonymous enum of namespace states. *)
Definition NVME_NS_STATE_ACTIVE : Z := 1.
Definition NVME_NS_STATE_STANDBY : Z := 2.
Definition NVME_NS_STATE_UNDEFINED : Z := 3.

Section Mpath.
Context `{KC : kernel_consts}.

(** *** Controller state change on the store *)

Definition nvme_change_ctrl_state (c : nat) (new_state : nvme_ctrl_state) : M bool :=
  x <- get_ctrl c ;;
  let changed := ctrl_state_changed (state x) new_state in
  (if changed then modify (with_ctrls (insert c (set_state new_state x)))
   else ret tt) ;;;
  ret changed.

(** *** Path/namespace registry *)

Definition get_ns_state (n : nvme_ns) : M Z :=
  c <- get_ctrl (ctrl n) ;;
  if active n && bool_decide (state c = NVME_CTRL_LIVE)
  then ret NVME_NS_STATE_ACTIVE
  else if negb (active n) && bool_decide (state c = NVME_CTRL_LIVE)
  then ret NVME_NS_STATE_STANDBY
  else ret NVME_NS_STATE_UNDEFINED.

(** The loop of [get_ns_active] over the member list. *)
Fixpoint get_ns_active_scan (l : list nat) : M (option nat) :=
  match l with
  | [] => ret None
  | tmp :: rest =>
      n <- get_ns tmp ;;
      st <- get_ns_state n ;;
      if (st =? NVME_NS_STATE_ACTIVE) && test_bit NVME_NS_MULTIPATH (ns_flags n)
      then ret (Some tmp)
      else get_ns_active_scan rest
  end.

Definition get_ns_active (mpath_ns : nat) : M (option nat) :=
  mn <- get_ns mpath_ns ;;
  mc <- get_ctrl (ctrl mn) ;;
  get_ns_active_scan (namespaces mc).

(** The loop of [nvme_get_active_ns_for_mpath_ns]. *)
Fixpoint get_active_ns_scan (l : list nat) : M (option nat) :=
  match l with
  | [] => ret None
  | p :: rest =>
      n <- get_ns p ;;
      if active n then ret (Some p) else get_active_ns_scan rest
  end.

Definition nvme_get_active_ns_for_mpath_ns (mpath_ns : nat) : M (option nat) :=
  mn <- get_ns mpath_ns ;;
  if test_bit NVME_NS_ROOT (ns_flags mn) then
    mc <- get_ctrl (ctrl mn) ;;
    get_active_ns_scan (namespaces mc)
  else ret (Some mpath_ns).

(** *** Failover engine *)

(** [nvme_set_ns_active].  [alloc_err] is 0 when [kmalloc] and
    [nvme_alloc_request] both succeed and the errno the function returns
    otherwise.  The admin request it issues stays in flight until
    [nvme_ns_active_end_io] is run on it. *)
Definition nvme_set_ns_active (standby mpath_ns : nat) (retry_cnt : Z)
    (alloc_err : Z) : M Z :=
  sb <- get_ns standby ;;
  get_ctrl (ctrl sb) ;;;
  if negb (alloc_err =? 0) then ret alloc_err
  else
    modify (with_inflight (λ l, l ++ [mk_failover_data standby mpath_ns retry_cnt])) ;;;
    ret 0.

(** [nvme_ns_active_end_io], the completion of that request with the
    block status [error]. *)
Definition nvme_ns_active_end_io (priv : nvme_failover_data) (error : blk_status_t)
    : M unit :=
  sb <- get_ns (standby_ns priv) ;;
  (if bool_decide (error ≠ BLK_STS_OK) then
     get_ctrl (ctrl sb) ;;; ret tt
   else
     modify_ns (standby_ns priv) (set_active true) ;;;
     match mpath_ctrl sb with
     | None => fault
     | Some g => modify_ctrl g (set_cleanup_done true)
     end ;;;
     get_ctrl (ctrl sb) ;;; ret tt) ;;;
  test_and_clear_bit_ns NVME_NS_FO_IN_PROGRESS (fo_mpath_ns priv) ;;;
  if bool_decide (error ≠ BLK_STS_OK) then
    match mpath_ctrl sb with
    | None => fault
    | Some g => get_ctrl g ;;; schedule_delayed_work (cu_work g) HZ
    end
  else ret tt.

(** The loop of [nvme_update_active]: the first member that is not active
    and whose controller is not RECONNECTING. *)
Fixpoint update_active_scan (l : list nat) : M (option nat) :=
  match l with
  | [] => ret None
  | p :: rest =>
      n <- get_ns p ;;
      if active n then update_active_scan rest
      else
        c <- get_ctrl (ctrl n) ;;
        if bool_decide (state c ≠ NVME_CTRL_RECONNECTING) then ret (Some p)
        else update_active_scan rest
  end.

(** [nvme_update_active]; a null [mpath_ns] is [None].  The guard of the
    null case clears a bit of [mpath_ns->flags], that is, it writes
    through the null pointer. *)
Definition nvme_update_active (mpath_ns : option nat) (alloc_err : Z) : M Z :=
  match mpath_ns with
  | None => fault
  | Some m =>
      mn <- get_ns m ;;
      mc <- get_ctrl (ctrl mn) ;;
      found <- update_active_scan (namespaces mc) ;;
      match found with
      | None =>
          test_and_clear_bit_ns NVME_NS_FO_IN_PROGRESS m ;;; ret (-1)
      | Some p =>
          rc <- nvme_set_ns_active p m NVME_FAILOVER_RETRIES alloc_err ;;
          if negb (rc =? 0) then
            test_and_clear_bit_ns NVME_NS_FO_IN_PROGRESS m ;;; ret 0
          else ret 1
      end
  end.

(** The first loop of [nvme_trigger_failover], over the namespaces of the
    failing controller: it leaves [mpath_ctrl] and [ns] at the first
    active namespace, or at the last one. *)
Fixpoint failover_child_scan (l : list nat) (mpath_ctrl_ ns : option nat)
    : M (option nat * option nat) :=
  match l with
  | [] => ret (mpath_ctrl_, ns)
  | tmp :: rest =>
      n <- get_ns tmp ;;
      if active n then ret (mpath_ctrl n, Some tmp)
      else failover_child_scan rest (mpath_ctrl n) (Some tmp)
  end.

(** The body of [if (active_ns && standby_ns)] in the member scan of
    [nvme_trigger_failover]: the rate limit, the demotion of [a] and the
    promotion request for [sb].  [g] is [mpath_ctrl], [m] is [mpath_ns]. *)
Definition failover_pair (g m : nat) (jiffies alloc_err : Z) (a sb : nat) : M unit :=
  if bool_decide (a = sb) then
    test_and_clear_bit_ns NVME_NS_FO_IN_PROGRESS m ;;; ret tt
  else
    sbn <- get_ns sb ;;
    interval <- gets ns_failover_interval ;;
    if ulong (jiffies - start_time sbn) <? uint (interval * HZ) then
      test_and_clear_bit_ns NVME_NS_FO_IN_PROGRESS m ;;;
      get_ctrl g ;;;
      schedule_delayed_work (cu_work g) HZ
    else
      an <- get_ns a ;;
      match mpath_ctrl an with
      | None => fault
      | Some ag => modify_ctrl ag (set_cleanup_done false)
      end ;;;
      modify_ns a (set_active false) ;;;
      modify_ns a (set_start_time jiffies) ;;;
      rc <- nvme_set_ns_active sb m NVME_FAILOVER_RETRIES alloc_err ;;
      if negb (rc =? 0) then
        test_and_clear_bit_ns NVME_NS_FO_IN_PROGRESS m ;;;
        get_ctrl g ;;;
        schedule_delayed_work (cu_work g) HZ
      else ret tt.

(** The member scan of [nvme_trigger_failover] with the test that follows
    the loop. *)
Fixpoint failover_scan (g m : nat) (jiffies alloc_err : Z) (l : list nat)
    (active_ns standby_ns_ : option nat) : M unit :=
  match l with
  | [] =>
      match active_ns, standby_ns_ with
      | Some _, None =>
          test_and_clear_bit_ns NVME_NS_FO_IN_PROGRESS m ;;; ret tt
      | _, _ => ret tt
      end
  | p :: rest =>
      n <- get_ns p ;;
      let active_ns := if active n then Some p else active_ns in
      let standby_ns_ := if active n then standby_ns_ else Some p in
      match active_ns, standby_ns_ with
      | Some a, Some sb => failover_pair g m jiffies alloc_err a sb
      | _, _ => failover_scan g m jiffies alloc_err rest active_ns standby_ns_
      end
  end.

(** The part of [nvme_trigger_failover] that runs once the call has taken
    FAILOVER_IN_PROGRESS on the volume [m] of the aggregate controller [g]. *)
Definition failover_locked (g m : nat) (jiffies alloc_err : Z) : M unit :=
  gc <- get_ctrl g ;;
  if negb (cleanup_done gc) then
    rc <- nvme_update_active (Some m) alloc_err ;;
    if rc =? 0 then schedule_delayed_work (cu_work g) HZ
    else ret tt
  else
    mn <- get_ns m ;;
    if test_bit NVME_NS_ROOT (ns_flags mn) then
      mc <- get_ctrl (ctrl mn) ;;
      failover_scan g m jiffies alloc_err (namespaces mc) None None
    else ret tt.

(** The test [ns && !ns->active && mpath_ctrl->cleanup_done] that makes
    [nvme_trigger_failover] return before it looks for the volume. *)
Definition failover_not_needed (g : nat) (ns : option nat) : M bool :=
  match ns with
  | None => ret false
  | Some p =>
      n <- get_ns p ;;
      if active n then ret false
      else gc <- get_ctrl g ;; ret (cleanup_done gc)
  end.

(** [nvme_trigger_failover].  [jiffies] is the clock at the call.  With an
    empty [mpath_namespace] list the list cursor is the bogus entry computed
    from the list head, and the function then writes through it. *)
Definition nvme_trigger_failover (c : nat) (jiffies alloc_err : Z) : M unit :=
  x <- get_ctrl c ;;
  if negb (test_bit NVME_CTRL_MPATH_CHILD (ctrl_flags x)) then ret tt
  else
    r <- failover_child_scan (namespaces x) None None ;;
    match r.1 with
    | None => ret tt
    | Some g =>
        skip <- failover_not_needed g r.2 ;;
        if (skip : bool) then ret tt
        else
          gc <- get_ctrl g ;;
          match mpath_namespace gc with
          | [] => fault
          | m :: _ =>
              old <- test_and_set_bit_ns NVME_NS_FO_IN_PROGRESS m ;;
              if (old : bool) then ret tt
              else failover_locked g m jiffies alloc_err
          end
    end.

(** *** Congestion queue and resubmission *)

Definition set_bio_status (v : blk_status_t) (b : bio) : bio :=
  mk_bio (bi_id b) (bi_bdev b) (bi_opf b) v (bi_flags b) (bi_sector b)
    (bi_size b) (bi_idx b) (bi_bvec_done b) (bi_vcnt b) (bi_phys_segments b)
    (bi_seg_front_size b) (bi_seg_back_size b) (bi_remaining b) (bi_owner b).

Definition set_bio_owner (bd : nat) (o : bio_owner) (b : bio) : bio :=
  mk_bio (bi_id b) bd (bi_opf b) (bi_status b) (bi_flags b) (bi_sector b)
    (bi_size b) (bi_idx b) (bi_bvec_done b) (bi_vcnt b) (bi_phys_segments b)
    (bi_seg_front_size b) (bi_seg_back_size b) (bi_remaining b) o.

Definition set_nr_retries (v : Z) (p : nvme_mpath_priv) : nvme_mpath_priv :=
  mk_priv (priv_ns p) (priv_mpath_ns p) (priv_bi_bdev p) (priv_bi_flags p)
    (priv_bi_sector p) (priv_bi_vcnt p) (priv_bi_phys_segments p)
    (priv_bi_private p) (priv_nr_bytes p) (priv_bi_end_io p) v
    (priv_start_time p).

Definition set_priv_ns (v : nat) (p : nvme_mpath_priv) : nvme_mpath_priv :=
  mk_priv v (priv_mpath_ns p) (priv_bi_bdev p) (priv_bi_flags p)
    (priv_bi_sector p) (priv_bi_vcnt p) (priv_bi_phys_segments p)
    (priv_bi_private p) (priv_nr_bytes p) (priv_bi_end_io p) (nr_retries p)
    (priv_start_time p).

(** [mempool_free(priv, mpath_ns->ctrl->mpath_req_pool)]. *)
Definition mpath_req_pool_free (c : nat) : M unit :=
  x <- get_ctrl c ;;
  match mpath_req_pool x with
  | None => fault
  | Some k => modify (with_ctrls (insert c (set_mpath_req_pool (Some (mempool_free k)) x)))
  end.

(** [nvme_mpath_retry_bio]: park the bio on the congestion queue of its
    volume. *)
Definition nvme_mpath_retry_bio (b : bio) : M bool :=
  match bi_owner b with
  | owner_caller _ _ => fault
  | owner_mpath priv =>
      mn <- get_ns (priv_mpath_ns priv) ;;
      get_ctrl (ctrl mn) ;;;
      modify (with_nss (insert (priv_mpath_ns priv)
                          (set_fq (fq_cong mn ++ [b]) true mn))) ;;;
      ret true
  end.

(** [nvme_mpath_endio], the completion callback of a redirected bio.  The
    I/O accounting of the success branch only touches disk statistics. *)
Definition nvme_mpath_endio (b : bio) : M unit :=
  match bi_owner b with
  | owner_caller _ _ => fault
  | owner_mpath priv =>
      mn <- get_ns (priv_mpath_ns priv) ;;
      if bool_decide (bi_status b ≠ BLK_STS_OK)
         && negb (test_bit NVME_NS_REMOVING (ns_flags mn))
         && (0 <? nr_retries priv)
      then
        nvme_mpath_retry_bio
          (set_bio_owner (bi_bdev b)
             (owner_mpath (set_nr_retries (nr_retries priv - 1) priv)) b) ;;;
        ret tt
      else
        modify (with_ended (λ l, l ++
          [set_bio_owner (priv_bi_bdev priv)
             (owner_caller (priv_bi_end_io priv) (priv_bi_private priv)) b])) ;;;
        mpath_req_pool_free (ctrl mn)
  end.

(** [bio_endio]: run the completion callback the bio carries. *)
Definition bio_endio (b : bio) : M unit :=
  match bi_owner b with
  | owner_caller _ _ => modify (with_ended (λ l, l ++ [b]))
  | owner_mpath _ => nvme_mpath_endio b
  end.

(** [nvme_mpath_priv_bio]: fill the shadow record and redirect the bio to
    the namespace [ns] (whose block device is [ns_bdev]).  A bio that
    already carries a shadow record is not an input of the volume. *)
Definition nvme_mpath_priv_bio (b : bio) (ns ns_bdev mpath_ns : nat) (jiffies : Z)
    : M bio :=
  match bi_owner b with
  | owner_mpath _ => fault
  | owner_caller end_io private =>
      retries_ <- gets nvme_max_retries ;;
      let priv := mk_priv ns mpath_ns (bi_bdev b) (bi_flags b) (bi_sector b)
                    (bi_vcnt b) (bi_phys_segments b) private (bi_size b)
                    end_io retries_ jiffies in
      ret (mk_bio (bi_id b) ns_bdev (Z.lor (bi_opf b) REQ_FAILFAST_TRANSPORT)
             (bi_status b) (bi_flags b) (bi_sector b) (bi_size b) (bi_idx b)
             (bi_bvec_done b) (bi_vcnt b) (bi_phys_segments b)
             (bi_seg_front_size b) (bi_seg_back_size b) (bi_remaining b)
             (owner_mpath priv))
  end.

(** The first loop of [nvme_mpath_make_request]; it returns whether the
    bio was submitted.  A member whose parent is not this volume's
    controller sends the function back to [mpath_retry], where it scans
    the same list again. *)
Fixpoint make_request_active_scan (m : nat) (b : bio) (jiffies : Z) (l : list nat)
    : M bool :=
  match l with
  | [] => ret false
  | p :: rest =>
      n <- get_ns p ;;
      if test_bit NVME_NS_REMOVING (ns_flags n)
      then make_request_active_scan m b jiffies rest
      else
        mn <- get_ns m ;;
        if test_bit NVME_NS_FO_IN_PROGRESS (ns_flags mn) then ret false
        else
          st <- get_ns_state n ;;
          if st =? NVME_NS_STATE_ACTIVE then
            if bool_decide (mpath_ctrl n = Some (ctrl mn)) then
              b' <- nvme_mpath_priv_bio b p (bdev n) m jiffies ;;
              generic_make_request b' ;;;
              ret true
            else blocked
          else make_request_active_scan m b jiffies rest
  end.

(** The second loop: the first STANDBY member receives the shadow record,
    and the bio is then completed with an error from [out_exit_mpath_request]. *)
Fixpoint make_request_standby_scan (m : nat) (b : bio) (jiffies : Z) (l : list nat)
    : M (option bio) :=
  match l with
  | [] => ret None
  | p :: rest =>
      n <- get_ns p ;;
      st <- get_ns_state n ;;
      if st =? NVME_NS_STATE_STANDBY then
        b' <- nvme_mpath_priv_bio b p (bdev n) m jiffies ;;
        ret (Some b')
      else make_request_standby_scan m b jiffies rest
  end.

Definition out_exit_mpath_request (b : bio) : M unit :=
  bio_endio (set_bio_status BLK_STS_IOERR b).

(** [nvme_mpath_make_request] on the volume [m] ([q->queuedata]).  The loop
    cursor [ns] is a static local of the function; both loops assign it
    before they read it, so it carries nothing from one call to the next.
    The I/O accounting only touches disk statistics. *)
Definition nvme_mpath_make_request (m : nat) (b : bio) (jiffies : Z)
    (slab_ok : bool) : M unit :=
  mn <- get_ns m ;;
  if test_bit NVME_NS_REMOVING (ns_flags mn) then out_exit_mpath_request b
  else
    mc <- get_ctrl (ctrl mn) ;;
    match mpath_req_pool mc with
    | None => fault
    | Some k =>
        match mempool_alloc k GFP_ATOMIC slab_ok with
        | mempool_sleep => blocked
        | mempool_null => out_exit_mpath_request b
        | mempool_elem k' =>
            modify (with_ctrls (insert (ctrl mn) (set_mpath_req_pool (Some k') mc))) ;;;
            sent <- make_request_active_scan m b jiffies (namespaces mc) ;;
            if (sent : bool) then ret tt
            else
              r <- make_request_standby_scan m b jiffies (namespaces mc) ;;
              match r with
              | Some b' => out_exit_mpath_request b'
              | None => out_exit_mpath_request b
              end
        end
    end.

(** The resubmission loop of [nvme_mpath_resubmit_bios] over the detached
    list, towards the namespace [ns]: each bio is reset from its shadow
    record, pointed at the block device of [ns] and handed to
    [generic_make_request]. *)
Definition resubmitted_bio (ns ns_bdev : nat) (priv : nvme_mpath_priv) (b : bio) : bio :=
  mk_bio (bi_id b) ns_bdev (bi_opf b) BLK_STS_OK (priv_bi_flags priv)
    (priv_bi_sector priv) (priv_nr_bytes priv) 0 0 (priv_bi_vcnt priv)
    (priv_bi_phys_segments priv) 0 0 1 (owner_mpath (set_priv_ns ns priv)).

Fixpoint resubmit_loop (ns ns_bdev : nat) (bios : list bio) : M unit :=
  match bios with
  | [] => ret tt
  | b :: rest =>
      match bi_owner b with
      | owner_caller _ _ => fault
      | owner_mpath priv =>
          generic_make_request (resubmitted_bio ns ns_bdev priv b) ;;;
          resubmit_loop ns ns_bdev rest
      end
  end.

Definition nvme_mpath_resubmit_bios (m : nat) : M unit :=
  mn <- get_ns m ;;
  mc <- get_ctrl (ctrl mn) ;;
  if test_bit NVME_NS_FO_IN_PROGRESS (ns_flags mn) then ret tt
  else if bool_decide (namespaces mc = []) then ret tt
  else
    r <- get_ns_active m ;;
    match r with
    | None => ret tt
    | Some a =>
        an <- get_ns a ;;
        if test_bit NVME_NS_REMOVING (ns_flags an) || negb (cleanup_done mc)
        then ret tt
        else if test_bit NVME_NS_REMOVING (ns_flags mn) then ret tt
        else if bool_decide (fq_cong mn = []) then ret tt
        else
          modify (with_nss (insert m (set_fq [] false mn))) ;;;
          resubmit_loop a (bdev an) (fq_cong mn)
    end.

(** One pass of the loop of [nvme_mpath_kthread]: the inner loop over the
    volumes of a controller, and the outer loop over the aggregate
    controllers. *)
Fixpoint kthread_ns_loop (l : list nat) : M unit :=
  match l with
  | [] => ret tt
  | m :: rest =>
      mn <- get_ns m ;;
      (if fq_full mn then nvme_mpath_resubmit_bios m else ret tt) ;;;
      kthread_ns_loop rest
  end.

Fixpoint kthread_ctrl_loop (l : list nat) : M unit :=
  match l with
  | [] => ret tt
  | g :: rest =>
      gc <- get_ctrl g ;;
      kthread_ns_loop (mpath_namespace gc) ;;;
      kthread_ctrl_loop rest
  end.

Definition nvme_mpath_kthread_wake : M unit :=
  l <- gets nvme_mpath_ctrl_list ;;
  kthread_ctrl_loop l.

(** The loop of [nvme_mpath_cancel_ios] over the detached list. *)
Fixpoint cancel_loop (c : nat) (bios : list bio) : M unit :=
  match bios with
  | [] => ret tt
  | b :: rest =>
      match bi_owner b with
      | owner_caller _ _ => fault
      | owner_mpath priv =>
          modify (with_ended (λ l, l ++
            [set_bio_owner (priv_bi_bdev priv)
               (owner_caller (priv_bi_end_io priv) (priv_bi_private priv))
               (set_bio_status BLK_STS_IOERR b)])) ;;;
          mpath_req_pool_free c ;;;
          cancel_loop c rest
      end
  end.

Definition nvme_mpath_cancel_ios (m : nat) : M unit :=
  mn <- get_ns m ;;
  get_ctrl (ctrl mn) ;;;
  if bool_decide (fq_cong mn = []) then ret tt
  else
    modify (with_nss (insert m (set_fq [] false mn))) ;;;
    cancel_loop (ctrl mn) (fq_cong mn).

(** [nvme_mpath_flush_io_work], the handler of [cu_work] of the aggregate
    controller [g]. *)
Definition nvme_mpath_flush_io_work (g : nat) : M unit :=
  gc <- get_ctrl g ;;
  match mpath_namespace gc with
  | [] => fault
  | m :: _ =>
      mn <- get_ns m ;;
      if test_bit NVME_NS_FO_IN_PROGRESS (ns_flags mn) then
        t <- gets nvme_io_timeout ;;
        schedule_delayed_work (cu_work g) (t * HZ)
      else if test_bit NVME_NS_ROOT (ns_flags mn) then nvme_mpath_cancel_ios m
      else ret tt
  end.

(** What a work item does when the workqueue runs it at time [jiffies]. *)
Definition run_work (w : work) (jiffies alloc_err : Z) : M unit :=
  match w with
  | failover_work c => nvme_trigger_failover c jiffies alloc_err
  | cu_work g => nvme_mpath_flush_io_work g
  end.

End Mpath.

(** ** Predicates used in the statements *)

(** [r] is the first element of [l] that satisfies [P], or [None] when no
    element does. *)
Definition first_such {A} (P : A → Prop) (l : list A) (r : option A) : Prop :=
  match r with
  | Some x => ∃ l1 l2, l = l1 ++ x :: l2 ∧ P x ∧ Forall (λ y, ¬ P y) l1
  | None => Forall (λ y, ¬ P y) l
  end.

(** The run [o] returns, and its final state satisfies [P]. *)
Definition returns_with {A} (o : outcome A) (P : kstate → Prop) : Prop :=
  match o with
  | Done _ s => P s
  | _ => False
  end.

(** The fields of the objects of the store, by address. *)
Definition ns_field {B} (f : nvme_ns → B) (s : kstate) (p : nat) : option B :=
  f <$> nss s !! p.
Definition ctrl_field {B} (f : nvme_ctrl → B) (s : kstate) (c : nat) : option B :=
  f <$> ctrls s !! c.

(** Every pointer stored in the two object stores resolves. *)
Definition heap_ok (s : kstate) : Prop :=
  map_Forall (λ _ n, is_Some (ctrls s !! ctrl n)) (nss s) ∧
  map_Forall (λ _ x, Forall (λ p, is_Some (nss s !! p)) (namespaces x)) (ctrls s).

#[global] Instance heap_ok_dec s : Decision (heap_ok s).
Proof. unfold heap_ok. apply _. Defined.

(** The namespace at [p] has its [active] flag set. *)
Definition ns_is_active (s : kstate) (p : nat) : Prop :=
  ∃ n, nss s !! p = Some n ∧ active n = true.

(** At most one namespace of the list [l] is active. *)
Definition at_most_one_active (s : kstate) (l : list nat) : Prop :=
  ∀ p q, p ∈ l → q ∈ l → ns_is_active s p → ns_is_active s q → p = q.

(** ** A two-path volume used to run the model

    Aggregate controller 10 with the volume 3 and the members 1 (on
    controller 11) and 2 (on controller 12).  The parameters are the states
    of the two controllers, the active flags of the two members, the settled
    flag of the aggregate and the congestion queue of the volume. *)
Definition two_path_ctrls (st11 st12 : nvme_ctrl_state) (settled : bool)
    : gmap nat nvme_ctrl :=
  {[ 10%nat := mk_ctrl NVME_CTRL_LIVE 1 [1; 2]%nat [3%nat] settled (Some 0);
     11%nat := mk_ctrl st11 2 [1%nat] [] true None;
     12%nat := mk_ctrl st12 2 [2%nat] [] true None ]}.

Definition two_path_nss (a1 a2 : bool) (q : list bio) : gmap nat nvme_ns :=
  {[ 1%nat := mk_ns 11 (Some 10%nat) a1 8 0 101 [] false;
     2%nat := mk_ns 12 (Some 10%nat) a2 8 0 102 [] false;
     3%nat := mk_ns 10 None false 4 0 103 q (bool_decide (q ≠ [])) ]}.

Definition two_path_state (st11 st12 : nvme_ctrl_state) (a1 a2 settled : bool)
    (q : list bio) : kstate :=
  mk_kstate (two_path_ctrls st11 st12 settled) (two_path_nss a1 a2 q)
    [10%nat] 60 5 30 [] [] [] [].

(** Member 1 active, member 2 standby on a LIVE controller, volume settled. *)
Definition demo_state (st11 : nvme_ctrl_state) (q : list bio) : kstate :=
  two_path_state st11 NVME_CTRL_LIVE true false true q.

(** A bio parked on the volume 3, first sent to member 1 by submitter 7. *)
Definition parked_bio : bio :=
  mk_bio 1 101 0 BLK_STS_IOERR 0 2048 4096 0 0 1 1 0 0 1
    (owner_mpath (mk_priv 1 3 103 0 2048 1 1 70 4096 7 4 50)).

(** A bio as a submitter hands it to the volume 3. *)
Definition fresh_bio : bio :=
  mk_bio 2 103 0 BLK_STS_OK 0 4096 512 0 0 1 1 0 0 1 (owner_caller 7 70).

Definition demo_request (flags st tries : Z) : request :=
  mk_request flags 1000 30000 (mk_nvme_request tries st).

(** The classification [get_ns_state] gives the namespace at [p]. *)
Definition classified (s : kstate) (p : nat) (st : Z) : Prop :=
  ∃ n, nss s !! p = Some n ∧ get_ns_state n s = Done st s.

(** What [nvme_update_active] looks for: a member that is not active and
    whose controller is in any state but RECONNECTING. *)
Definition promotable (s : kstate) (p : nat) : Prop :=
  ∃ n c, nss s !! p = Some n ∧ active n = false ∧
         ctrls s !! ctrl n = Some c ∧ state c ≠ NVME_CTRL_RECONNECTING.

Section Predicates.
Context `{KC : kernel_consts}.

(** What [get_ns_active] looks for: a member classified ACTIVE that
    carries the MULTIPATH flag. *)
Definition active_multipath (s : kstate) (p : nat) : Prop :=
  classified s p NVME_NS_STATE_ACTIVE ∧
  ns_field (λ n, test_bit NVME_NS_MULTIPATH (ns_flags n)) s p = Some true.


(** The call of [nvme_trigger_failover] on the controller [c] gets as far
    as the test-and-set of FAILOVER_IN_PROGRESS, on the volume [m] of the
    aggregate controller [g]. *)
Definition resolves_volume (s : kstate) (c g m : nat) : Prop :=
  ∃ x r2 gc ml,
    ctrls s !! c = Some x ∧
    test_bit NVME_CTRL_MPATH_CHILD (ctrl_flags x) = true ∧
    failover_child_scan (namespaces x) None None s = Done (Some g, r2) s ∧
    failover_not_needed g r2 s = Done false s ∧
    ctrls s !! g = Some gc ∧
    mpath_namespace gc = m :: ml.

(** The FAILOVER_IN_PROGRESS bit of a namespace. *)
Definition fo_in_progress (n : nvme_ns) : bool :=
  test_bit NVME_NS_FO_IN_PROGRESS (ns_flags n).

(** The call gets as far as the member scan, over the member list [l]:
    the volume is not failing over, the aggregate is settled, the volume
    is ROOT. *)
Definition reaches_scan (s : kstate) (c g m : nat) (l : list nat) : Prop :=
  resolves_volume s c g m ∧
  ctrl_field cleanup_done s g = Some true ∧
  ∃ mn mc, nss s !! m = Some mn ∧ fo_in_progress mn = false ∧
           test_bit NVME_NS_ROOT (ns_flags mn) = true ∧
           ctrls s !! ctrl mn = Some mc ∧ namespaces mc = l.

(** The call finds the aggregate unsettled: it takes the flag and runs
    [nvme_update_active] over the member list [l]. *)
Definition reaches_update_active (s : kstate) (c g m : nat) (l : list nat) : Prop :=
  resolves_volume s c g m ∧
  ctrl_field cleanup_done s g = Some false ∧
  ∃ mn mc, nss s !! m = Some mn ∧ fo_in_progress mn = false ∧
           ctrls s !! ctrl mn = Some mc ∧ namespaces mc = l.

(** The member scan over [l] ends with the active member [a] and the
    standby [sb]: it stops at the first position where it has seen both an
    active and an inactive member, and keeps the last one seen of each. *)
Definition scan_resolves (s : kstate) (l : list nat) (a sb : nat) : Prop :=
  ∃ l1 p l2, l = l1 ++ p :: l2 ∧
    ((Forall (λ q, ns_field active s q = Some false) l1 ∧
      ns_field active s p = Some true ∧ a = p ∧ last l1 = Some sb) ∨
     (Forall (λ q, ns_field active s q = Some true) l1 ∧
      ns_field active s p = Some false ∧ last l1 = Some a ∧ sb = p)).

(** The time test of the rate limit as the code computes it. *)
Definition within_failover_interval (s : kstate) (jiffies : Z) (sb : nat) : Prop :=
  ∃ t, ns_field start_time s sb = Some t ∧
       ulong (jiffies - t) < uint (ns_failover_interval s * HZ).

(** [schedule_delayed_work(&g->cu_work, HZ)] on the pending list. *)
Definition with_cu_work (g : nat) (s : kstate) : kstate :=
  with_delayed (λ l, if bool_decide (cu_work g ∈ l.*1) then l
                     else l ++ [(cu_work g, HZ)]) s.

(** The state after [test_and_set_bit(NVME_NS_FO_IN_PROGRESS)] on [m]. *)
Definition with_fo_set (m : nat) (mn : nvme_ns) (s : kstate) : kstate :=
  with_nss (insert m (set_ns_flags
                        (set_bit NVME_NS_FO_IN_PROGRESS (ns_flags mn)) mn)) s.


(** The bio [b] carries a shadow record and is resubmitted as [b']. *)
Definition resubmitted_as (ns ns_bdev : nat) (b b' : bio) : Prop :=
  ∃ priv, bi_owner b = owner_mpath priv ∧ b' = resubmitted_bio ns ns_bdev priv b.

End Predicates.

(** ** The failover invariant

    The invariant is stated on five projections of the store: for every
    namespace its controller and parent ([v_ns]), its active flag ([v_act])
    and its FAILOVER_IN_PROGRESS bit ([v_fo]); for every aggregate
    controller its member list and volume list ([v_ctrl]); for every
    controller its settled flag ([v_cd]). *)

Section Views.
Context `{KC : kernel_consts}.

Definition ns_shape (n : nvme_ns) : nat * option nat := (ctrl n, mpath_ctrl n).

Definition ctrl_shape (x : nvme_ctrl) : option (list nat * list nat) :=
  if test_bit NVME_CTRL_MULTIPATH (ctrl_flags x)
  then Some (namespaces x, mpath_namespace x) else None.

Definition v_ns (s : kstate) : gmap nat (nat * option nat) := ns_shape <$> nss s.
Definition v_act (s : kstate) : gmap nat bool := active <$> nss s.
Definition v_fo (s : kstate) : gmap nat bool := fo_in_progress <$> nss s.
Definition v_ctrl (s : kstate) : gmap nat (list nat * list nat) :=
  omap ctrl_shape (ctrls s).
Definition v_cd (s : kstate) : gmap nat bool := cleanup_done <$> ctrls s.

End Views.

Section Invariant.
Variables (N : gmap nat (nat * option nat)) (C : gmap nat (list nat * list nat)).
Variables (A F D : gmap nat bool) (I : list nvme_failover_data).

(** Every member of an aggregate controller has it as its parent; every
    parent is an aggregate controller; every volume of an aggregate
    controller has it as its controller. *)
Definition parent_ok (v : nat * option nat) : Prop :=
  match v.2 with
  | Some g => is_Some (C !! g)
  | None => True
  end.

Definition groups_wf : Prop :=
  map_Forall (λ g v, Forall (λ p, snd <$> N !! p = Some (Some g)) v.1) C ∧
  map_Forall (λ _ v, parent_ok v) N ∧
  map_Forall (λ g v, Forall (λ m, fst <$> N !! m = Some g) v.2) C.

(** At most one member of each group is active. *)
Definition one_active : Prop :=
  map_Forall (λ _ v,
    Forall (λ p, Forall (λ q, A !! p = Some true → A !! q = Some true → p = q) v.1)
      v.1) C.

(** A group that is not settled has no active member. *)
Definition unsettled_inactive : Prop :=
  map_Forall (λ g v, D !! g = Some false → Forall (λ p, A !! p ≠ Some true) v.1) C.

(** A promotion request in flight targets a member of an unsettled group
    and holds FAILOVER_IN_PROGRESS on the first volume of that group. *)
Definition request_ok (r : nvme_failover_data) : Prop :=
  match snd <$> N !! standby_ns r with
  | Some (Some g) =>
      D !! g = Some false ∧
      (λ v, head v.2) <$> C !! g = Some (Some (fo_mpath_ns r)) ∧
      F !! fo_mpath_ns r = Some true
  | _ => False
  end.

(** No two requests in flight hold the flag of the same volume. *)
Definition requests_ok : Prop :=
  Forall request_ok I ∧ NoDup (fo_mpath_ns <$> I).

Definition inv_on_views : Prop :=
  groups_wf ∧ one_active ∧ unsettled_inactive ∧ requests_ok.

#[global] Instance parent_ok_dec v : Decision (parent_ok v).
Proof. unfold parent_ok. destruct (v.2); apply _. Defined.

#[global] Instance request_ok_dec r : Decision (request_ok r).
Proof.
  unfold request_ok. destruct (snd <$> N !! standby_ns r) as [[g|]|]; apply _.
Defined.

#[global] Instance inv_on_views_dec : Decision inv_on_views.
Proof.
  unfold inv_on_views, groups_wf, one_active, unsettled_inactive, requests_ok.
  apply _.
Defined.

End Invariant.

Section Reachability.
Context `{KC : kernel_consts}.

(** The invariant of the failover engine on a state. *)
Definition failover_inv (s : kstate) : Prop :=
  inv_on_views (v_ns s) (v_ctrl s) (v_act s) (v_fo s) (v_cd s) (inflight s).

(** One operation of the failover engine: a call of
    [nvme_trigger_failover], the completion of a promotion request in
    flight, or a change of the state of a controller. *)
Inductive fo_step : kstate → kstate → Prop :=
| step_trigger_failover c jiffies alloc_err s s' :
    nvme_trigger_failover c jiffies alloc_err s = Done tt s' →
    fo_step s s'
| step_ns_active_end_io l1 r l2 error s s' :
    inflight s = l1 ++ r :: l2 →
    nvme_ns_active_end_io r error (with_inflight (λ _, l1 ++ l2) s) = Done tt s' →
    fo_step s s'
| step_change_ctrl_state c new_state b s s' :
    nvme_change_ctrl_state c new_state s = Done b s' →
    fo_step s s'.

(** The members of the aggregate controller at [g]. *)
Definition group_members (s : kstate) (g : nat) (l : list nat) : Prop :=
  ∃ x, ctrls s !! g = Some x ∧
       test_bit NVME_CTRL_MULTIPATH (ctrl_flags x) = true ∧ namespaces x = l.

End Reachability.

(** The final state of a run, [d] when it does not return. *)
Definition final_state {A} (o : outcome A) (d : kstate) : kstate :=
  match o with
  | Done _ s => s
  | _ => d
  end.

(** The two-path volume after a failover triggered on controller 11 at
    jiffies 100000, and after the promotion of member 2 has then succeeded. *)
Definition demo_failing_over : kstate :=
  final_state
    (nvme_trigger_failover (KC := linux_consts) 11 100000 0 (demo_state NVME_CTRL_LIVE []))
    (demo_state NVME_CTRL_LIVE []).

Definition demo_failed_over : kstate :=
  final_state
    (nvme_ns_active_end_io (KC := linux_consts)
       (mk_failover_data 2 3 NVME_FAILOVER_RETRIES) BLK_STS_OK
       (with_inflight (λ _, []) demo_failing_over))
    demo_failing_over.

(** ** Further functions of [core.c] *)

(** Errno values ([asm-generic/errno-base.h]). *)
Definition EBUSY : Z := 16.
Definition ENOTTY : Z := 25.

Definition u16 (x : Z) : Z := x mod 2 ^ 16.

(** [nvme_get_log_dw10]: [lid] is a u8 and [size] a size_t, so the
    expression is computed on 64 bits; [cpu_to_le32] keeps the low 32. *)
Definition nvme_get_log_dw10 (lid size : Z) : Z :=
  uint (Z.lor (ulong (Z.shiftl (ulong (size / 4 - 1)) 16)) lid).

(** [nvme_set_queue_count].  [q_count] is the local of that name, the
    value handed to [nvme_set_features]; [set_features] stands for that
    call and gives its return value and the dword it stores in [result].
    The function returns its return value and the new [*count]. *)
Definition q_count (count : Z) : Z :=
  uint (Z.lor (count - 1) (Z.shiftl (count - 1) 16)).

Definition nvme_set_queue_count (set_features : Z → Z * Z) (count : Z) : Z * Z :=
  let r := set_features (q_count count) in
  let status := r.1 in
  let result := uint r.2 in
  if status <? 0 then (status, count)
  else if 0 <? status then (0, 0)
  else
    let nr_io_queues := Z.min (Z.land result 0xffff) (Z.shiftr result 16) + 1 in
    (0, Z.min count nr_io_queues).

Section Cancel.
Context `{KC : kernel_consts}.

(** The generic status code [NVME_SC_ABORT_REQ] of [linux/nvme.h]. *)
Variable NVME_SC_ABORT_REQ : Z.

(** [nvme_cancel_request]: [started] is [blk_mq_request_started(req)],
    [dying] is [blk_queue_dying(req->q)].  The result is the request handed
    to [blk_mq_complete_request], [None] when the function returns before. *)
Definition nvme_cancel_request (started dying : bool) (req : request) : option request :=
  if negb started then None
  else
    let status_ := if dying then Z.lor NVME_SC_ABORT_REQ NVME_SC_DNR
                   else NVME_SC_ABORT_REQ in
    Some (mk_request (cmd_flags req) (rq_start_time req) (rq_timeout req)
            (mk_nvme_request (retries (nvme_req req)) (u16 status_))).

End Cancel.

Definition set_namespaces (v : list nat) (c : nvme_ctrl) : nvme_ctrl :=
  mk_ctrl (state c) (ctrl_flags c) v (mpath_namespace c) (cleanup_done c)
    (mpath_req_pool c).
Definition set_ctrl_flags (v : Z) (c : nvme_ctrl) : nvme_ctrl :=
  mk_ctrl (state c) v (namespaces c) (mpath_namespace c) (cleanup_done c)
    (mpath_req_pool c).

(** What [nvme_ioctl] does with a command: it fails with an errno before
    the switch, or runs the switch on the namespace [ns]. *)
Inductive ioctl_target :=
| ioctl_errno (e : Z)
| ioctl_switch (ns : nat).

Section Control.
Context `{KC : kernel_consts}.

(** [nvme_reset_ctrl]: [queued] is the result of
    [queue_work(nvme_wq, &ctrl->reset_work)], false when the work item was
    already pending. *)
Definition nvme_reset_ctrl (c : nat) (queued : bool) : M Z :=
  changed <- nvme_change_ctrl_state c NVME_CTRL_RESETTING ;;
  if negb changed then ret (- EBUSY)
  else if negb queued then ret (- EBUSY)
  else ret 0.

(** [nvme_ioctl] on the namespace [p] of the block device, up to the
    switch on [cmd]. *)
Definition nvme_ioctl (p : nat) : M ioctl_target :=
  r <- nvme_get_active_ns_for_mpath_ns p ;;
  match r with
  | None => ret (ioctl_errno (- ENOTTY))
  | Some a =>
      n <- get_ns a ;;
      if test_bit NVME_NS_REMOVING (ns_flags n) then ret (ioctl_errno (- ENOTTY))
      else
        c <- get_ctrl (ctrl n) ;;
        if bool_decide (state c ≠ NVME_CTRL_LIVE) then ret (ioctl_errno (- ENOTTY))
        else ret (ioctl_switch a)
  end.

(** [nvme_find_get_mpath_ns]: the first volume of the controller; with an
    empty list the cursor is the bogus entry computed from the list head,
    here [None]. *)
Definition nvme_find_get_mpath_ns (c : nat) : M (option nat) :=
  x <- get_ctrl c ;; ret (head (mpath_namespace x)).

(** [nvme_add_ns_mpath_ctrl]; the final [kref_get] writes through the
    cursor that [nvme_find_get_mpath_ns] returned. *)
Definition nvme_add_ns_mpath_ctrl (p : nat) : M unit :=
  n <- get_ns p ;;
  match mpath_ctrl n with
  | None => fault
  | Some g =>
      mpath_ns <- nvme_find_get_mpath_ns g ;;
      modify_ctrl g (λ x, set_namespaces (namespaces x ++ [p]) x) ;;;
      modify_ctrl (ctrl n)
        (λ x, set_ctrl_flags (set_bit NVME_CTRL_MPATH_CHILD (ctrl_flags x)) x) ;;;
      modify_ns p (λ y, set_ns_flags (set_bit NVME_NS_MULTIPATH (ns_flags y)) y) ;;;
      match mpath_ns with
      | None => fault
      | Some _ => ret tt
      end
  end.

End Control.

Section ControlPredicates.
Context `{KC : kernel_consts}.
(** The namespace at [a] can take a command: it is not REMOVING and its
    controller is LIVE. *)
Definition ns_usable (s : kstate) (a : nat) : bool :=
  match nss s !! a with
  | None => false
  | Some n =>
      negb (test_bit NVME_NS_REMOVING (ns_flags n)) &&
      match ctrls s !! ctrl n with
      | None => false
      | Some c => bool_decide (state c = NVME_CTRL_LIVE)
      end
  end.
End ControlPredicates.

(** The bio as its submitter gets it back: the block device, the
    completion callback and the cookie are restored from the shadow
    record. *)
Definition completed_bio (b : bio) : bio :=
  match bi_owner b with
  | owner_mpath priv =>
      set_bio_owner (priv_bi_bdev priv)
        (owner_caller (priv_bi_end_io priv) (priv_bi_private priv)) b
  | owner_caller _ _ => b
  end.

Section PathPredicates.
Context `{KC : kernel_consts}.

(** What the first loop of [nvme_mpath_make_request] looks for: a member
    that is not REMOVING and is classified ACTIVE. *)
Definition active_path (s : kstate) (p : nat) : Prop :=
  ns_field (λ n, test_bit NVME_NS_REMOVING (ns_flags n)) s p = Some false ∧
  classified s p NVME_NS_STATE_ACTIVE.

End PathPredicates.

(** ** What the failover engine leaves alone

    Of a controller: its state, flags, lists and pool.  Of a namespace:
    everything but the active flag, the timestamp and the
    FAILOVER_IN_PROGRESS bit.  And the bios submitted and completed. *)
Section Frames.
Context `{KC : kernel_consts}.

Definition ctrl_frame (x : nvme_ctrl)
    : nvme_ctrl_state * Z * list nat * list nat * option Z :=
  (state x, ctrl_flags x, namespaces x, mpath_namespace x, mpath_req_pool x).

Definition ns_frame (n : nvme_ns)
    : nat * option nat * Z * nat * list bio * bool :=
  (ctrl n, mpath_ctrl n, clear_bit NVME_NS_FO_IN_PROGRESS (ns_flags n), bdev n,
   fq_cong n, fq_full n).

Definition engine_frame (s s' : kstate) : Prop :=
  ctrl_frame <$> ctrls s' = ctrl_frame <$> ctrls s ∧
  ns_frame <$> nss s' = ns_frame <$> nss s ∧
  submitted s' = submitted s ∧ ended s' = ended s.

End Frames.

(** What a pass of the drain task can change between [s] and [s']: it
    appends to the bios submitted, and it empties congestion queues. *)
Definition drain_frame (s s' : kstate) : Prop :=
  ctrls s' = ctrls s ∧ ended s' = ended s ∧ inflight s' = inflight s ∧
  delayed s' = delayed s ∧
  (∃ l, submitted s' = submitted s ++ l) ∧
  ∀ p, nss s' !! p = nss s !! p ∨
       ∃ n, nss s !! p = Some n ∧ nss s' !! p = Some (set_fq [] false n).

(** ** The drain task *)

Section DrainPredicates.
Context `{KC : kernel_consts}.

(** The bio carries a shadow record: [bi_private] is the record
    [nvme_mpath_priv_bio] has filled. *)
Definition has_shadow_record (b : bio) : Prop :=
  ∃ priv, bi_owner b = owner_mpath priv.

#[global] Instance has_shadow_record_dec b : Decision (has_shadow_record b).
Proof.
  unfold has_shadow_record. destruct (bi_owner b) as [e p|priv].
  - right. by intros [priv Hp].
  - left. by exists priv.
Defined.

(** The tests [nvme_mpath_resubmit_bios] makes, once [get_ns_active] has
    returned the member [an], before it detaches the queue of the volume
    [mn] of the controller [mc]. *)
Definition drain_tests (mn : nvme_ns) (mc : nvme_ctrl) (an : nvme_ns) : bool :=
  negb (fo_in_progress mn)
  && negb (test_bit NVME_NS_REMOVING (ns_flags an))
  && cleanup_done mc
  && negb (test_bit NVME_NS_REMOVING (ns_flags mn))
  && negb (bool_decide (fq_cong mn = [])).

(** The volume [m] passes those tests with the member [a]. *)
Definition drain_ready (s : kstate) (m a : nat) : Prop :=
  ∃ mn mc an,
    nss s !! m = Some mn ∧ ctrls s !! ctrl mn = Some mc ∧
    get_ns_active m s = Done (Some a) s ∧ nss s !! a = Some an ∧
    drain_tests mn mc an = true.

(** The wait queue of the volume [m] is active and [m] passes the tests. *)
Definition drain_pending (s : kstate) (m a : nat) : Prop :=
  ns_field fq_full s m = Some true ∧ drain_ready s m a.

(** The volumes a wake of the drain task goes through: the volumes of the
    aggregate controllers of [nvme_mpath_ctrl_list]. *)
Definition wake_visits (s : kstate) (m : nat) : Prop :=
  ∃ g gc, g ∈ nvme_mpath_ctrl_list s ∧ ctrls s !! g = Some gc ∧
          m ∈ mpath_namespace gc.

(** Between [s] and [s'] the queue of the volume [m] has been detached
    and every bio of it submitted, in order, to the member [a]. *)
Definition drained_to (s s' : kstate) (m a : nat) : Prop :=
  ∃ mn an l' pre post,
    nss s !! m = Some mn ∧ nss s !! a = Some an ∧
    Forall2 (resubmitted_as a (bdev an)) (fq_cong mn) l' ∧
    nss s' !! m = Some (set_fq [] false mn) ∧
    submitted s' = submitted s ++ pre ++ l' ++ post.

(** A wake drains the volume [m] towards [a]: it goes through [m], and
    [m] is pending with [a]. *)
Definition wake_drains (s : kstate) (m a : nat) : Prop :=
  wake_visits s m ∧ drain_pending s m a.

(** The bio [b'] is a bio parked in [s] on a volume among [V] that is
    pending, as the drain resubmits it. *)
Definition drain_output (V : nat → Prop) (s : kstate) (b' : bio) : Prop :=
  ∃ m a mn an b,
    V m ∧ drain_pending s m a ∧ nss s !! m = Some mn ∧ nss s !! a = Some an ∧
    b ∈ fq_cong mn ∧ resubmitted_as a (bdev an) b b'.

(** What a pass over the volumes [V] has done between [s] and [t]. *)
Definition drain_pass (V : nat → Prop) (s t : kstate) : Prop :=
  drain_frame s t ∧
  (∀ m, nss t !! m = nss s !! m ∨
        ∃ a, V m ∧ drain_pending s m a ∧ drained_to s t m a) ∧
  (∀ m a, V m → drain_pending s m a → drained_to s t m a) ∧
  (∃ l, submitted t = submitted s ++ l ∧ Forall (drain_output V s) l).

(** The lists the drain task walks are in the store, and every parked bio
    carries its shadow record. *)
Definition wake_lists_ok (s : kstate) : Prop :=
  Forall (λ g, is_Some (ctrls s !! g)) (nvme_mpath_ctrl_list s) ∧
  map_Forall (λ _ x, Forall (λ m, is_Some (nss s !! m)) (mpath_namespace x))
    (ctrls s) ∧
  map_Forall (λ _ n, Forall has_shadow_record (fq_cong n)) (nss s).

#[global] Instance wake_lists_ok_dec s : Decision (wake_lists_ok s).
Proof. unfold wake_lists_ok. apply _. Defined.

End DrainPredicates.

(** ** The creation of a volume *)

(** The volume 3 as [nvme_alloc_mpath_ns] has built it when it gets to the
    call of [nvme_set_ns_active]: the aggregate controller 10 with the
    member 1 ([active] set by [nvme_shared_ns], MULTIPATH set by
    [nvme_add_ns_mpath_ctrl]) and the volume 3, settled, no flag of the
    volume set.  The namespace 2 of the controller 12 is the second path,
    not yet in the group. *)
Definition created_volume : kstate :=
  mk_kstate
    {[ 10%nat := mk_ctrl NVME_CTRL_LIVE 1 [1%nat] [3%nat] true (Some 0);
       11%nat := mk_ctrl NVME_CTRL_LIVE 2 [1%nat] [] true None;
       12%nat := mk_ctrl NVME_CTRL_LIVE 0 [2%nat] [] true None ]}
    {[ 1%nat := mk_ns 11 (Some 10%nat) true 8 0 101 [] false;
       2%nat := mk_ns 12 None false 0 0 102 [] false;
       3%nat := mk_ns 10 None false 4 0 103 [] false ]}
    [10%nat] 60 5 30 [] [] [] [].

(** The state [nvme_alloc_mpath_ns] returns in: the call
    [nvme_set_ns_active(nsa, ns, NVME_FAILOVER_RETRIES)] has put the
    promotion request of the member 1 in flight. *)
Definition volume_after_alloc : kstate :=
  final_state
    (nvme_set_ns_active 1 3 NVME_FAILOVER_RETRIES 0 created_volume)
    created_volume.

(** The second path joins while that request is in flight:
    [nvme_shared_ns] on the namespace 2 finds the member 1, takes its
    aggregate controller as parent and calls [nvme_add_ns_mpath_ctrl]. *)
Definition volume_second_path : kstate :=
  let s := with_nss (insert 2%nat (mk_ns 12 (Some 10%nat) false 0 0 102 [] false))
             volume_after_alloc in
  final_state (nvme_add_ns_mpath_ctrl (KC := linux_consts) 2 s) s.

(** The completion of the promotion request [r], one of the requests in
    flight, with the status [error]. *)
Definition complete_request (r : nvme_failover_data) (error : blk_status_t)
    (rest : list nvme_failover_data) (s : kstate) : kstate :=
  final_state
    (nvme_ns_active_end_io (KC := linux_consts) r error (with_inflight (λ _, rest) s)) s.

(** The promotion requests of the members 1 and 2 for the volume 3. *)
Definition promote_1 : nvme_failover_data :=
  mk_failover_data 1 3 NVME_FAILOVER_RETRIES.
Definition promote_2 : nvme_failover_data :=
  mk_failover_data 2 3 NVME_FAILOVER_RETRIES.

(** A failover on the controller 11 while the request of the creation is
    in flight, then the completion of that request. *)
Definition failover_during_creation : kstate :=
  final_state
    (nvme_trigger_failover (KC := linux_consts) 11 100000 0 volume_second_path)
    volume_second_path.

Definition creation_request_completed : kstate :=
  complete_request promote_1 BLK_STS_OK [promote_2] failover_during_creation.

(** * Properties *)

(** ** Reasoning about monadic code *)

Lemma bind_Done {A B} (m : M A) (k : A → M B) s b s' :
  bind m k s = Done b s' ↔ ∃ a s1, m s = Done a s1 ∧ k a s1 = Done b s'.
Proof.
  unfold bind. destruct (m s) as [a s1| |]; split.
  - intros H. exists a, s1. done.
  - intros (a' & s1' & Heq & H). by simplify_eq.
  - done.
  - intros (? & ? & ? & ?); done.
  - done.
  - intros (? & ? & ? & ?); done.
Qed.

Lemma get_ns_Done p s n s' :
  get_ns p s = Done n s' ↔ nss s !! p = Some n ∧ s' = s.
Proof.
  unfold get_ns. destruct (nss s !! p); split; try done.
  - by intros [= -> ->].
  - by intros ([= ->] & ->).
  - by intros [? _].
Qed.

Lemma get_ctrl_Done c s x s' :
  get_ctrl c s = Done x s' ↔ ctrls s !! c = Some x ∧ s' = s.
Proof.
  unfold get_ctrl. destruct (ctrls s !! c); split; try done.
  - by intros [= -> ->].
  - by intros ([= ->] & ->).
  - by intros [? _].
Qed.

Lemma get_ns_run p s n : nss s !! p = Some n → get_ns p s = Done n s.
Proof. intros H. apply get_ns_Done. done. Qed.

Lemma get_ctrl_run c s x : ctrls s !! c = Some x → get_ctrl c s = Done x s.
Proof. intros H. apply get_ctrl_Done. done. Qed.

(** ** Controller state machine *)

Section StateMachine.

Lemma code_table_is_switch old_state new_state :
  ctrl_state_changed old_state new_state = code_transition_table old_state new_state.
Proof. by destruct old_state, new_state. Qed.

Lemma code_table_vs_spec old_state new_state :
  code_transition_table old_state new_state =
    spec_transition_table old_state new_state
      && negb (bool_decide (old_state = NVME_CTRL_NEW ∧ new_state = NVME_CTRL_DELETING)).
Proof. by destruct old_state, new_state. Qed.

(** C2, as amended: [nvme_change_ctrl_state] returns true and stores the
    new state exactly for the pairs of the table of section 4.2 other
    than NEW -> DELETING; for every other pair it returns false and leaves
    the whole state as it was. *)
Theorem nvme_change_ctrl_state_table s c x new_state :
  ctrls s !! c = Some x →
  let legal := code_transition_table (state x) new_state in
  ∃ s', nvme_change_ctrl_state c new_state s = Done legal s' ∧
    (legal = true →
       ctrls s' !! c = Some (set_state new_state x) ∧
       state (set_state new_state x) = new_state ∧
       (∀ c', c' ≠ c → ctrls s' !! c' = ctrls s !! c') ∧
       nss s' = nss s) ∧
    (legal = false → s' = s) ∧
    legal = spec_transition_table (state x) new_state
              && negb (bool_decide (state x = NVME_CTRL_NEW
                                    ∧ new_state = NVME_CTRL_DELETING)).
Proof.
  intros Hc legal. subst legal.
  unfold nvme_change_ctrl_state, bind.
  rewrite (get_ctrl_run _ _ _ Hc), code_table_is_switch.
  destruct (code_transition_table (state x) new_state) eqn:Ht; simpl.
  - eexists; split; [reflexivity|]. repeat split; try done.
    + apply lookup_insert_eq.
    + intros c' Hne. by apply lookup_insert_ne.
    + by rewrite <- code_table_vs_spec.
  - exists s. repeat split; try done. by rewrite <- code_table_vs_spec.
Qed.

End StateMachine.

(** A controller in state NEW asked to go to DELETING: the transition is in
    the table of section 4.2, and the code rejects it, which contradicts C2
    as stated. *)
Lemma change_state_new_deleting_rejected :
  spec_transition_table NVME_CTRL_NEW NVME_CTRL_DELETING = true ∧
  nvme_change_ctrl_state 11 NVME_CTRL_DELETING (demo_state NVME_CTRL_NEW [])
    = Done false (demo_state NVME_CTRL_NEW []).
Proof. split; reflexivity. Qed.

Lemma nvme_change_ctrl_state_table_witness :
  ∃ s', nvme_change_ctrl_state 11 NVME_CTRL_LIVE (demo_state NVME_CTRL_NEW [])
          = Done true s'
        ∧ state <$> ctrls s' !! 11%nat = Some NVME_CTRL_LIVE.
Proof.
  destruct (nvme_change_ctrl_state_table (demo_state NVME_CTRL_NEW []) 11
              (mk_ctrl NVME_CTRL_NEW 2 [1%nat] [] true None) NVME_CTRL_LIVE)
    as (s' & Hrun & Hyes & _); [reflexivity|].
  exists s'. split; [exact Hrun|].
  destruct (Hyes eq_refl) as (-> & _). reflexivity.
Defined.

(** ** Command completion *)

Section CommandProofs.
Context `{KC : kernel_consts}.

Lemma nvme_req_needs_retry_spec jiffies max_retries req :
  nvme_req_needs_retry jiffies max_retries req = true
  ↔ retry_eligible jiffies max_retries req.
Proof.
  unfold nvme_req_needs_retry, retry_eligible.
  destruct (blk_noretry_request req); [by split; [|intros (? & _)]|].
  destruct (Z.eqb_spec (Z.land (status (nvme_req req)) NVME_SC_DNR) 0);
    simpl; [|by split; [|intros (_ & ? & _)]].
  destruct (Z.leb_spec (rq_timeout req) (ulong (jiffies - rq_start_time req)));
    [split; [done|intros (_ & _ & ? & _); lia]|].
  destruct (Z.leb_spec max_retries (retries (nvme_req req)));
    [split; [done|intros (_ & _ & _ & ?); lia]|done].
Qed.

(** C7: a request completed with a non-zero status is requeued exactly
    when it is not marked no-retry, its status has no DNR bit, the time
    since its start is below its timeout and its retry counter is below
    [nvme_max_retries]; the requeued request is the same one with the
    counter plus one, and otherwise the request is ended once with the
    status mapped by [nvme_error_status]. *)
Theorem nvme_complete_rq_retry jiffies max_retries req :
  status (nvme_req req) ≠ 0 →
  0 ≤ retries (nvme_req req) < 2 ^ 8 →
  0 ≤ max_retries < 2 ^ 8 →
  (retry_eligible jiffies max_retries req →
     nvme_complete_rq jiffies max_retries req =
       [blk_mq_requeue_request
          (mk_request (cmd_flags req) (rq_start_time req) (rq_timeout req)
             (mk_nvme_request (retries (nvme_req req) + 1)
                (status (nvme_req req)))) true]) ∧
  (¬ retry_eligible jiffies max_retries req →
     nvme_complete_rq jiffies max_retries req =
       [blk_mq_end_request req (nvme_error_status req)]).
Proof.
  intros Hst Hr Hm. unfold nvme_complete_rq.
  destruct (Z.eqb_spec (status (nvme_req req)) 0) as [|_]; [done|]. simpl.
  destruct (nvme_req_needs_retry jiffies max_retries req) eqn:Hn; split.
  - intros He. destruct He as (_ & _ & _ & Hlt).
    unfold u8. rewrite Z.mod_small by lia. done.
  - intros Hne. apply nvme_req_needs_retry_spec in Hn. done.
  - intros He. apply nvme_req_needs_retry_spec in He. congruence.
  - done.
Qed.

End CommandProofs.

Lemma nvme_complete_rq_retry_witness :
  nvme_complete_rq (KC := linux_consts) 2000 5 (demo_request 0 0x281 2)
    = [blk_mq_requeue_request (demo_request 0 0x281 3) true]
  ∧ nvme_complete_rq (KC := linux_consts) 2000 5 (demo_request 0 0x4281 2)
    = [blk_mq_end_request (demo_request 0 0x4281 2) BLK_STS_MEDIUM].
Proof.
  split.
  - apply (nvme_complete_rq_retry (KC := linux_consts) 2000 5 (demo_request 0 0x281 2));
      [done | simpl; lia | lia |].
    repeat split; vm_compute; done.
  - apply (nvme_complete_rq_retry (KC := linux_consts) 2000 5 (demo_request 0 0x4281 2));
      [done | simpl; lia | lia |].
    intros (_ & Hdnr & _). vm_compute in Hdnr. done.
Defined.

(** ** Running monadic code forward *)

Lemma bind_ret {A B} (a : A) (k : A → M B) s : bind (ret a) k s = k a s.
Proof. reflexivity. Qed.

Lemma bind_modify {B} f (k : unit → M B) s : bind (modify f) k s = k tt (f s).
Proof. reflexivity. Qed.

Lemma bind_gets {A B} (f : kstate → A) (k : A → M B) s : bind (gets f) k s = k (f s) s.
Proof. reflexivity. Qed.

Lemma bind_assoc {A B C} (m : M A) (k1 : A → M B) (k2 : B → M C) s :
  bind (bind m k1) k2 s = bind m (λ a, bind (k1 a) k2) s.
Proof. unfold bind. by destruct (m s). Qed.

Lemma bind_run {A B} (m : M A) (k : A → M B) s a s1 :
  m s = Done a s1 → bind m k s = k a s1.
Proof. unfold bind. by intros ->. Qed.

Lemma bind_get_ns {B} p (k : nvme_ns → M B) s n :
  nss s !! p = Some n → bind (get_ns p) k s = k n s.
Proof. intros H. apply bind_run, get_ns_run, H. Qed.

Lemma bind_get_ctrl {B} c (k : nvme_ctrl → M B) s x :
  ctrls s !! c = Some x → bind (get_ctrl c) k s = k x s.
Proof. intros H. apply bind_run, get_ctrl_run, H. Qed.

Lemma bind_if {A B} (b : bool) (m1 m2 : M A) (k : A → M B) s :
  bind (if b then m1 else m2) k s = if b then bind m1 k s else bind m2 k s.
Proof. by destruct b. Qed.

(** Normalise a run: reassociate binds and run the pure steps. *)
Ltac mnorm :=
  cbn beta;
  repeat (first [ rewrite bind_assoc | rewrite bind_ret
                | rewrite bind_modify | rewrite bind_gets ]; cbn beta).

Ltac mnorm_in H := revert H; mnorm; intros H.

Lemma ns_field_Some {B} (f : nvme_ns → B) s p v :
  ns_field f s p = Some v ↔ ∃ n, nss s !! p = Some n ∧ f n = v.
Proof.
  unfold ns_field. destruct (nss s !! p) as [n|]; simpl; split.
  - intros [= <-]. by exists n.
  - intros (n' & [= <-] & <-). done.
  - done.
  - intros (? & ? & ?). done.
Qed.

Lemma ctrl_field_Some {B} (f : nvme_ctrl → B) s c v :
  ctrl_field f s c = Some v ↔ ∃ x, ctrls s !! c = Some x ∧ f x = v.
Proof.
  unfold ctrl_field. destruct (ctrls s !! c) as [x|]; simpl; split.
  - intros [= <-]. by exists x.
  - intros (x' & [= <-] & <-). done.
  - done.
  - intros (? & ? & ?). done.
Qed.

(** A store to [p] that keeps the field [f] keeps [f] everywhere. *)
Lemma ns_field_frame {B} (f : nvme_ns → B) s p n n' q :
  nss s !! p = Some n → f n' = f n →
  ns_field f (with_nss (insert p n') s) q = ns_field f s q.
Proof.
  intros Hp Hf. unfold ns_field. cbn [nss with_nss].
  destruct (decide (q = p)) as [->|Hne].
  - rewrite lookup_insert_eq, Hp. simpl. by rewrite Hf.
  - by rewrite lookup_insert_ne.
Qed.

Lemma ctrl_field_frame {B} (f : nvme_ctrl → B) s c x x' d :
  ctrls s !! c = Some x → f x' = f x →
  ctrl_field f (with_ctrls (insert c x') s) d = ctrl_field f s d.
Proof.
  intros Hc Hf. unfold ctrl_field. cbn [ctrls with_ctrls].
  destruct (decide (d = c)) as [->|Hne].
  - rewrite lookup_insert_eq, Hc. simpl. by rewrite Hf.
  - by rewrite lookup_insert_ne.
Qed.

(** Bits. *)
Lemma test_bit_set_bit nr nr' v :
  0 ≤ nr → test_bit nr' (set_bit nr v) = bool_decide (nr' = nr) || test_bit nr' v.
Proof.
  intros Hnr. unfold test_bit, set_bit.
  destruct (decide (0 ≤ nr')) as [Hnr'|Hneg].
  - rewrite Z.lor_spec, Z.shiftl_spec by done.
    case_bool_decide as Heq.
    + subst. rewrite Z.sub_diag. simpl. by rewrite orb_true_r.
    + simpl. rewrite orb_comm.
      destruct (decide (nr' < nr)).
      * rewrite (Z.testbit_neg_r 1) by lia. done.
      * replace (nr' - nr) with (Z.succ (nr' - nr - 1)) by lia.
        rewrite (Z.bits_above_log2 1 (Z.succ _)); [done|done|simpl; lia].
  - rewrite !Z.testbit_neg_r by lia. case_bool_decide; [lia|done].
Qed.

Lemma test_bit_clear_bit nr nr' v :
  0 ≤ nr → test_bit nr' (clear_bit nr v) = negb (bool_decide (nr' = nr)) && test_bit nr' v.
Proof.
  intros Hnr. unfold test_bit, clear_bit.
  destruct (decide (0 ≤ nr')) as [Hnr'|Hneg].
  - rewrite Z.ldiff_spec, Z.shiftl_spec by done.
    case_bool_decide as Heq.
    + subst. rewrite Z.sub_diag. simpl. by rewrite andb_false_r.
    + simpl. rewrite andb_comm. f_equal.
      destruct (decide (nr' < nr)).
      * rewrite (Z.testbit_neg_r 1) by lia. done.
      * replace (nr' - nr) with (Z.succ (nr' - nr - 1)) by lia.
        rewrite (Z.bits_above_log2 1 (Z.succ _)); [done|done|simpl; lia].
  - rewrite !Z.testbit_neg_r by lia. case_bool_decide; [lia|done].
Qed.

Lemma clear_set_bit nr v :
  0 ≤ nr → test_bit nr v = false → clear_bit nr (set_bit nr v) = v.
Proof.
  intros Hnr Hv. apply Z.bits_inj'. intros k Hk.
  change (test_bit k (clear_bit nr (set_bit nr v)) = test_bit k v).
  rewrite test_bit_clear_bit, test_bit_set_bit by done.
  case_bool_decide; simpl; [by subst|done].
Qed.

Lemma clear_bit_clear nr v :
  0 ≤ nr → test_bit nr v = false → clear_bit nr v = v.
Proof.
  intros Hnr Hv. apply Z.bits_inj'. intros k Hk.
  change (test_bit k (clear_bit nr v) = test_bit k v).
  rewrite test_bit_clear_bit by done.
  case_bool_decide; simpl; [by subst|done].
Qed.

(** ** Path/namespace registry *)

Section Registry.
Context `{KC : kernel_consts}.

Lemma get_ns_state_class s n c :
  ctrls s !! ctrl n = Some c →
  ∃ st, get_ns_state n s = Done st s ∧
    (st = NVME_NS_STATE_ACTIVE ↔ active n = true ∧ state c = NVME_CTRL_LIVE) ∧
    (st = NVME_NS_STATE_STANDBY ↔ active n = false ∧ state c = NVME_CTRL_LIVE) ∧
    (st = NVME_NS_STATE_UNDEFINED ↔ state c ≠ NVME_CTRL_LIVE).
Proof.
  intros Hc. unfold get_ns_state. rewrite (bind_get_ctrl _ _ _ _ Hc).
  destruct (active n); case_bool_decide as Hl; simpl;
    eexists; (split; [reflexivity|]); repeat split; try done;
    try (by intros [? ?]); try (by intros ?).
Qed.

Lemma get_active_ns_scan_run s l :
  (∀ p, p ∈ l → is_Some (nss s !! p)) →
  ∃ r, get_active_ns_scan l s = Done r s ∧ first_such (ns_is_active s) l r.
Proof.
  induction l as [|p l IH]; intros Hl.
  - exists None. split; [done|]. constructor.
  - destruct (Hl p) as [n Hn]; [left|].
    cbn [get_active_ns_scan]. rewrite (bind_get_ns _ _ _ _ Hn).
    destruct (active n) eqn:Ha.
    + exists (Some p). split; [done|]. exists [], l. repeat split; [|constructor].
      by exists n.
    + destruct IH as (r & Hr & Hf); [intros q Hq; apply Hl; by right|].
      exists r. split; [done|].
      assert (¬ ns_is_active s p) as Hnp.
      { intros (n' & Hn' & Ha'). congruence. }
      destruct r as [x|]; simpl in *.
      * destruct Hf as (l1 & l2 & -> & Hx & Hall).
        exists (p :: l1), l2. repeat split; [done|by constructor].
      * by constructor.
Qed.

Lemma get_ns_active_scan_run s l :
  heap_ok s →
  (∀ p, p ∈ l → is_Some (nss s !! p)) →
  ∃ r, get_ns_active_scan l s = Done r s ∧ first_such (active_multipath s) l r.
Proof.
  intros [Hok _]. induction l as [|p l IH]; intros Hl.
  - exists None. split; [done|]. constructor.
  - destruct (Hl p) as [n Hn]; [left|].
    destruct (Hok _ _ Hn) as [c Hc].
    destruct (get_ns_state_class s n c Hc) as (st & Hst & _).
    cbn [get_ns_active_scan]. rewrite (bind_get_ns _ _ _ _ Hn).
    rewrite (bind_run _ _ _ _ _ Hst).
    destruct ((st =? NVME_NS_STATE_ACTIVE)
              && test_bit NVME_NS_MULTIPATH (ns_flags n)) eqn:Hq.
    + apply andb_true_iff in Hq as [Hq1 Hq2]. apply Z.eqb_eq in Hq1. subst st.
      exists (Some p). split; [done|]. exists [], l. repeat split; [| |constructor].
      * by exists n.
      * apply ns_field_Some. by exists n.
    + destruct IH as (r & Hr & Hf); [intros q Hq'; apply Hl; by right|].
      exists r. split; [done|].
      assert (¬ active_multipath s p) as Hnp.
      { intros [(n' & Hn' & Hst') Hmp]. apply ns_field_Some in Hmp as (n'' & Hn'' & Hb).
        simplify_eq. rewrite Hst in Hst'. simplify_eq.
        rewrite Hb, andb_true_r in Hq. by apply Z.eqb_neq in Hq. }
      destruct r as [x|]; simpl in *.
      * destruct Hf as (l1 & l2 & -> & Hx & Hall).
        exists (p :: l1), l2. repeat split; [apply Hx|apply Hx|by constructor].
      * by constructor.
Qed.

Lemma get_ns_active_run s m mn mc :
  heap_ok s → nss s !! m = Some mn → ctrls s !! ctrl mn = Some mc →
  ∃ r, get_ns_active m s = Done r s ∧
       first_such (active_multipath s) (namespaces mc) r.
Proof.
  intros Hok Hm Hc. unfold get_ns_active.
  rewrite (bind_get_ns _ _ _ _ Hm), (bind_get_ctrl _ _ _ _ Hc).
  apply get_ns_active_scan_run; [done|].
  intros p Hp. by apply (proj1 (Forall_forall _ _) (proj2 Hok _ _ Hc)).
Qed.

(** C8, as amended: the classification of a namespace is ACTIVE exactly
    when its flag is set and its controller is LIVE, STANDBY exactly when
    the flag is clear and the controller is LIVE, UNDEFINED exactly when
    the controller is not LIVE; [get_ns_active] returns the first member
    classified ACTIVE that carries the MULTIPATH flag;
    [nvme_get_active_ns_for_mpath_ns] returns, on a ROOT namespace, the
    first member whose active flag is set, whatever the state of its
    controller, and on any other namespace that namespace itself. *)
Theorem registry_classification_and_find s m mn mc :
  heap_ok s →
  nss s !! m = Some mn →
  ctrls s !! ctrl mn = Some mc →
  (∀ n c, ctrls s !! ctrl n = Some c →
     ∃ st, get_ns_state n s = Done st s ∧
       (st = NVME_NS_STATE_ACTIVE ↔ active n = true ∧ state c = NVME_CTRL_LIVE) ∧
       (st = NVME_NS_STATE_STANDBY ↔ active n = false ∧ state c = NVME_CTRL_LIVE) ∧
       (st = NVME_NS_STATE_UNDEFINED ↔ state c ≠ NVME_CTRL_LIVE)) ∧
  (∃ r, get_ns_active m s = Done r s ∧
        first_such (active_multipath s) (namespaces mc) r) ∧
  (∃ r, nvme_get_active_ns_for_mpath_ns m s = Done r s ∧
        if test_bit NVME_NS_ROOT (ns_flags mn)
        then first_such (ns_is_active s) (namespaces mc) r
        else r = Some m).
Proof.
  intros Hok Hm Hc. split; [|split].
  - intros n c Hnc. by apply get_ns_state_class.
  - by apply (get_ns_active_run s m mn mc).
  - unfold nvme_get_active_ns_for_mpath_ns.
    rewrite (bind_get_ns _ _ _ _ Hm).
    destruct (test_bit NVME_NS_ROOT (ns_flags mn)).
    + rewrite (bind_get_ctrl _ _ _ _ Hc).
      apply get_active_ns_scan_run.
      intros p Hp. by apply (proj1 (Forall_forall _ _) (proj2 Hok _ _ Hc)).
    + by exists (Some m).
Qed.

End Registry.

(** The active member 1 sits on a controller that is RESETTING: it is
    classified UNDEFINED, and [nvme_get_active_ns_for_mpath_ns] still returns
    it, which contradicts C8 as stated. *)
Lemma find_active_returns_undefined_member :
  let s := demo_state NVME_CTRL_RESETTING [] in
  classified s 1 NVME_NS_STATE_UNDEFINED ∧
  ¬ classified s 1 NVME_NS_STATE_ACTIVE ∧
  nvme_get_active_ns_for_mpath_ns (KC := linux_consts) 3 s = Done (Some 1%nat) s.
Proof.
  split; [|split].
  - eexists. split; reflexivity.
  - intros (n & Hn & Hst). vm_compute in Hn. simplify_eq.
  - reflexivity.
Qed.

Lemma registry_classification_and_find_witness :
  get_ns_active (KC := linux_consts) 3 (demo_state NVME_CTRL_LIVE [])
    = Done (Some 1%nat) (demo_state NVME_CTRL_LIVE []) ∧
  ∃ r, nvme_get_active_ns_for_mpath_ns (KC := linux_consts) 3
         (demo_state NVME_CTRL_RESETTING []) = Done r (demo_state NVME_CTRL_RESETTING [])
       ∧ first_such (ns_is_active (demo_state NVME_CTRL_RESETTING [])) [1; 2]%nat r.
Proof.
  split; [reflexivity|].
  destruct (registry_classification_and_find (KC := linux_consts)
              (demo_state NVME_CTRL_RESETTING []) 3
              (mk_ns 10 None false 4 0 103 [] false)
              (mk_ctrl NVME_CTRL_LIVE 1 [1; 2]%nat [3%nat] true (Some 0)))
    as (_ & _ & r & Hr & Hf); [compute_done|reflexivity|reflexivity|].
  exists r. split; [exact Hr|exact Hf].
Defined.

(** ** Failover engine *)

Section Failover.
Context `{KC : kernel_consts}.

Hypothesis FO_nonneg : 0 ≤ NVME_NS_FO_IN_PROGRESS.

Lemma update_active_scan_run s l :
  heap_ok s →
  (∀ p, p ∈ l → is_Some (nss s !! p)) →
  ∃ r, update_active_scan l s = Done r s ∧ first_such (promotable s) l r.
Proof.
  intros [Hok _]. induction l as [|p l IH]; intros Hl.
  - exists None. split; [done|]. constructor.
  - destruct (Hl p) as [n Hn]; [left|].
    destruct (Hok _ _ Hn) as [c Hc].
    assert (∃ r, update_active_scan l s = Done r s ∧ first_such (promotable s) l r)
      as (r & Hr & Hf) by (apply IH; intros q Hq; apply Hl; by right).
    assert (¬ promotable s p →
            ∃ r', Done r s = Done r' s ∧ first_such (promotable s) (p :: l) r')
      as Hskip.
    { intros Hnp. exists r. split; [done|]. destruct r as [x|]; simpl in *.
      - destruct Hf as (l1 & l2 & -> & Hx & Hall).
        exists (p :: l1), l2. repeat split; [done|by constructor].
      - by constructor. }
    cbn [update_active_scan]. rewrite (bind_get_ns _ _ _ _ Hn).
    destruct (active n) eqn:Ha.
    + rewrite Hr. apply Hskip. intros (n' & c' & Hn' & Ha' & _). congruence.
    + rewrite (bind_get_ctrl _ _ _ _ Hc). case_bool_decide as Hst.
      * exists (Some p). split; [done|]. exists [], l. repeat split; [|constructor].
        by exists n, c.
      * rewrite Hr. apply Hskip. intros (n' & c' & Hn' & _ & Hc' & Hst').
        simplify_eq.
Qed.

Lemma test_and_clear_bit_ns_run nr m s mn :
  nss s !! m = Some mn →
  test_and_clear_bit_ns nr m s =
    Done (test_bit nr (ns_flags mn))
         (with_nss (insert m (set_ns_flags (clear_bit nr (ns_flags mn)) mn)) s).
Proof.
  intros Hm. unfold test_and_clear_bit_ns. by rewrite (bind_get_ns _ _ _ _ Hm).
Qed.

Lemma test_and_set_bit_ns_run nr m s mn :
  nss s !! m = Some mn →
  test_and_set_bit_ns nr m s =
    Done (test_bit nr (ns_flags mn))
         (with_nss (insert m (set_ns_flags (set_bit nr (ns_flags mn)) mn)) s).
Proof.
  intros Hm. unfold test_and_set_bit_ns. by rewrite (bind_get_ns _ _ _ _ Hm).
Qed.

Lemma nvme_set_ns_active_ok s p m cnt n c :
  nss s !! p = Some n → ctrls s !! ctrl n = Some c →
  nvme_set_ns_active p m cnt 0 s =
    Done 0 (with_inflight (λ l, l ++ [mk_failover_data p m cnt]) s).
Proof.
  intros Hn Hc. unfold nvme_set_ns_active.
  by rewrite (bind_get_ns _ _ _ _ Hn), (bind_get_ctrl _ _ _ _ Hc).
Qed.

Lemma nvme_set_ns_active_err s p m cnt alloc_err n c :
  nss s !! p = Some n → ctrls s !! ctrl n = Some c → alloc_err ≠ 0 →
  nvme_set_ns_active p m cnt alloc_err s = Done alloc_err s.
Proof.
  intros Hn Hc He. unfold nvme_set_ns_active.
  rewrite (bind_get_ns _ _ _ _ Hn), (bind_get_ctrl _ _ _ _ Hc).
  by destruct (Z.eqb_spec alloc_err 0).
Qed.

(** C10: [nvme_update_active] called with a null [mpath_ns] faults, since
    its guard writes through the null pointer; on a store whose pointers
    resolve the null (or dangling) argument is the only way it faults, so
    a non-null volume is the precondition of its memory safety. *)
Theorem nvme_update_active_null_guard s mpath_ns alloc_err :
  heap_ok s →
  (nvme_update_active None alloc_err s = Fault) ∧
  (nvme_update_active mpath_ns alloc_err s = Fault
   ↔ match mpath_ns with
     | None => True
     | Some m => nss s !! m = None
     end).
Proof.
  intros Hok. split; [done|].
  destruct mpath_ns as [m|]; [|done].
  cbn [nvme_update_active].
  destruct (nss s !! m) as [mn|] eqn:Hm.
  - split; [|done]. intros Hf. exfalso. revert Hf.
    destruct (proj1 Hok _ _ Hm) as [mc Hc].
    rewrite (bind_get_ns _ _ _ _ Hm), (bind_get_ctrl _ _ _ _ Hc).
    destruct (update_active_scan_run s (namespaces mc) Hok) as (r & Hr & Hf).
    { intros p Hp. by apply (proj1 (Forall_forall _ _) (proj2 Hok _ _ Hc)). }
    rewrite (bind_run _ _ _ _ _ Hr).
    destruct r as [p|].
    + destruct Hf as (l1 & l2 & _ & (n & c & Hn & _ & Hcn & _) & _).
      destruct (decide (alloc_err = 0)) as [->|He].
      * by rewrite (bind_run _ _ _ _ _ (nvme_set_ns_active_ok s p m _ n c Hn Hcn)).
      * rewrite (bind_run _ _ _ _ _ (nvme_set_ns_active_err s p m _ _ n c Hn Hcn He)).
        destruct (Z.eqb_spec alloc_err 0) as [|_]; [done|]. simpl.
        by rewrite (bind_run _ _ _ _ _ (test_and_clear_bit_ns_run _ _ _ _ Hm)).
    + by rewrite (bind_run _ _ _ _ _ (test_and_clear_bit_ns_run _ _ _ _ Hm)).
  - split; [done|]. intros _. unfold bind, get_ns. by rewrite Hm.
Qed.

(** *** Helpers on states *)

Lemma set_ns_flags_id n : set_ns_flags (ns_flags n) n = n.
Proof. by destruct n. Qed.

Lemma with_nss_insert_id s p n : nss s !! p = Some n → with_nss (insert p n) s = s.
Proof. intros H. destruct s. unfold with_nss. cbn in *. by rewrite insert_id. Qed.

Lemma with_nss_insert_twice s p n n' :
  with_nss (insert p n) (with_nss (insert p n') s) = with_nss (insert p n) s.
Proof. destruct s. unfold with_nss. cbn. by rewrite insert_insert_eq. Qed.

Lemma set_bit_id nr v : test_bit nr v = true → set_bit nr v = v.
Proof.
  intros Hv. assert (0 ≤ nr) as Hnr.
  { destruct (decide (0 ≤ nr)); [done|]. unfold test_bit in Hv.
    rewrite Z.testbit_neg_r in Hv by lia. done. }
  apply Z.bits_inj'. intros k Hk.
  change (test_bit k (set_bit nr v) = test_bit k v).
  rewrite test_bit_set_bit by done. case_bool_decide; simpl; [by subst|done].
Qed.

Lemma with_fo_set_clear s m mn :
  nss s !! m = Some mn → fo_in_progress mn = false →
  with_nss (insert m (set_ns_flags
              (clear_bit NVME_NS_FO_IN_PROGRESS
                 (ns_flags (set_ns_flags
                    (set_bit NVME_NS_FO_IN_PROGRESS (ns_flags mn)) mn)))
              (set_ns_flags (set_bit NVME_NS_FO_IN_PROGRESS (ns_flags mn)) mn)))
    (with_fo_set m mn s) = s.
Proof.
  intros Hm Hfo. unfold with_fo_set. rewrite with_nss_insert_twice.
  cbn [ns_flags set_ns_flags]. rewrite clear_set_bit; [|done|exact Hfo].
  assert (set_ns_flags (ns_flags mn)
            (set_ns_flags (set_bit NVME_NS_FO_IN_PROGRESS (ns_flags mn)) mn) = mn)
    as -> by (by destruct mn).
  by apply with_nss_insert_id.
Qed.

Lemma ns_field_with_fo_set {B} (f : nvme_ns → B) s m mn q :
  nss s !! m = Some mn →
  (∀ v n, f (set_ns_flags v n) = f n) →
  ns_field f (with_fo_set m mn s) q = ns_field f s q.
Proof. intros Hm Hf. by apply (ns_field_frame f s m mn). Qed.

(** *** The call up to the test-and-set *)

Lemma trigger_failover_resolved s c g m jiffies alloc_err :
  resolves_volume s c g m →
  nvme_trigger_failover c jiffies alloc_err s =
    bind (test_and_set_bit_ns NVME_NS_FO_IN_PROGRESS m)
      (λ old : bool, if old then ret tt
                     else failover_locked g m jiffies alloc_err) s.
Proof.
  intros (x & r2 & gc & ml & Hx & Hch & Hscan & Hskip & Hg & Hml).
  unfold nvme_trigger_failover.
  rewrite (bind_get_ctrl _ _ _ _ Hx), Hch. cbn [negb].
  rewrite (bind_run _ _ _ _ _ Hscan). cbn [fst snd].
  rewrite (bind_run _ _ _ _ _ Hskip).
  by rewrite (bind_get_ctrl _ _ _ _ Hg), Hml.
Qed.

Lemma trigger_failover_takes_flag s c g m mn jiffies alloc_err :
  resolves_volume s c g m →
  nss s !! m = Some mn → fo_in_progress mn = false →
  nvme_trigger_failover c jiffies alloc_err s =
    failover_locked g m jiffies alloc_err (with_fo_set m mn s).
Proof.
  intros Hres Hm Hfo. rewrite (trigger_failover_resolved _ _ _ _ _ _ Hres).
  rewrite (bind_run _ _ _ _ _ (test_and_set_bit_ns_run _ _ _ _ Hm)).
  unfold fo_in_progress in Hfo. by rewrite Hfo.
Qed.

Lemma trigger_failover_fo_set_noop s c g m jiffies alloc_err :
  resolves_volume s c g m →
  ns_field fo_in_progress s m = Some true →
  nvme_trigger_failover c jiffies alloc_err s = Done tt s.
Proof.
  intros Hres Hfo. apply ns_field_Some in Hfo as (mn & Hm & Hfo).
  rewrite (trigger_failover_resolved _ _ _ _ _ _ Hres).
  rewrite (bind_run _ _ _ _ _ (test_and_set_bit_ns_run _ _ _ _ Hm)).
  unfold fo_in_progress in Hfo. rewrite Hfo, set_bit_id by done.
  by rewrite set_ns_flags_id, with_nss_insert_id.
Qed.

(** *** The member scan *)

Lemma failover_scan_skip_inactive g m jiffies alloc_err l1 rest sb0 s :
  Forall (λ q, ns_field active s q = Some false) l1 →
  failover_scan g m jiffies alloc_err (l1 ++ rest) None sb0 s =
    failover_scan g m jiffies alloc_err rest None
      (match last l1 with Some x => Some x | None => sb0 end) s.
Proof.
  revert sb0. induction l1 as [|p l1 IH]; intros sb0 Hall; [done|].
  apply Forall_cons in Hall as [Hp Hall].
  apply ns_field_Some in Hp as (n & Hn & Ha).
  cbn [app failover_scan]. rewrite (bind_get_ns _ _ _ _ Hn), Ha.
  rewrite IH by done. rewrite last_cons. by destruct (last l1).
Qed.

Lemma failover_scan_skip_active g m jiffies alloc_err l1 rest a0 s :
  Forall (λ q, ns_field active s q = Some true) l1 →
  failover_scan g m jiffies alloc_err (l1 ++ rest) a0 None s =
    failover_scan g m jiffies alloc_err rest
      (match last l1 with Some x => Some x | None => a0 end) None s.
Proof.
  revert a0. induction l1 as [|p l1 IH]; intros a0 Hall; [done|].
  apply Forall_cons in Hall as [Hp Hall].
  apply ns_field_Some in Hp as (n & Hn & Ha).
  cbn [app failover_scan]. rewrite (bind_get_ns _ _ _ _ Hn), Ha.
  rewrite IH by done. rewrite last_cons. by destruct (last l1).
Qed.

Lemma failover_scan_resolved g m jiffies alloc_err l a sb s :
  scan_resolves s l a sb →
  a ≠ sb ∧
  failover_scan g m jiffies alloc_err l None None s =
    failover_pair g m jiffies alloc_err a sb s.
Proof.
  intros (l1 & p & l2 & -> & [(Hall & Hp & -> & Hlast)|(Hall & Hp & Hlast & ->)]).
  - split.
    + intros <-. apply last_Some in Hlast as (l' & ->).
      apply Forall_app in Hall as [_ Hsb]. apply Forall_cons in Hsb as [Hsb _].
      congruence.
    + rewrite failover_scan_skip_inactive by done. rewrite Hlast.
      apply ns_field_Some in Hp as (n & Hn & Ha).
      cbn [failover_scan]. by rewrite (bind_get_ns _ _ _ _ Hn), Ha.
  - split.
    + intros <-. apply last_Some in Hlast as (l' & ->).
      apply Forall_app in Hall as [_ Ha]. apply Forall_cons in Ha as [Ha _].
      congruence.
    + rewrite failover_scan_skip_active by done. rewrite Hlast.
      apply ns_field_Some in Hp as (n & Hn & Ha).
      cbn [failover_scan]. by rewrite (bind_get_ns _ _ _ _ Hn), Ha.
Qed.

Lemma scan_resolves_frame s s' l a sb :
  (∀ q, ns_field active s' q = ns_field active s q) →
  scan_resolves s l a sb → scan_resolves s' l a sb.
Proof.
  intros Hf (l1 & p & l2 & -> & H). exists l1, p, l2. split; [done|].
  destruct H as [(Hall & Hp & -> & Hlast)|(Hall & Hp & Hlast & ->)]; [left|right].
  - repeat split; try done; [|by rewrite Hf].
    eapply Forall_impl; [exact Hall|]. intros q Hq. by rewrite Hf.
  - repeat split; try done; [|by rewrite Hf].
    eapply Forall_impl; [exact Hall|]. intros q Hq. by rewrite Hf.
Qed.

Lemma failover_locked_scan s c g m l jiffies alloc_err mn :
  reaches_scan s c g m l → nss s !! m = Some mn →
  fo_in_progress mn = false ∧
  nvme_trigger_failover c jiffies alloc_err s =
    failover_scan g m jiffies alloc_err l None None (with_fo_set m mn s).
Proof.
  intros (Hres & Hcd & mn' & mc & Hm' & Hfo & Hroot & Hmc & <-) Hm.
  assert (mn' = mn) as -> by congruence. split; [done|].
  rewrite (trigger_failover_takes_flag _ _ _ _ _ _ _ Hres Hm Hfo).
  apply ctrl_field_Some in Hcd as (gc & Hg & Hcd).
  unfold failover_locked.
  rewrite (bind_get_ctrl _ _ _ gc) by done. rewrite Hcd. cbn [negb].
  erewrite bind_get_ns; [|unfold with_fo_set; cbn [nss with_nss]; apply lookup_insert_eq].
  cbn [ns_flags set_ns_flags ctrl].
  rewrite test_bit_set_bit, Hroot, orb_true_r by done.
  by rewrite (bind_get_ctrl _ _ _ mc).
Qed.

(** C4, as amended: when the call reaches the member scan, the scan ends
    with an active member and a standby, and the clock is less than
    [ns_failover_interval * HZ] (a 32-bit product) past the standby's
    [start_time], the call changes no object of the store (no active
    flag, no timestamp, no settled flag; FAILOVER_IN_PROGRESS is clear
    again), issues no promotion request, and schedules the [cu_work] of
    the aggregate controller [HZ] jiffies later.  That work item runs
    [nvme_mpath_flush_io_work], which fails the parked I/O of the volume
    with [nvme_mpath_cancel_ios]; it does not run [nvme_trigger_failover]. *)
Theorem nvme_trigger_failover_rate_limited s c g m l a sb jiffies alloc_err :
  reaches_scan s c g m l →
  scan_resolves s l a sb →
  within_failover_interval s jiffies sb →
  nvme_trigger_failover c jiffies alloc_err s = Done tt (with_cu_work g s) ∧
  nss (with_cu_work g s) = nss s ∧
  ctrls (with_cu_work g s) = ctrls s ∧
  inflight (with_cu_work g s) = inflight s ∧
  (∀ j' e', run_work (cu_work g) j' e' (with_cu_work g s) =
              nvme_mpath_cancel_ios m (with_cu_work g s)).
Proof.
  intros Hreach Hscan (t & Ht & Hlt).
  pose proof Hreach as (Hres & Hcd & mn & mc & Hm & Hfo & Hroot & Hmc & Hl).
  destruct (failover_locked_scan s c g m l jiffies alloc_err mn Hreach Hm) as [_ ->].
  assert (∀ {B} (f : nvme_ns → B) q, (∀ v n, f (set_ns_flags v n) = f n) →
            ns_field f (with_fo_set m mn s) q = ns_field f s q) as Hframe.
  { intros B f q Hf. by apply ns_field_with_fo_set. }
  destruct (failover_scan_resolved g m jiffies alloc_err l a sb (with_fo_set m mn s))
    as [Hne ->].
  { apply (scan_resolves_frame s); [|done]. intros q. by apply Hframe. }
  split; [|repeat split; try done].
  - unfold failover_pair. rewrite bool_decide_eq_false_2 by done.
    assert (ns_field start_time (with_fo_set m mn s) sb = Some t) as Ht'
      by (by rewrite Hframe).
    apply ns_field_Some in Ht' as (sbn & Hsb & Hst).
    rewrite (bind_get_ns _ _ _ _ Hsb), bind_gets. cbn [ns_failover_interval with_fo_set with_nss].
    rewrite Hst. destruct (Z.ltb_spec (ulong (jiffies - t)) (uint (ns_failover_interval s * HZ)));
      [|lia].
    assert (nss (with_fo_set m mn s) !! m =
              Some (set_ns_flags (set_bit NVME_NS_FO_IN_PROGRESS (ns_flags mn)) mn))
      as Hm1 by apply lookup_insert_eq.
    rewrite (bind_run _ _ _ _ _ (test_and_clear_bit_ns_run _ m _ _ Hm1)).
    rewrite with_fo_set_clear by done.
    apply ctrl_field_Some in Hcd as (gc & Hg & _).
    by rewrite (bind_get_ctrl _ _ _ _ Hg).
  - intros j' e'. cbn [run_work]. unfold nvme_mpath_flush_io_work.
    destruct Hres as (_ & _ & gc & ml & _ & _ & _ & _ & Hg & Hml).
    rewrite (bind_get_ctrl _ _ _ gc) by done. rewrite Hml.
    rewrite (bind_get_ns _ _ _ mn) by done.
    unfold fo_in_progress in Hfo. by rewrite Hfo, Hroot.
Qed.

(** *** The unsettled aggregate *)

Lemma first_such_ext {A} (P Q : A → Prop) l r :
  (∀ x, P x ↔ Q x) → first_such P l r → first_such Q l r.
Proof.
  intros Hext. destruct r as [x|]; simpl.
  - intros (l1 & l2 & -> & Hx & Hall). exists l1, l2. repeat split; [by apply Hext|].
    eapply Forall_impl; [exact Hall|]. intros y Hy HQ. by apply Hy, Hext.
  - intros Hall. eapply Forall_impl; [exact Hall|]. intros y Hy HQ. by apply Hy, Hext.
Qed.

Lemma heap_ok_frame s m mn mn' :
  nss s !! m = Some mn → ctrl mn' = ctrl mn →
  heap_ok s → heap_ok (with_nss (insert m mn') s).
Proof.
  intros Hm Hc [H1 H2]. split.
  - intros p n Hp. cbn [nss ctrls with_nss] in *.
    apply lookup_insert_Some in Hp as [[<- <-]|[_ Hp]].
    + rewrite Hc. by apply (H1 m mn).
    + by apply (H1 p n).
  - intros c x Hx. cbn [nss ctrls with_nss] in *.
    eapply Forall_impl; [exact (H2 c x Hx)|]. intros p Hp. cbn beta in *.
    rewrite lookup_insert_is_Some. destruct (decide (m = p)); [by left|by right].
Qed.

Lemma promotable_frame s m mn mn' p :
  nss s !! m = Some mn → ctrl mn' = ctrl mn → active mn' = active mn →
  promotable (with_nss (insert m mn') s) p ↔ promotable s p.
Proof.
  intros Hm Hc Ha. unfold promotable. cbn [nss ctrls with_nss].
  destruct (decide (p = m)) as [->|Hne].
  - rewrite lookup_insert_eq. split.
    + intros (n & c & [= <-] & Hact & Hcn & Hst). exists mn, c.
      rewrite <- Ha, <- Hc. done.
    + intros (n & c & Hn & Hact & Hcn & Hst). assert (n = mn) as -> by congruence.
      exists mn', c. rewrite Ha, Hc. done.
  - by rewrite lookup_insert_ne.
Qed.

(** C5, as amended: when the call takes FAILOVER_IN_PROGRESS on an
    aggregate that is not settled, it does not run the member scan and
    its result does not depend on the clock (there is no rate limit); it
    looks for the first member that is not active and whose controller is
    in any state but RECONNECTING.  With such a member and the promotion
    request issued, the request is in flight and the flag stays set; when
    the request cannot be issued the flag is cleared and [cu_work] is
    scheduled [HZ] later; when there is no such member the flag is
    cleared and nothing is scheduled. *)
Theorem nvme_trigger_failover_unsettled s c g m mn l jiffies alloc_err :
  heap_ok s →
  reaches_update_active s c g m l →
  nss s !! m = Some mn →
  ∃ r, first_such (promotable s) l r ∧
    nvme_trigger_failover c jiffies alloc_err s =
      Done tt
        match r with
        | None => s
        | Some p =>
            if alloc_err =? 0
            then with_inflight (λ q, q ++ [mk_failover_data p m NVME_FAILOVER_RETRIES])
                   (with_fo_set m mn s)
            else with_cu_work g s
        end.
Proof.
  intros Hok (Hres & Hcd & mn' & mc & Hm' & Hfo & Hmc & <-) Hm.
  assert (mn' = mn) as -> by congruence.
  rewrite (trigger_failover_takes_flag _ _ _ _ _ _ _ Hres Hm Hfo).
  apply ctrl_field_Some in Hcd as (gc & Hg & Hcd).
  set (mn1 := set_ns_flags (set_bit NVME_NS_FO_IN_PROGRESS (ns_flags mn)) mn).
  assert (nss (with_fo_set m mn s) !! m = Some mn1) as Hm1 by apply lookup_insert_eq.
  assert (heap_ok (with_fo_set m mn s)) as Hok1 by (by apply (heap_ok_frame s m mn)).
  destruct (update_active_scan_run (with_fo_set m mn s) (namespaces mc) Hok1)
    as (r & Hr & Hf).
  { intros p Hp. apply (proj1 (Forall_forall _ _) (proj2 Hok1 _ _ Hmc) p Hp). }
  exists r. split.
  { eapply first_such_ext; [|exact Hf]. intros p.
    by apply (promotable_frame s m mn). }
  unfold failover_locked.
  rewrite (bind_get_ctrl _ _ _ gc) by done. rewrite Hcd. cbn [negb].
  cbn [nvme_update_active]. mnorm.
  rewrite (bind_get_ns _ _ _ _ Hm1). mnorm.
  rewrite (bind_get_ctrl _ _ _ mc) by done. mnorm.
  rewrite (bind_run _ _ _ _ _ Hr).
  destruct r as [p|].
  - destruct Hf as (l1 & l2 & _ & (n & cn & Hn & _ & Hcn & _) & _). mnorm.
    destruct (Z.eqb_spec alloc_err 0) as [->|He].
    + by rewrite (bind_run _ _ _ _ _ (nvme_set_ns_active_ok _ p m _ n cn Hn Hcn)).
    + rewrite (bind_run _ _ _ _ _ (nvme_set_ns_active_err _ p m _ _ n cn Hn Hcn He)).
      destruct (Z.eqb_spec alloc_err 0) as [|_]; [done|]. cbn [negb]. mnorm.
      rewrite (bind_run _ _ _ _ _ (test_and_clear_bit_ns_run _ m _ _ Hm1)). mnorm.
      subst mn1. rewrite with_fo_set_clear by done.
      by destruct (Z.eqb_spec 0 0).
  - mnorm.
    rewrite (bind_run _ _ _ _ _ (test_and_clear_bit_ns_run _ m _ _ Hm1)). mnorm.
    subst mn1. by rewrite with_fo_set_clear.
Qed.

End Failover.

Lemma nvme_update_active_null_guard_witness :
  nvme_update_active (KC := linux_consts) None 0 (demo_state NVME_CTRL_LIVE []) = Fault ∧
  nvme_update_active (KC := linux_consts) (Some 3%nat) 0 (demo_state NVME_CTRL_LIVE [])
    ≠ Fault.
Proof.
  split.
  - destruct (nvme_update_active_null_guard (KC := linux_consts)
                (demo_state NVME_CTRL_LIVE []) None 0) as [H _];
      [compute_done|exact H].
  - intros Hf.
    apply (nvme_update_active_null_guard (KC := linux_consts)
             (demo_state NVME_CTRL_LIVE []) (Some 3%nat) 0) in Hf; [|compute_done].
    vm_compute in Hf. done.
Defined.

Lemma demo_reaches_scan q :
  reaches_scan (KC := linux_consts) (demo_state NVME_CTRL_LIVE q) 11 10 3 [1; 2]%nat.
Proof.
  split; [|split; [reflexivity|]].
  - exists (mk_ctrl NVME_CTRL_LIVE 2 [1%nat] [] true None), (Some 1%nat),
      (mk_ctrl NVME_CTRL_LIVE 1 [1; 2]%nat [3%nat] true (Some 0)), [].
    repeat split; reflexivity.
  - exists (mk_ns 10 None false 4 0 103 q (bool_decide (q ≠ []))),
      (mk_ctrl NVME_CTRL_LIVE 1 [1; 2]%nat [3%nat] true (Some 0)).
    repeat split; reflexivity.
Qed.

Lemma nvme_trigger_failover_rate_limited_witness :
  nvme_trigger_failover (KC := linux_consts) 11 100 0 (demo_state NVME_CTRL_LIVE [parked_bio])
    = Done tt (with_cu_work (KC := linux_consts) 10 (demo_state NVME_CTRL_LIVE [parked_bio])).
Proof.
  apply (nvme_trigger_failover_rate_limited (KC := linux_consts) ltac:(done)
           (demo_state NVME_CTRL_LIVE [parked_bio]) 11 10 3 [1; 2]%nat 1 2 100 0).
  - apply demo_reaches_scan.
  - exists [1%nat], 2%nat, []. split; [reflexivity|]. right.
    repeat split; try reflexivity. by repeat constructor.
  - exists 0. split; [reflexivity|]. vm_compute. done.
Defined.

(** The rate-limited call leaves one pending work item, the [cu_work] of the
    aggregate controller, and no [failover_work].  When that item runs, even
    after the interval has elapsed, it fails the parked bio with an I/O
    error and promotes nothing, whereas a call of [nvme_trigger_failover] at
    that time issues the promotion of member 2: what is scheduled is not a
    retry, which contradicts C4 as stated. *)
Lemma rate_limited_failover_schedules_cleanup :
  returns_with
    (nvme_trigger_failover (KC := linux_consts) 11 100 0
       (demo_state NVME_CTRL_LIVE [parked_bio]))
    (λ s1,
       delayed s1 = [(cu_work 10, 1000)] ∧
       returns_with
         (run_work (KC := linux_consts) (cu_work 10) 100000 0 (with_delayed (λ _, []) s1))
         (λ s2,
            inflight s2 = [] ∧
            ns_field active s2 1 = Some true ∧
            ns_field active s2 2 = Some false ∧
            ns_field fq_cong s2 3 = Some [] ∧
            bi_status <$> ended s2 = [BLK_STS_IOERR]) ∧
       returns_with
         (nvme_trigger_failover (KC := linux_consts) 11 100000 0
            (with_delayed (λ _, []) s1))
         (λ s3,
            inflight s3 = [mk_failover_data 2 3 NVME_FAILOVER_RETRIES] ∧
            ns_field active s3 1 = Some false)).
Proof. vm_compute. repeat split; reflexivity. Qed.

Lemma nvme_trigger_failover_unsettled_witness :
  ∃ r, first_such (promotable (two_path_state NVME_CTRL_RESETTING NVME_CTRL_LIVE
                                 false false false [])) [1; 2]%nat r ∧
    nvme_trigger_failover (KC := linux_consts) 11 100 0
      (two_path_state NVME_CTRL_RESETTING NVME_CTRL_LIVE false false false []) =
      Done tt
        match r with
        | None => two_path_state NVME_CTRL_RESETTING NVME_CTRL_LIVE false false false []
        | Some p =>
            with_inflight (λ q, q ++ [mk_failover_data p 3 NVME_FAILOVER_RETRIES])
              (with_fo_set (KC := linux_consts) 3 (mk_ns 10 None false 4 0 103 [] false)
                 (two_path_state NVME_CTRL_RESETTING NVME_CTRL_LIVE false false false []))
        end.
Proof.
  apply (nvme_trigger_failover_unsettled (KC := linux_consts) ltac:(done)
           (two_path_state NVME_CTRL_RESETTING NVME_CTRL_LIVE false false false [])
           11 10 3 (mk_ns 10 None false 4 0 103 [] false) [1; 2]%nat 100 0).
  - compute_done.
  - split; [|split; [reflexivity|]].
    + exists (mk_ctrl NVME_CTRL_RESETTING 2 [1%nat] [] true None), (Some 1%nat),
        (mk_ctrl NVME_CTRL_LIVE 1 [1; 2]%nat [3%nat] false (Some 0)), [].
      repeat split; reflexivity.
    + exists (mk_ns 10 None false 4 0 103 [] false),
        (mk_ctrl NVME_CTRL_LIVE 1 [1; 2]%nat [3%nat] false (Some 0)).
      repeat split; reflexivity.
  - reflexivity.
Defined.

(** On an unsettled aggregate whose two members are inactive, member 1 on a
    RESETTING controller and member 2 on a LIVE one, the call issues the
    promotion of member 1, whose controller is not LIVE; and when both
    controllers are RECONNECTING it finds no member and schedules nothing.
    Both contradict C5 as stated. *)
Lemma unsettled_failover_promotes_non_live_member :
  returns_with
    (nvme_trigger_failover (KC := linux_consts) 11 100 0
       (two_path_state NVME_CTRL_RESETTING NVME_CTRL_LIVE false false false []))
    (λ s1, inflight s1 = [mk_failover_data 1 3 NVME_FAILOVER_RETRIES]) ∧
  classified (two_path_state NVME_CTRL_RESETTING NVME_CTRL_LIVE false false false [])
    1 NVME_NS_STATE_UNDEFINED ∧
  classified (two_path_state NVME_CTRL_RESETTING NVME_CTRL_LIVE false false false [])
    2 NVME_NS_STATE_STANDBY ∧
  (let s := two_path_state NVME_CTRL_RECONNECTING NVME_CTRL_RECONNECTING
              false false false [] in
   nvme_trigger_failover (KC := linux_consts) 11 100 0 s = Done tt s ∧
   delayed s = []).
Proof.
  split; [vm_compute; reflexivity|].
  split; [eexists; split; reflexivity|].
  split; [eexists; split; reflexivity|].
  split; reflexivity.
Qed.

(** ** Congestion queue *)

Section Congestion.
Context `{KC : kernel_consts}.

Lemma mempool_alloc_atomic_never_sleeps k slab_ok :
  mempool_alloc k GFP_ATOMIC slab_ok ≠ mempool_sleep.
Proof. unfold mempool_alloc. by destruct slab_ok, (0 <? k). Qed.

(** C9: when the allocation of the shadow record fails in
    [nvme_mpath_make_request], the allocation has not slept (a GFP_ATOMIC
    allocation never does), the call returns, the bio is completed once to
    its submitter with BLK_STS_IOERR, and nothing else changes: no
    controller, no namespace, no queue, no request in flight, no work
    item, no other bio. *)
Theorem nvme_mpath_make_request_alloc_failure
    s m mn mc k b end_io private jiffies slab_ok :
  nss s !! m = Some mn →
  test_bit NVME_NS_REMOVING (ns_flags mn) = false →
  ctrls s !! ctrl mn = Some mc →
  mpath_req_pool mc = Some k →
  mempool_alloc k GFP_ATOMIC slab_ok = mempool_null →
  bi_owner b = owner_caller end_io private →
  (∀ k' ok', mempool_alloc k' GFP_ATOMIC ok' ≠ mempool_sleep) ∧
  ∃ s', nvme_mpath_make_request m b jiffies slab_ok s = Done tt s' ∧
        ended s' = ended s ++ [set_bio_status BLK_STS_IOERR b] ∧
        ctrls s' = ctrls s ∧ nss s' = nss s ∧ inflight s' = inflight s ∧
        delayed s' = delayed s ∧ submitted s' = submitted s.
Proof.
  intros Hm Hrm Hc Hpool Halloc Hown.
  split; [apply mempool_alloc_atomic_never_sleeps|].
  unfold nvme_mpath_make_request.
  rewrite (bind_get_ns _ _ _ _ Hm), Hrm, (bind_get_ctrl _ _ _ _ Hc), Hpool, Halloc.
  unfold out_exit_mpath_request, bio_endio. cbn [bi_owner set_bio_status].
  rewrite Hown. eexists. split; [reflexivity|]. done.
Qed.

(** *** Draining *)

Lemma with_submitted_app s l1 l2 :
  with_submitted (λ x, x ++ l2) (with_submitted (λ x, x ++ l1) s) =
  with_submitted (λ x, x ++ l1 ++ l2) s.
Proof. destruct s. unfold with_submitted. cbn. by rewrite app_assoc. Qed.

Lemma with_submitted_nil s : with_submitted (λ x, x ++ []) s = s.
Proof. destruct s. unfold with_submitted. cbn. by rewrite app_nil_r. Qed.

Lemma resubmit_loop_run a bd l s :
  Forall (λ b, ∃ priv, bi_owner b = owner_mpath priv) l →
  ∃ l', Forall2 (resubmitted_as a bd) l l' ∧
        resubmit_loop a bd l s = Done tt (with_submitted (λ x, x ++ l') s).
Proof.
  revert s. induction l as [|b l IH]; intros s Hall.
  - exists []. split; [constructor|]. by rewrite with_submitted_nil.
  - apply Forall_cons in Hall as [[priv Hb] Hall].
    destruct (IH (with_submitted (λ x, x ++ [resubmitted_bio a bd priv b]) s) Hall)
      as (l' & Hl' & Hrun).
    exists (resubmitted_bio a bd priv b :: l'). split.
    + constructor; [by exists priv|done].
    + cbn [resubmit_loop]. rewrite Hb. unfold generic_make_request. mnorm.
      by rewrite Hrun, with_submitted_app.
Qed.

Lemma resubmit_loop_footprint a bd l s s' :
  resubmit_loop a bd l s = Done tt s' →
  ctrls s' = ctrls s ∧ nss s' = nss s.
Proof.
  revert s. induction l as [|b l IH]; intros s.
  - by intros [= <-].
  - cbn [resubmit_loop]. destruct (bi_owner b) as [|priv]; [done|].
    unfold generic_make_request. mnorm. intros H. by apply IH in H.
Qed.

Lemma get_ns_state_ro n s st s' : get_ns_state n s = Done st s' → s' = s.
Proof.
  unfold get_ns_state. intros H. apply bind_Done in H as (c & s1 & Hc & H).
  apply get_ctrl_Done in Hc as [_ ->].
  by repeat (destruct (_ && _) in H); injection H.
Qed.

Lemma get_ns_active_scan_ro l s r s' : get_ns_active_scan l s = Done r s' → s' = s.
Proof.
  induction l as [|p l IH]; [by intros [= _ <-]|].
  cbn [get_ns_active_scan]. intros H.
  apply bind_Done in H as (n & s1 & Hn & H). apply get_ns_Done in Hn as [_ ->].
  apply bind_Done in H as (st & s1 & Hst & H). apply get_ns_state_ro in Hst as ->.
  destruct (_ && _) in H; [by injection H|by apply IH].
Qed.

Lemma get_ns_active_ro m s r s' : get_ns_active m s = Done r s' → s' = s.
Proof.
  unfold get_ns_active. intros H.
  apply bind_Done in H as (n & s1 & Hn & H). apply get_ns_Done in Hn as [_ ->].
  apply bind_Done in H as (c & s1 & Hc & H). apply get_ctrl_Done in Hc as [_ ->].
  by apply get_ns_active_scan_ro in H.
Qed.

(** What a call of [nvme_mpath_resubmit_bios] on [m] can change: the
    queue of [m] and the list of submitted bios, and nothing at all when
    FAILOVER_IN_PROGRESS is set on [m]. *)
Lemma resubmit_bios_footprint m s s' :
  nvme_mpath_resubmit_bios m s = Done tt s' →
  ctrls s' = ctrls s ∧
  (∀ p, p ≠ m → nss s' !! p = nss s !! p) ∧
  (∀ mn, nss s !! m = Some mn → fo_in_progress mn = true → s' = s).
Proof.
  unfold nvme_mpath_resubmit_bios. intros H.
  apply bind_Done in H as (mn & s1 & Hm & H). apply get_ns_Done in Hm as [Hm ->].
  apply bind_Done in H as (mc & s1 & Hc & H). apply get_ctrl_Done in Hc as [Hc ->].
  destruct (test_bit NVME_NS_FO_IN_PROGRESS (ns_flags mn)) eqn:Hfo.
  { injection H as <-. done. }
  assert (∀ mn', nss s !! m = Some mn' → fo_in_progress mn' = true → s' = s) as Hno.
  { intros mn' Hm' Hfo'. assert (mn' = mn) as -> by congruence.
    unfold fo_in_progress in Hfo'. congruence. }
  case_bool_decide; [by injection H as <-|].
  apply bind_Done in H as (r & s1 & Hr & H). apply get_ns_active_ro in Hr as ->.
  destruct r as [a|]; [|by injection H as <-].
  apply bind_Done in H as (an & s1 & Ha & H). apply get_ns_Done in Ha as [Ha ->].
  destruct (_ || _) in H; [by injection H as <-|].
  destruct (test_bit NVME_NS_REMOVING (ns_flags mn)) in H; [by injection H as <-|].
  case_bool_decide; [by injection H as <-|].
  revert H. mnorm. intros H. apply resubmit_loop_footprint in H as [-> Hn].
  repeat split; [|done]. intros p Hp. rewrite Hn. cbn [nss with_nss].
  by rewrite lookup_insert_ne.
Qed.

Lemma kthread_ns_loop_frame l s s' m mn :
  kthread_ns_loop l s = Done tt s' →
  nss s !! m = Some mn → fo_in_progress mn = true →
  nss s' !! m = Some mn ∧ ctrls s' = ctrls s.
Proof.
  revert s. induction l as [|m' l IH]; intros s H Hm Hfo.
  - by injection H as <-.
  - cbn [kthread_ns_loop] in H.
    apply bind_Done in H as (mn' & s1 & Hm' & H). apply get_ns_Done in Hm' as [Hm' ->].
    apply bind_Done in H as ([] & s1 & Hres & H).
    assert (nss s1 !! m = Some mn ∧ ctrls s1 = ctrls s) as [Hm1 Hc1].
    { destruct (fq_full mn'); [|by injection Hres as <-].
      apply resubmit_bios_footprint in Hres as (Hc & Hother & Hsame).
      destruct (decide (m = m')) as [<-|Hne].
      - by rewrite (Hsame mn Hm Hfo).
      - by rewrite Hother. }
    destruct (IH s1 H Hm1 Hfo) as [? ?]. split; [done|congruence].
Qed.

Lemma kthread_ctrl_loop_frame l s s' m mn :
  kthread_ctrl_loop l s = Done tt s' →
  nss s !! m = Some mn → fo_in_progress mn = true →
  nss s' !! m = Some mn.
Proof.
  revert s. induction l as [|g l IH]; intros s H Hm Hfo.
  - by injection H as <-.
  - cbn [kthread_ctrl_loop] in H.
    apply bind_Done in H as (gc & s1 & Hg & H). apply get_ctrl_Done in Hg as [Hg ->].
    apply bind_Done in H as ([] & s1 & Hloop & H).
    destruct (kthread_ns_loop_frame _ _ _ m mn Hloop Hm Hfo) as [Hm1 _].
    by apply (IH s1).
Qed.

End Congestion.

Lemma nvme_mpath_make_request_alloc_failure_witness :
  returns_with
    (nvme_mpath_make_request (KC := linux_consts) 3 fresh_bio 100 false
       (demo_state NVME_CTRL_LIVE []))
    (λ s', ended s' = [set_bio_status BLK_STS_IOERR fresh_bio] ∧
           nss s' = nss (demo_state NVME_CTRL_LIVE []) ∧
           ctrls s' = ctrls (demo_state NVME_CTRL_LIVE [])).
Proof.
  destruct (nvme_mpath_make_request_alloc_failure (KC := linux_consts)
              (demo_state NVME_CTRL_LIVE []) 3 (mk_ns 10 None false 4 0 103 [] false)
              (mk_ctrl NVME_CTRL_LIVE 1 [1; 2]%nat [3%nat] true (Some 0)) 0
              fresh_bio 7 70 100 false)
    as (_ & s' & Hrun & He & Hc & Hn & _); try reflexivity.
  rewrite Hrun. simpl. by rewrite He, Hc, Hn.
Defined.

(** The volume has a parked bio and FAILOVER_IN_PROGRESS clear, and its only
    active member sits on a RESETTING controller: a wake of the drain task
    detaches nothing and submits nothing, which contradicts C6 as stated.
    With a LIVE controller the same wake submits the bio to member 1. *)
Lemma drain_keeps_queue_without_active_member :
  let s := demo_state NVME_CTRL_RESETTING [parked_bio] in
  ns_field (fo_in_progress (KC := linux_consts)) s 3 = Some false ∧
  ns_field fq_cong s 3 = Some [parked_bio] ∧
  nvme_mpath_kthread_wake (KC := linux_consts) s = Done tt s ∧
  returns_with
    (nvme_mpath_kthread_wake (KC := linux_consts) (demo_state NVME_CTRL_LIVE [parked_bio]))
    (λ s', ns_field fq_cong s' 3 = Some [] ∧ bi_bdev <$> submitted s' = [101%nat]).
Proof.
  split; [reflexivity|]. split; [reflexivity|]. split; [by vm_compute|].
  vm_compute. split; reflexivity.
Qed.

(** ** The failover invariant on the projections *)

(** Split the invariant into its five parts. *)
Ltac split_inv := split; [|split; [|split; [|split]]].

Section InvariantLemmas.
Variables (N : gmap nat (nat * option nat)) (C : gmap nat (list nat * list nat)).

Lemma groups_wf_member g v p :
  groups_wf N C → C !! g = Some v → p ∈ v.1 → snd <$> N !! p = Some (Some g).
Proof.
  intros (H & _ & _) Hg Hp. apply (proj1 (Forall_forall _ _) (H g v Hg) p Hp).
Qed.

Lemma groups_wf_parent p g :
  groups_wf N C → snd <$> N !! p = Some (Some g) → is_Some (C !! g).
Proof.
  intros (_ & H & _) Hp. destruct (N !! p) as [v|] eqn:Hv; [|done].
  simpl in Hp. injection Hp as Hp. specialize (H p v Hv).
  unfold parent_ok in H. by rewrite Hp in H.
Qed.

Lemma groups_wf_volume g v m :
  groups_wf N C → C !! g = Some v → m ∈ v.2 → fst <$> N !! m = Some g.
Proof.
  intros (_ & _ & H) Hg Hm. apply (proj1 (Forall_forall _ _) (H g v Hg) m Hm).
Qed.

Lemma one_active_unique A g v p q :
  one_active C A → C !! g = Some v → p ∈ v.1 → q ∈ v.1 →
  A !! p = Some true → A !! q = Some true → p = q.
Proof.
  intros H Hg Hp Hq. specialize (H g v Hg).
  apply (proj1 (Forall_forall _ _) (proj1 (Forall_forall _ _) H p Hp) q Hq).
Qed.

Lemma one_active_intro (A : gmap nat bool) :
  (∀ g v p q, C !! g = Some v → p ∈ v.1 → q ∈ v.1 →
              A !! p = Some true → A !! q = Some true → p = q) →
  one_active C A.
Proof.
  intros H g v Hg. apply Forall_forall. intros p Hp. apply Forall_forall.
  intros q Hq. by apply (H g v).
Qed.

Lemma unsettled_inactive_intro (A D : gmap nat bool) :
  (∀ g v p, C !! g = Some v → D !! g = Some false → p ∈ v.1 → A !! p ≠ Some true) →
  unsettled_inactive C A D.
Proof.
  intros H g v Hg Hd. apply Forall_forall. intros p Hp. by apply (H g v).
Qed.

Lemma unsettled_inactive_elim (A D : gmap nat bool) g v p :
  unsettled_inactive C A D → C !! g = Some v → D !! g = Some false → p ∈ v.1 →
  A !! p ≠ Some true.
Proof.
  intros H Hg Hd Hp. apply (proj1 (Forall_forall _ _) (H g v Hg Hd) p Hp).
Qed.

Lemma request_ok_iff (F D : gmap nat bool) r :
  request_ok N C F D r ↔
  ∃ g v, snd <$> N !! standby_ns r = Some (Some g) ∧ D !! g = Some false ∧
         C !! g = Some v ∧ head v.2 = Some (fo_mpath_ns r) ∧
         F !! fo_mpath_ns r = Some true.
Proof.
  unfold request_ok. destruct (snd <$> N !! standby_ns r) as [[g|]|]; split.
  - intros (Hd & Hc & Hf). destruct (C !! g) as [v|] eqn:Hv; [|done].
    exists g, v. simpl in Hc. by simplify_eq.
  - intros (g' & v & [= <-] & Hd & Hc & Hh & Hf). rewrite Hc. simpl. by rewrite Hh.
  - done.
  - by intros (? & ? & ? & _).
  - done.
  - by intros (? & ? & ? & _).
Qed.

Lemma requests_ok_flag_free (F D : gmap nat bool) I m :
  requests_ok N C F D I → F !! m ≠ Some true → m ∉ fo_mpath_ns <$> I.
Proof.
  intros [Hall _] Hm Hin. apply list_elem_of_fmap in Hin as (r & -> & Hr).
  apply (proj1 (Forall_forall _ _) Hall) in Hr.
  apply request_ok_iff in Hr as (_ & _ & _ & _ & _ & _ & Hf). done.
Qed.

(** Storing the flag of [m]: setting it is always safe, clearing it needs
    that no request in flight holds it. *)
Lemma inv_store_flag A F D I m b :
  inv_on_views N C A F D I →
  (b = false → m ∉ fo_mpath_ns <$> I) →
  inv_on_views N C A (<[m:=b]> F) D I.
Proof.
  intros (Hwf & H1 & H2 & Hall & Hnd) Hb. split_inv; try done.
  apply Forall_forall. intros r Hr.
  pose proof (proj1 (Forall_forall _ _) Hall r Hr) as Hok.
  apply request_ok_iff in Hok as (g & v & Hp & Hd & Hc & Hh & Hf).
  apply request_ok_iff. exists g, v. do 4 (split; [done|]).
  destruct (decide (fo_mpath_ns r = m)) as [<-|Hne].
  - rewrite lookup_insert_eq. destruct b; [done|].
    exfalso. apply Hb; [done|]. apply list_elem_of_fmap. by exists r.
  - by rewrite lookup_insert_ne.
Qed.

(** Demoting the active member [a] of the group [g] and marking the group
    unsettled. *)
Lemma inv_demote A F D I g v a :
  inv_on_views N C A F D I →
  C !! g = Some v → a ∈ v.1 → A !! a = Some true →
  inv_on_views N C (<[a:=false]> A) F (<[g:=false]> D) I.
Proof.
  intros (Hwf & H1 & H2 & Hall & Hnd) Hg Ha Hact.
  assert (∀ p, <[a:=false]> A !! p = Some true → p ≠ a ∧ A !! p = Some true) as HA.
  { intros p. destruct (decide (p = a)) as [->|Hne].
    - by rewrite lookup_insert_eq.
    - by rewrite lookup_insert_ne. }
  split_inv; try done.
  - apply one_active_intro. intros g' v' p q Hg' Hp Hq Hpa Hqa.
    apply HA in Hpa as [_ Hpa]. apply HA in Hqa as [_ Hqa].
    by apply (one_active_unique A g' v').
  - apply unsettled_inactive_intro. intros g' v' p Hg' Hd Hp Hpa.
    apply HA in Hpa as [Hne Hpa].
    destruct (decide (g' = g)) as [->|Hng].
    + assert (v' = v) as -> by congruence.
      by apply Hne, (one_active_unique A g v).
    + rewrite lookup_insert_ne in Hd by done.
      by apply (unsettled_inactive_elim A D g' v' p).
  - apply Forall_forall. intros r Hr.
    pose proof (proj1 (Forall_forall _ _) Hall r Hr) as Hok.
    apply request_ok_iff in Hok as (g' & v' & Hp & Hd & Hc & Hh & Hf).
    apply request_ok_iff. exists g', v'. split; [done|]. split; [|done].
    destruct (decide (g' = g)) as [->|Hne].
    + by rewrite lookup_insert_eq.
    + by rewrite lookup_insert_ne.
Qed.

(** Issuing a promotion request for [p], a namespace whose parent [g] is
    unsettled, with the flag of the first volume [m] of [g] held. *)
Lemma inv_issue A F D I p g v m k :
  inv_on_views N C A F D I →
  snd <$> N !! p = Some (Some g) → D !! g = Some false →
  C !! g = Some v → head v.2 = Some m → F !! m = Some true →
  m ∉ fo_mpath_ns <$> I →
  inv_on_views N C A F D (I ++ [mk_failover_data p m k]).
Proof.
  intros (Hwf & H1 & H2 & Hall & Hnd) Hp Hd Hg Hh Hf Hm.
  split_inv; try done.
  - apply Forall_app. split; [done|]. apply Forall_singleton.
    apply request_ok_iff. by exists g, v.
  - rewrite fmap_app. apply NoDup_app. repeat split; [done| |apply NoDup_singleton].
    intros x Hx Hx'. apply list_elem_of_singleton in Hx'. by subst.
Qed.

(** Completing the request [r]: with success the standby becomes active
    and its group settled; in both cases the flag is stored. *)
Lemma inv_complete A F D I1 I2 r b (ok : bool) g :
  inv_on_views N C A F D (I1 ++ r :: I2) →
  snd <$> N !! standby_ns r = Some (Some g) →
  inv_on_views N C
    (if ok then <[standby_ns r:=true]> A else A)
    (<[fo_mpath_ns r:=b]> F)
    (if ok then <[g:=true]> D else D)
    (I1 ++ I2).
Proof.
  intros (Hwf & H1 & H2 & Hall & Hnd) Hp.
  pose proof (proj1 (Forall_forall _ _) Hall r) as Hr.
  rewrite request_ok_iff in Hr.
  destruct Hr as (g' & v & Hp' & Hd & Hg & Hh & Hf).
  { apply elem_of_app. right. left. }
  assert (g' = g) as -> by congruence.
  rewrite fmap_app in Hnd. cbn [fmap list_fmap] in Hnd.
  apply NoDup_app in Hnd as (Hnd1 & Hnd12 & Hnd2).
  apply NoDup_cons in Hnd2 as [Hr2 Hnd2].
  assert (∀ r', r' ∈ I1 ++ I2 → fo_mpath_ns r' ≠ fo_mpath_ns r) as Hother.
  { intros r' Hr' Heq. apply elem_of_app in Hr' as [Hr'|Hr'].
    - apply (Hnd12 (fo_mpath_ns r')).
      + apply list_elem_of_fmap. by exists r'.
      + rewrite Heq. left.
    - apply Hr2. rewrite <- Heq. apply list_elem_of_fmap. by exists r'. }
  assert (∀ g' v' p, C !! g' = Some v' → p ∈ v'.1 → p = standby_ns r → g' = g) as Hsb.
  { intros g' v' p Hg' Hpin ->.
    pose proof (groups_wf_member g' v' _ Hwf Hg' Hpin). congruence. }
  assert (groups_wf N C ∧
          one_active C (if ok then <[standby_ns r:=true]> A else A) ∧
          unsettled_inactive C (if ok then <[standby_ns r:=true]> A else A)
            (if ok then <[g:=true]> D else D)) as (? & ? & ?).
  { destruct ok; [|done]. split; [done|]. split.
    - apply one_active_intro. intros g' v' p q Hg' Hpin Hqin Hpa Hqa.
      destruct (decide (p = standby_ns r)) as [Hps|Hps];
        destruct (decide (q = standby_ns r)) as [Hqs|Hqs].
      + congruence.
      + exfalso. rewrite lookup_insert_ne in Hqa by done.
        assert (g' = g) as -> by (by apply (Hsb g' v' p)).
        assert (v' = v) as -> by congruence.
        by apply (unsettled_inactive_elim A D g v q).
      + exfalso. rewrite lookup_insert_ne in Hpa by done.
        assert (g' = g) as -> by (by apply (Hsb g' v' q)).
        assert (v' = v) as -> by congruence.
        by apply (unsettled_inactive_elim A D g v p).
      + rewrite lookup_insert_ne in Hpa, Hqa by done.
        by apply (one_active_unique A g' v').
    - apply unsettled_inactive_intro. intros g' v' p Hg' Hd' Hpin Hpa.
      destruct (decide (g' = g)) as [->|Hng].
      { by rewrite lookup_insert_eq in Hd'. }
      rewrite lookup_insert_ne in Hd' by done.
      destruct (decide (p = standby_ns r)) as [Hps|Hps].
      + by apply Hng, (Hsb g' v' p).
      + rewrite lookup_insert_ne in Hpa by done.
        by apply (unsettled_inactive_elim A D g' v' p). }
  split_inv; try done.
  - apply Forall_forall. intros r' Hr'.
    assert (r' ∈ I1 ++ r :: I2) as Hin.
    { apply elem_of_app in Hr' as [?|?]; apply elem_of_app;
        [by left|right; by right]. }
    pose proof (proj1 (Forall_forall _ _) Hall r' Hin) as Hok.
    apply request_ok_iff in Hok as (g' & v' & Hp1 & Hd1 & Hc1 & Hh1 & Hf1).
    apply request_ok_iff. exists g', v'. split; [done|]. split; [|split; [done|split; [done|]]].
    + destruct ok; [|done]. rewrite lookup_insert_ne; [done|].
      intros <-. apply (Hother r' Hr'). congruence.
    + rewrite lookup_insert_ne; [done|]. intros Heq. by apply (Hother r' Hr').
  - rewrite fmap_app. apply NoDup_app. repeat split; [done| |done].
    intros x Hx Hx'. apply (Hnd12 x Hx). by right.
Qed.

End InvariantLemmas.

(** ** The failover invariant on states *)

Section InvariantOnStates.
Context `{KC : kernel_consts}.
Hypothesis FO_nonneg : 0 ≤ NVME_NS_FO_IN_PROGRESS.

Lemma fmap_insert_same {V B} (f : V → B) (m : gmap nat V) p x x' :
  m !! p = Some x → f x' = f x → f <$> <[p:=x']> m = f <$> m.
Proof.
  intros Hp Hf. rewrite fmap_insert, Hf. apply insert_id.
  by rewrite lookup_fmap, Hp.
Qed.

Lemma omap_insert_same {V B} (f : V → option B) (m : gmap nat V) p x x' :
  m !! p = Some x → f x' = f x → omap f (<[p:=x']> m) = omap f m.
Proof.
  intros Hp Hf. apply map_eq. intros i. rewrite !lookup_omap.
  destruct (decide (i = p)) as [->|Hne].
  - rewrite lookup_insert_eq, Hp. simpl. done.
  - by rewrite lookup_insert_ne.
Qed.

(** *** Inversion of the primitives *)

Lemma modify_ns_Done p f s u s' :
  modify_ns p f s = Done u s' ↔
  ∃ n, nss s !! p = Some n ∧ s' = with_nss (insert p (f n)) s.
Proof.
  unfold modify_ns, bind, get_ns, modify. destruct (nss s !! p) as [n|]; split.
  - intros [= _ <-]. by exists n.
  - intros (n' & [= <-] & ->). by destruct u.
  - done.
  - by intros (? & ? & _).
Qed.

Lemma modify_ctrl_Done c f s u s' :
  modify_ctrl c f s = Done u s' ↔
  ∃ x, ctrls s !! c = Some x ∧ s' = with_ctrls (insert c (f x)) s.
Proof.
  unfold modify_ctrl, bind, get_ctrl, modify. destruct (ctrls s !! c) as [x|]; split.
  - intros [= _ <-]. by exists x.
  - intros (x' & [= <-] & ->). by destruct u.
  - done.
  - by intros (? & ? & _).
Qed.

Lemma test_and_clear_bit_ns_Done nr m s b s' :
  test_and_clear_bit_ns nr m s = Done b s' →
  ∃ mn, nss s !! m = Some mn ∧
        s' = with_nss (insert m (set_ns_flags (clear_bit nr (ns_flags mn)) mn)) s.
Proof.
  unfold test_and_clear_bit_ns, bind, get_ns, modify, ret.
  destruct (nss s !! m) as [mn|]; [|done]. intros [= _ <-]. by exists mn.
Qed.

Lemma test_and_set_bit_ns_Done nr m s b s' :
  test_and_set_bit_ns nr m s = Done b s' →
  ∃ mn, nss s !! m = Some mn ∧ b = test_bit nr (ns_flags mn) ∧
        s' = with_nss (insert m (set_ns_flags (set_bit nr (ns_flags mn)) mn)) s.
Proof.
  unfold test_and_set_bit_ns, bind, get_ns, modify, ret.
  destruct (nss s !! m) as [mn|]; [|done]. intros [= <- <-]. by exists mn.
Qed.

Lemma nvme_set_ns_active_Done p m cnt alloc_err s rc s' :
  nvme_set_ns_active p m cnt alloc_err s = Done rc s' →
  (rc ≠ 0 ∧ s' = s) ∨
  (rc = 0 ∧ s' = with_inflight (λ l, l ++ [mk_failover_data p m cnt]) s).
Proof.
  unfold nvme_set_ns_active. intros H.
  apply bind_Done in H as (n & s1 & Hn & H). apply get_ns_Done in Hn as [_ ->].
  apply bind_Done in H as (c & s1 & Hc & H). apply get_ctrl_Done in Hc as [_ ->].
  destruct (Z.eqb_spec alloc_err 0) as [->|Hne]; cbn [negb] in H.
  - right. by injection H as <- <-.
  - left. by injection H as <- <-.
Qed.

(** *** The invariant under the stores of the engine *)

Lemma failover_inv_store_flag s m mn v :
  failover_inv s → nss s !! m = Some mn →
  (test_bit NVME_NS_FO_IN_PROGRESS v = false → m ∉ fo_mpath_ns <$> inflight s) →
  failover_inv (with_nss (insert m (set_ns_flags v mn)) s).
Proof.
  intros Hinv Hm Hfree. unfold failover_inv, v_ns, v_act, v_fo, v_ctrl, v_cd in *.
  cbn [nss ctrls inflight with_nss].
  rewrite (fmap_insert_same ns_shape _ m mn), (fmap_insert_same active _ m mn) by done.
  rewrite fmap_insert. by apply inv_store_flag.
Qed.

Lemma failover_inv_set_flag s m mn :
  failover_inv s → nss s !! m = Some mn → failover_inv (with_fo_set m mn s).
Proof.
  intros Hinv Hm. apply failover_inv_store_flag; [done|done|].
  rewrite test_bit_set_bit by done. by rewrite bool_decide_eq_true_2.
Qed.

Lemma failover_inv_clear_flag s m mn :
  failover_inv s → nss s !! m = Some mn → m ∉ fo_mpath_ns <$> inflight s →
  failover_inv (with_nss (insert m (set_ns_flags
                  (clear_bit NVME_NS_FO_IN_PROGRESS (ns_flags mn)) mn)) s).
Proof. intros Hinv Hm Hfree. by apply failover_inv_store_flag. Qed.

Lemma failover_inv_with_delayed f s : failover_inv (with_delayed f s) ↔ failover_inv s.
Proof. done. Qed.

Lemma failover_inv_set_state s c x st :
  failover_inv s → ctrls s !! c = Some x →
  failover_inv (with_ctrls (insert c (set_state st x)) s).
Proof.
  intros Hinv Hc. unfold failover_inv, v_ns, v_act, v_fo, v_ctrl, v_cd in *.
  cbn [nss ctrls inflight with_ctrls].
  by rewrite (omap_insert_same ctrl_shape _ c x),
    (fmap_insert_same cleanup_done _ c x).
Qed.

Lemma failover_inv_demote s g x v a an jiffies :
  failover_inv s →
  ctrls s !! g = Some x → v_ctrl s !! g = Some v → a ∈ v.1 →
  nss s !! a = Some an → active an = true →
  failover_inv
    (with_nss (insert a (set_start_time jiffies (set_active false an)))
       (with_nss (insert a (set_active false an))
          (with_ctrls (insert g (set_cleanup_done false x)) s))).
Proof.
  intros Hinv Hg Hv Ha Han Hact.
  unfold failover_inv, v_ns, v_act, v_fo, v_ctrl, v_cd in *.
  cbn [nss ctrls inflight with_nss with_ctrls].
  rewrite insert_insert_eq.
  rewrite (fmap_insert_same ns_shape _ a an), (fmap_insert_same fo_in_progress _ a an)
    by done.
  rewrite (omap_insert_same ctrl_shape _ g x) by done.
  rewrite !fmap_insert. cbn [active cleanup_done set_start_time set_active set_cleanup_done].
  apply (inv_demote _ _ _ _ _ _ g v a); [done|done|done|].
  by rewrite lookup_fmap, Han, <- Hact.
Qed.

Lemma failover_inv_issue s p g v m k :
  failover_inv s →
  snd <$> v_ns s !! p = Some (Some g) →
  v_cd s !! g = Some false →
  v_ctrl s !! g = Some v → head v.2 = Some m →
  v_fo s !! m = Some true →
  m ∉ fo_mpath_ns <$> inflight s →
  failover_inv (with_inflight (λ l, l ++ [mk_failover_data p m k]) s).
Proof.
  intros Hinv Hp Hcd Hv Hh Hfo Hfree.
  by apply (inv_issue _ _ _ _ _ _ p g v m k).
Qed.

(** *** The projections after the stores of the engine *)

Lemma store_flag_views s m mn v :
  nss s !! m = Some mn →
  let s' := with_nss (insert m (set_ns_flags v mn)) s in
  v_ns s' = v_ns s ∧ v_ctrl s' = v_ctrl s ∧ v_act s' = v_act s ∧
  v_fo s' = <[m:=test_bit NVME_NS_FO_IN_PROGRESS v]> (v_fo s) ∧
  v_cd s' = v_cd s ∧ inflight s' = inflight s.
Proof.
  intros Hm s'. subst s'. unfold v_ns, v_act, v_fo, v_ctrl, v_cd.
  cbn [nss ctrls inflight with_nss].
  rewrite (fmap_insert_same ns_shape _ m mn), (fmap_insert_same active _ m mn) by done.
  by rewrite fmap_insert.
Qed.

Lemma demote_views s g x a an jiffies :
  ctrls s !! g = Some x → nss s !! a = Some an →
  let s' := with_nss (insert a (set_start_time jiffies (set_active false an)))
              (with_nss (insert a (set_active false an))
                 (with_ctrls (insert g (set_cleanup_done false x)) s)) in
  v_ns s' = v_ns s ∧ v_ctrl s' = v_ctrl s ∧ v_act s' = <[a:=false]> (v_act s) ∧
  v_fo s' = v_fo s ∧ v_cd s' = <[g:=false]> (v_cd s) ∧ inflight s' = inflight s.
Proof.
  intros Hg Ha s'. subst s'. unfold v_ns, v_act, v_fo, v_ctrl, v_cd.
  cbn [nss ctrls inflight with_nss with_ctrls]. rewrite insert_insert_eq.
  rewrite (fmap_insert_same ns_shape _ a an), (fmap_insert_same fo_in_progress _ a an)
    by done.
  rewrite (omap_insert_same ctrl_shape _ g x) by done.
  by rewrite !fmap_insert.
Qed.

Lemma v_ctrl_lookup s g v :
  v_ctrl s !! g = Some v →
  ∃ x, ctrls s !! g = Some x ∧
       test_bit NVME_CTRL_MULTIPATH (ctrl_flags x) = true ∧
       v = (namespaces x, mpath_namespace x).
Proof.
  unfold v_ctrl. rewrite lookup_omap. destruct (ctrls s !! g) as [x|]; [|done].
  simpl. unfold ctrl_shape. destruct (test_bit _ _) eqn:Hf; [|done].
  intros [= <-]. by exists x.
Qed.

Lemma v_ctrl_intro s g x :
  ctrls s !! g = Some x → test_bit NVME_CTRL_MULTIPATH (ctrl_flags x) = true →
  v_ctrl s !! g = Some (namespaces x, mpath_namespace x).
Proof.
  intros Hg Hf. unfold v_ctrl. rewrite lookup_omap, Hg. simpl.
  unfold ctrl_shape. by rewrite Hf.
Qed.

(** *** The invariant along [nvme_trigger_failover] *)

Lemma failover_child_scan_Done l mc0 ns0 s r s' :
  failover_child_scan l mc0 ns0 s = Done r s' →
  s' = s ∧ (r.1 = mc0 ∨ ∃ p n, nss s !! p = Some n ∧ mpath_ctrl n = r.1).
Proof.
  revert mc0 ns0. induction l as [|p l IH]; intros mc0 ns0 H.
  - injection H as <- <-. split; [done|by left].
  - cbn [failover_child_scan] in H.
    apply bind_Done in H as (n & s1 & Hn & H). apply get_ns_Done in Hn as [Hn ->].
    destruct (active n).
    + injection H as <- <-. split; [done|]. right. by exists p, n.
    + apply IH in H as [-> [Hr|Hr]]; (split; [done|]); [|by right].
      right. exists p, n. by rewrite Hr.
Qed.

Lemma failover_not_needed_Done g ns s b s' :
  failover_not_needed g ns s = Done b s' → s' = s.
Proof.
  unfold failover_not_needed. destruct ns as [p|]; [|by intros [= _ <-]].
  intros H. apply bind_Done in H as (n & s1 & Hn & H).
  apply get_ns_Done in Hn as [_ ->].
  destruct (active n); [by injection H as _ <-|].
  apply bind_Done in H as (gc & s1 & Hg & H). apply get_ctrl_Done in Hg as [_ ->].
  by injection H as _ <-.
Qed.

Lemma update_active_scan_Done l s r s' :
  update_active_scan l s = Done r s' → s' = s ∧ ∀ p, r = Some p → p ∈ l.
Proof.
  induction l as [|q l IH]; intros H.
  - injection H as <- <-. done.
  - cbn [update_active_scan] in H.
    apply bind_Done in H as (n & s1 & Hn & H). apply get_ns_Done in Hn as [_ ->].
    assert (update_active_scan l s = Done r s' →
            s' = s ∧ ∀ p, r = Some p → p ∈ q :: l) as Hrec.
    { intros H'. apply IH in H' as [-> Hin]. split; [done|].
      intros p Hp. right. by apply Hin. }
    destruct (active n); [by apply Hrec|].
    apply bind_Done in H as (c & s1 & Hc & H). apply get_ctrl_Done in Hc as [_ ->].
    case_bool_decide; [|by apply Hrec].
    injection H as <- <-. split; [done|]. intros p [= <-]. left.
Qed.

Lemma failover_scan_Done g m jiffies alloc_err l (L : list nat) a0 sb0 s s' :
  failover_scan g m jiffies alloc_err l a0 sb0 s = Done tt s' →
  (∀ x, x ∈ l → x ∈ L) →
  (∀ a, a0 = Some a → a ∈ L ∧ v_act s !! a = Some true) →
  (∀ sb, sb0 = Some sb → sb ∈ L) →
  s' = s ∨
  (∃ mn, nss s !! m = Some mn ∧
     s' = with_nss (insert m (set_ns_flags
             (clear_bit NVME_NS_FO_IN_PROGRESS (ns_flags mn)) mn)) s) ∨
  (∃ a sb, a ∈ L ∧ sb ∈ L ∧ v_act s !! a = Some true ∧
     failover_pair g m jiffies alloc_err a sb s = Done tt s').
Proof.
  revert a0 sb0. induction l as [|p l IH]; intros a0 sb0 H HL Ha0 Hsb0.
  - cbn [failover_scan] in H. destruct a0 as [a|], sb0 as [sb|];
      try (injection H as <-; by left).
    apply bind_Done in H as (b & s1 & Hclr & H). injection H as <-.
    apply test_and_clear_bit_ns_Done in Hclr as (mn & Hm & ->).
    right. left. by exists mn.
  - cbn [failover_scan] in H.
    apply bind_Done in H as (n & s1 & Hn & H). apply get_ns_Done in Hn as [Hn ->].
    assert (p ∈ L) as Hp by (apply HL; left).
    assert (∀ x, x ∈ l → x ∈ L) as HL' by (intros x Hx; apply HL; by right).
    destruct (active n) eqn:Hact.
    + assert (v_act s !! p = Some true) as Hpa.
      { unfold v_act. by rewrite lookup_fmap, Hn, <- Hact. }
      destruct sb0 as [sb|].
      * right. right. exists p, sb. repeat split; try done. by apply Hsb0.
      * apply (IH (Some p) None); try done. by intros a [= <-].
    + destruct a0 as [a|].
      * right. right. exists a, p. destruct (Ha0 a eq_refl) as [? ?]. done.
      * apply (IH None (Some p)); try done. by intros sb [= <-].
Qed.

Lemma failover_pair_inv s g v m jiffies alloc_err a sb s' :
  failover_inv s →
  v_ctrl s !! g = Some v → head v.2 = Some m → a ∈ v.1 → sb ∈ v.1 →
  v_act s !! a = Some true → v_fo s !! m = Some true →
  m ∉ fo_mpath_ns <$> inflight s →
  failover_pair g m jiffies alloc_err a sb s = Done tt s' →
  failover_inv s'.
Proof.
  intros Hinv Hv Hh Ha Hsb Hact Hfo Hfree H. unfold failover_pair in H.
  case_bool_decide as Heq.
  { apply bind_Done in H as (b & s1 & Hclr & H). injection H as <-.
    apply test_and_clear_bit_ns_Done in Hclr as (mn & Hm & ->).
    by apply failover_inv_clear_flag. }
  apply bind_Done in H as (sbn & s1 & Hsbn & H). apply get_ns_Done in Hsbn as [Hsbn ->].
  revert H. mnorm. intros H.
  destruct (_ <? _) in H.
  { apply bind_Done in H as (b & s1 & Hclr & H).
    apply test_and_clear_bit_ns_Done in Hclr as (mn & Hm & ->).
    apply bind_Done in H as (gc & s1 & Hg & H). apply get_ctrl_Done in Hg as [_ ->].
    unfold schedule_delayed_work, modify in H. injection H as <-.
    apply failover_inv_with_delayed. by apply failover_inv_clear_flag. }
  apply bind_Done in H as (an & s1 & Han & H). apply get_ns_Done in Han as [Han ->].
  apply bind_Done in H as (u & s1 & Hcd & H).
  destruct (mpath_ctrl an) as [ag|] eqn:Hag; [|done].
  apply modify_ctrl_Done in Hcd as (x & Hx & ->).
  apply bind_Done in H as (u1 & s2 & Hdem & H).
  apply modify_ns_Done in Hdem as (an1 & Han1 & ->).
  cbn [nss with_ctrls] in Han1. assert (an1 = an) as -> by congruence.
  apply bind_Done in H as (u2 & s3 & Hst & H).
  apply modify_ns_Done in Hst as (an2 & Han2 & ->).
  cbn [nss with_nss with_ctrls] in Han2. rewrite lookup_insert_eq in Han2.
  injection Han2 as <-.
  assert (ag = g) as ->.
  { pose proof (groups_wf_member _ _ g v a (proj1 Hinv) Hv Ha) as Hpar.
    unfold v_ns in Hpar. rewrite lookup_fmap, Han in Hpar. simpl in Hpar. congruence. }
  set (s3 := with_nss _ (with_nss _ (with_ctrls _ s))) in H.
  assert (failover_inv s3) as Hinv3.
  { apply (failover_inv_demote s g x v a an); try done.
    unfold v_act in Hact. rewrite lookup_fmap, Han in Hact. simpl in Hact. congruence. }
  destruct (demote_views s g x a an jiffies Hx Han)
    as (HvN & HvC & HvA & HvF & HvD & HvI). fold s3 in HvN, HvC, HvA, HvF, HvD, HvI.
  apply bind_Done in H as (rc & s4 & Hset & H).
  apply nvme_set_ns_active_Done in Hset as [[Hrc ->]|[-> ->]].
  - destruct (Z.eqb_spec rc 0) as [|_]; [done|]. cbn [negb] in H.
    apply bind_Done in H as (b & s1 & Hclr & H).
    apply test_and_clear_bit_ns_Done in Hclr as (mn & Hm & ->).
    apply bind_Done in H as (gc & s1 & Hg & H). apply get_ctrl_Done in Hg as [_ ->].
    unfold schedule_delayed_work, modify in H. injection H as <-.
    apply failover_inv_with_delayed. apply failover_inv_clear_flag; [done|done|].
    by rewrite HvI.
  - cbn in H. injection H as <-.
    apply (failover_inv_issue s3 sb g v m); [exact Hinv3| | | |exact Hh| |].
    + rewrite HvN. by apply (groups_wf_member _ _ g v sb (proj1 Hinv)).
    + rewrite HvD. apply lookup_insert_eq.
    + by rewrite HvC.
    + by rewrite HvF.
    + by rewrite HvI.
Qed.

Lemma head_elem_of {X} (l : list X) x : head l = Some x → x ∈ l.
Proof. destruct l; [done|]. intros [= ->]. left. Qed.

Lemma volume_ctrl s g v m mn :
  failover_inv s → v_ctrl s !! g = Some v → head v.2 = Some m →
  nss s !! m = Some mn → ctrl mn = g.
Proof.
  intros Hinv Hv Hh Hm.
  pose proof (groups_wf_volume _ _ g v m (proj1 Hinv) Hv (head_elem_of _ _ Hh)) as H.
  unfold v_ns in H. rewrite lookup_fmap, Hm in H. simpl in H. congruence.
Qed.

Lemma failover_locked_inv s g v m jiffies alloc_err s' :
  failover_inv s →
  v_ctrl s !! g = Some v → head v.2 = Some m →
  v_fo s !! m = Some true → m ∉ fo_mpath_ns <$> inflight s →
  failover_locked g m jiffies alloc_err s = Done tt s' →
  failover_inv s'.
Proof.
  intros Hinv Hv Hh Hfo Hfree H. unfold failover_locked in H.
  apply bind_Done in H as (gc & s1 & Hg & H). apply get_ctrl_Done in Hg as [Hg ->].
  destruct (v_ctrl_lookup s g v Hv) as (gc' & Hg' & Hmp & Hveq).
  assert (gc' = gc) as -> by congruence.
  destruct (cleanup_done gc) eqn:Hcd; cbn [negb] in H.
  - apply bind_Done in H as (mn & s1 & Hm & H). apply get_ns_Done in Hm as [Hm ->].
    destruct (test_bit NVME_NS_ROOT (ns_flags mn)); [|by injection H as <-].
    apply bind_Done in H as (mc & s1 & Hmc & H). apply get_ctrl_Done in Hmc as [Hmc ->].
    rewrite (volume_ctrl s g v m mn Hinv Hv Hh Hm) in Hmc.
    assert (mc = gc) as -> by congruence.
    apply (failover_scan_Done g m jiffies alloc_err _ v.1) in H; try done.
    + destruct H as [->|[(mn' & Hm' & ->)|(a & sb & Ha & Hsb & Hact & Hpair)]].
      * done.
      * by apply failover_inv_clear_flag.
      * by apply (failover_pair_inv s g v m jiffies alloc_err a sb).
    + by rewrite Hveq.
  - cbn [nvme_update_active] in H. mnorm_in H.
    apply bind_Done in H as (mn & s1 & Hm & H). apply get_ns_Done in Hm as [Hm ->].
    mnorm_in H.
    apply bind_Done in H as (mc & s1 & Hmc & H). apply get_ctrl_Done in Hmc as [Hmc ->].
    rewrite (volume_ctrl s g v m mn Hinv Hv Hh Hm) in Hmc.
    assert (mc = gc) as -> by congruence.
    mnorm_in H.
    apply bind_Done in H as (found & s1 & Hscan & H).
    apply update_active_scan_Done in Hscan as [-> Hin].
    destruct found as [p|]; mnorm_in H.
    + apply bind_Done in H as (rc & s1 & Hset & H).
      apply nvme_set_ns_active_Done in Hset as [[Hrc ->]|[-> ->]].
      * destruct (Z.eqb_spec rc 0) as [|_]; [done|]. cbn [negb] in H.
        mnorm_in H.
        apply bind_Done in H as (b & s1 & Hclr & H).
        apply test_and_clear_bit_ns_Done in Hclr as (mn' & Hm' & ->).
        cbn in H. injection H as <-.
        apply failover_inv_with_delayed. by apply failover_inv_clear_flag.
      * cbn in H. injection H as <-.
        apply (failover_inv_issue s p g v m); try done.
        -- apply (groups_wf_member _ _ g v p (proj1 Hinv) Hv).
           rewrite Hveq. by apply Hin.
        -- unfold v_cd. by rewrite lookup_fmap, Hg, <- Hcd.
    + apply bind_Done in H as (b & s1 & Hclr & H).
      apply test_and_clear_bit_ns_Done in Hclr as (mn' & Hm' & ->).
      cbn in H. injection H as <-. by apply failover_inv_clear_flag.
Qed.

Lemma nvme_trigger_failover_inv s c jiffies alloc_err s' :
  failover_inv s →
  nvme_trigger_failover c jiffies alloc_err s = Done tt s' →
  failover_inv s'.
Proof.
  intros Hinv H. unfold nvme_trigger_failover in H.
  apply bind_Done in H as (x & s1 & Hx & H). apply get_ctrl_Done in Hx as [Hx ->].
  destruct (test_bit NVME_CTRL_MPATH_CHILD (ctrl_flags x)); cbn [negb] in H;
    [|by injection H as <-].
  apply bind_Done in H as (r & s1 & Hscan & H).
  apply failover_child_scan_Done in Hscan as [-> Hr].
  destruct (r.1) as [g|] eqn:Hr1; [|by injection H as <-].
  destruct Hr as [|(p & n & Hn & Hpar)]; [done|].
  apply bind_Done in H as (skip & s1 & Hskip & H).
  apply failover_not_needed_Done in Hskip as ->.
  destruct skip; [by injection H as <-|].
  apply bind_Done in H as (gc & s1 & Hg & H). apply get_ctrl_Done in Hg as [Hg ->].
  destruct (mpath_namespace gc) as [|m ml] eqn:Hml; [done|].
  destruct (groups_wf_parent _ _ p g (proj1 Hinv)) as [v Hv].
  { unfold v_ns. by rewrite lookup_fmap, Hn, <- Hpar. }
  destruct (v_ctrl_lookup s g v Hv) as (gc' & Hg' & Hmp & Hveq).
  assert (gc' = gc) as -> by congruence.
  assert (head v.2 = Some m) as Hh by (by rewrite Hveq; cbn; rewrite Hml).
  apply bind_Done in H as (old & s1 & Hset & H).
  apply test_and_set_bit_ns_Done in Hset as (mn & Hm & -> & ->).
  fold (with_fo_set m mn s) in H.
  destruct (store_flag_views s m mn (set_bit NVME_NS_FO_IN_PROGRESS (ns_flags mn)) Hm)
    as (HvN & HvC & HvA & HvF & HvD & HvI).
  fold (with_fo_set m mn s) in HvN, HvC, HvA, HvF, HvD, HvI.
  destruct (test_bit NVME_NS_FO_IN_PROGRESS (ns_flags mn)) eqn:Hold.
  { injection H as <-. by apply failover_inv_set_flag. }
  apply (failover_locked_inv (with_fo_set m mn s) g v m jiffies alloc_err);
    [ | |exact Hh| | |exact H].
  - by apply failover_inv_set_flag.
  - by rewrite HvC.
  - rewrite HvF, lookup_insert_eq, test_bit_set_bit by done.
    by rewrite bool_decide_eq_true_2.
  - rewrite HvI. apply (requests_ok_flag_free (v_ns s) (v_ctrl s) (v_fo s) (v_cd s)).
    + apply Hinv.
    + unfold v_fo. rewrite lookup_fmap, Hm. simpl. unfold fo_in_progress.
      by rewrite Hold.
Qed.

Lemma promote_views s g x p n :
  ctrls s !! g = Some x → nss s !! p = Some n →
  let s' := with_ctrls (insert g (set_cleanup_done true x))
              (with_nss (insert p (set_active true n)) s) in
  v_ns s' = v_ns s ∧ v_ctrl s' = v_ctrl s ∧ v_act s' = <[p:=true]> (v_act s) ∧
  v_fo s' = v_fo s ∧ v_cd s' = <[g:=true]> (v_cd s) ∧ inflight s' = inflight s.
Proof.
  intros Hg Hp s'. subst s'. unfold v_ns, v_act, v_fo, v_ctrl, v_cd.
  cbn [nss ctrls inflight with_nss with_ctrls].
  rewrite (fmap_insert_same ns_shape _ p n), (fmap_insert_same fo_in_progress _ p n)
    by done.
  rewrite (omap_insert_same ctrl_shape _ g x) by done.
  by rewrite !fmap_insert.
Qed.

Lemma nvme_ns_active_end_io_inv s l1 r l2 error s' :
  failover_inv s →
  inflight s = l1 ++ r :: l2 →
  nvme_ns_active_end_io r error (with_inflight (λ _, l1 ++ l2) s) = Done tt s' →
  failover_inv s'.
Proof.
  intros Hinv Hfl H. unfold nvme_ns_active_end_io in H.
  apply bind_Done in H as (sb & s1 & Hsb & H). apply get_ns_Done in Hsb as [Hsb ->].
  cbn [nss with_inflight] in Hsb.
  unfold failover_inv in Hinv. rewrite Hfl in Hinv.
  assert (∃ g, mpath_ctrl sb = Some g) as [g Hpar].
  { destruct Hinv as (_ & _ & _ & Hall & _).
    pose proof (proj1 (Forall_forall _ _) Hall r) as Hr.
    rewrite request_ok_iff in Hr. destruct Hr as (g & _ & Hp & _).
    { apply elem_of_app. right. left. }
    unfold v_ns in Hp. rewrite lookup_fmap, Hsb in Hp. simpl in Hp.
    exists g. congruence. }
  assert (snd <$> v_ns s !! standby_ns r = Some (Some g)) as Hp.
  { unfold v_ns. by rewrite lookup_fmap, Hsb, <- Hpar. }
  rewrite Hpar in H.
  apply bind_Done in H as (u & s1 & Hfirst & H).
  case_bool_decide as Herr.
  - apply bind_Done in Hfirst as (c & s2 & Hc & Hfirst).
    apply get_ctrl_Done in Hc as [_ ->]. injection Hfirst as _ <-.
    apply bind_Done in H as (b & s1 & Hclr & H).
    apply test_and_clear_bit_ns_Done in Hclr as (mn & Hm & ->).
    apply bind_Done in H as (gc & s1 & Hg & H). apply get_ctrl_Done in Hg as [_ ->].
    unfold schedule_delayed_work, modify in H. injection H as <-.
    apply failover_inv_with_delayed.
    destruct (store_flag_views _ _ _
                (clear_bit NVME_NS_FO_IN_PROGRESS (ns_flags mn)) Hm)
      as (HvN & HvC & HvA & HvF & HvD & HvI).
    unfold failover_inv. rewrite HvN, HvC, HvA, HvF, HvD, HvI.
    apply (inv_complete _ _ _ _ _ l1 l2 r _ false g Hinv Hp).
  - apply bind_Done in Hfirst as (u1 & s2 & Hact & Hfirst).
    apply modify_ns_Done in Hact as (sb' & Hsb' & ->).
    cbn [nss with_inflight] in Hsb'. assert (sb' = sb) as -> by congruence.
    apply bind_Done in Hfirst as (u2 & s2 & Hcd & Hfirst).
    apply modify_ctrl_Done in Hcd as (x & Hx & ->).
    apply bind_Done in Hfirst as (c & s2 & Hc & Hfirst).
    apply get_ctrl_Done in Hc as [_ ->]. injection Hfirst as _ <-.
    apply bind_Done in H as (b & s1 & Hclr & H).
    apply test_and_clear_bit_ns_Done in Hclr as (mn & Hm & ->).
    injection H as <-.
    destruct (store_flag_views _ _ _
                (clear_bit NVME_NS_FO_IN_PROGRESS (ns_flags mn)) Hm)
      as (HvN & HvC & HvA & HvF & HvD & HvI).
    destruct (promote_views (with_inflight (λ _, l1 ++ l2) s) g x (standby_ns r) sb)
      as (HpN & HpC & HpA & HpF & HpD & HpI); [done|done|].
    unfold failover_inv.
    rewrite HvN, HvC, HvA, HvF, HvD, HvI, HpN, HpC, HpA, HpF, HpD, HpI.
    apply (inv_complete _ _ _ _ _ l1 l2 r _ true g Hinv Hp).
Qed.

Lemma nvme_change_ctrl_state_inv s c new_state b s' :
  failover_inv s → nvme_change_ctrl_state c new_state s = Done b s' → failover_inv s'.
Proof.
  intros Hinv H. unfold nvme_change_ctrl_state in H.
  apply bind_Done in H as (x & s1 & Hx & H). apply get_ctrl_Done in Hx as [Hx ->].
  destruct (ctrl_state_changed (state x) new_state).
  - cbn in H. injection H as _ <-. by apply failover_inv_set_state.
  - cbn in H. by injection H as _ <-.
Qed.

Lemma fo_step_inv s s' : failover_inv s → fo_step s s' → failover_inv s'.
Proof.
  intros Hinv Hstep. revert Hinv.
  destruct Hstep as [c j e s1 s2 H|l1 r l2 error s1 s2 Hfl H|c st b s1 s2 H];
    intros Hinv.
  - by apply (nvme_trigger_failover_inv s1 c j e).
  - by apply (nvme_ns_active_end_io_inv s1 l1 r l2 error).
  - by apply (nvme_change_ctrl_state_inv s1 c st b).
Qed.

Lemma reachable_inv s s' : failover_inv s → rtc fo_step s s' → failover_inv s'.
Proof.
  intros Hinv Hsteps.
  induction Hsteps as [|s1 s2 s3 Hstep _ IH]; [done|].
  apply IH. by apply (fo_step_inv s1).
Qed.

(** X22: the invariant of the failover engine is inductive.  From a state
    that satisfies it (every promotion request in flight targets a member
    of an unsettled group and holds FAILOVER_IN_PROGRESS on its volume),
    every state reached by calls of [nvme_trigger_failover], completions of
    promotion requests ([nvme_ns_active_end_io]) and changes of controller
    state satisfies it, and every aggregate controller has at most one
    member whose [active] flag is set. *)
Theorem failover_inv_one_active s s' g l :
  failover_inv s →
  rtc fo_step s s' →
  group_members s' g l →
  failover_inv s' ∧ at_most_one_active s' l.
Proof.
  intros Hinv Hsteps (x & Hg & Hmp & <-).
  pose proof (reachable_inv s s' Hinv Hsteps) as Hinv'. split; [done|].
  intros p q Hp Hq (np & Hnp & Hap) (nq & Hnq & Haq).
  destruct Hinv' as (_ & H1 & _).
  apply (one_active_unique (v_ctrl s') (v_act s') g (namespaces x, mpath_namespace x));
    try done.
  - by apply v_ctrl_intro.
  - unfold v_act. by rewrite lookup_fmap, Hnp, <- Hap.
  - unfold v_act. by rewrite lookup_fmap, Hnq, <- Haq.
Qed.

(** X23: a call of [nvme_trigger_failover] that gets to the test-and-set
    on a volume whose FAILOVER_IN_PROGRESS flag is set returns with the
    state unchanged (no active flag, timestamp, settled flag, request or
    work item changes), in every state.  In every state reached from a
    state that satisfies the invariant of the engine, no two promotion
    requests in flight belong to the same volume, and each of them holds
    the flag of its volume. *)
Theorem failover_inv_one_attempt s0 s :
  failover_inv s0 →
  rtc fo_step s0 s →
  (∀ t c g m jiffies alloc_err,
     resolves_volume t c g m →
     ns_field fo_in_progress t m = Some true →
     nvme_trigger_failover c jiffies alloc_err t = Done tt t) ∧
  NoDup (fo_mpath_ns <$> inflight s) ∧
  (∀ r, r ∈ inflight s → ns_field fo_in_progress s (fo_mpath_ns r) = Some true).
Proof.
  intros Hinv Hsteps. split; [|split].
  - intros t c g m jiffies alloc_err Hres Hfo.
    by apply (trigger_failover_fo_set_noop t c g m).
  - apply (reachable_inv s0 s Hinv Hsteps).
  - intros r Hr.
    pose proof (reachable_inv s0 s Hinv Hsteps) as (_ & _ & _ & Hall & _).
    apply (proj1 (Forall_forall _ _) Hall) in Hr.
    apply request_ok_iff in Hr as (_ & _ & _ & _ & _ & _ & Hf).
    unfold v_fo in Hf. by rewrite lookup_fmap in Hf.
Qed.

End InvariantOnStates.

Lemma demo_reaches_failed_over :
  rtc (fo_step (KC := linux_consts)) (demo_state NVME_CTRL_LIVE []) demo_failing_over ∧
  rtc (fo_step (KC := linux_consts)) (demo_state NVME_CTRL_LIVE []) demo_failed_over.
Proof.
  assert (fo_step (KC := linux_consts) (demo_state NVME_CTRL_LIVE []) demo_failing_over)
    as H1.
  { apply (step_trigger_failover 11 100000 0). by vm_compute. }
  split.
  - eapply rtc_l; [exact H1|apply rtc_refl].
  - eapply rtc_l; [exact H1|]. eapply rtc_l; [|apply rtc_refl].
    apply (step_ns_active_end_io [] (mk_failover_data 2 3 NVME_FAILOVER_RETRIES) []
             BLK_STS_OK); by vm_compute.
Qed.

Lemma failover_inv_one_active_witness :
  complete_request promote_1 BLK_STS_OK [] volume_second_path
    = demo_state NVME_CTRL_LIVE [] ∧
  failover_inv (KC := linux_consts) demo_failed_over ∧
  at_most_one_active demo_failed_over [1; 2]%nat.
Proof.
  split; [by vm_compute|].
  apply (failover_inv_one_active (KC := linux_consts) ltac:(done)
           (demo_state NVME_CTRL_LIVE []) demo_failed_over 10 [1; 2]%nat).
  - unfold failover_inv. compute_done.
  - apply demo_reaches_failed_over.
  - exists (mk_ctrl NVME_CTRL_LIVE 1 [1; 2]%nat [3%nat] true (Some 0)).
    split; [by vm_compute|]. split; reflexivity.
Defined.

Lemma failover_inv_one_attempt_witness :
  nvme_trigger_failover (KC := linux_consts) 11 200000 0 demo_failing_over
    = Done tt demo_failing_over ∧
  NoDup (fo_mpath_ns <$> inflight demo_failing_over).
Proof.
  destruct (failover_inv_one_attempt (KC := linux_consts) ltac:(done)
              (demo_state NVME_CTRL_LIVE []) demo_failing_over) as (H & Hnd & _).
  - unfold failover_inv. compute_done.
  - apply demo_reaches_failed_over.
  - split; [|exact Hnd].
    apply (H demo_failing_over 11%nat 10%nat 3%nat 200000 0); [|by vm_compute].
    exists (mk_ctrl NVME_CTRL_LIVE 2 [1%nat] [] true None), (Some 1%nat),
      (mk_ctrl NVME_CTRL_LIVE 1 [1; 2]%nat [3%nat] false (Some 0)), [].
    repeat split; by vm_compute.
Defined.

(** ** The promotion request of the creation path

    [nvme_alloc_mpath_ns] ends with a call of [nvme_set_ns_active] on the
    first member of the new volume.  [nvme_trigger_failover] and
    [nvme_update_active] issue that request only while they hold
    FAILOVER_IN_PROGRESS on the volume, and on a group they have made
    unsettled; the creation path issues it with the flag clear, the group
    settled and the member already active.  The state it leaves does not
    satisfy the invariant, and a failover that starts before the request
    has completed breaks both properties the invariant gives. *)

(** C1: at most one member of a group is active at every instant reached
    by [nvme_trigger_failover] and [nvme_ns_active_end_io].  The code
    breaks it on this run.  The volume 3 is created with the
    member 1 and the second path 2 joins ([volume_second_path]): the
    request of the creation is in flight, the flag of the volume is
    clear, the member 1 is the one active member.  A failover on the
    controller 11 demotes the member 1 and asks for the promotion of the
    member 2; the request of the creation completes and sets the member 1
    active again; the request of the failover completes and sets the
    member 2 active.  The members 1 and 2 of the aggregate controller 10
    are then both active. *)
Theorem creation_request_breaks_one_active :
  let s3 := complete_request promote_2 BLK_STS_OK [] creation_request_completed in
  volume_second_path =
    with_inflight (λ _, [promote_1]) (demo_state NVME_CTRL_LIVE []) ∧
  ns_field (fo_in_progress (KC := linux_consts)) volume_second_path 3 = Some false ∧
  at_most_one_active volume_second_path [1; 2]%nat ∧
  ¬ failover_inv (KC := linux_consts) volume_second_path ∧
  rtc (fo_step (KC := linux_consts)) volume_second_path s3 ∧
  group_members (KC := linux_consts) s3 10 [1; 2]%nat ∧
  ns_is_active s3 1 ∧ ns_is_active s3 2 ∧
  ¬ at_most_one_active s3 [1; 2]%nat.
Proof.
  intros s3.
  assert (ns_is_active s3 1) as Ha1.
  { exists (mk_ns 11 (Some 10%nat) true 8 100000 101 [] false).
    split; [by vm_compute|done]. }
  assert (ns_is_active s3 2) as Ha2.
  { exists (mk_ns 12 (Some 10%nat) true 8 0 102 [] false).
    split; [by vm_compute|done]. }
  split; [by vm_compute|]. split; [by vm_compute|]. split.
  { intros p q Hp Hq (np & Hnp & Hap) (nq & Hnq & Haq).
    assert (∀ x : nat, x ∈ [1; 2]%nat → x = 1%nat ∨ x = 2%nat) as Hl.
    { intros x Hx. apply elem_of_cons in Hx as [->|Hx]; [by left|].
      apply list_elem_of_singleton in Hx. by right. }
    destruct (Hl p Hp) as [->| ->], (Hl q Hq) as [->| ->]; try done;
      vm_compute in Hnp, Hnq; simplify_eq; done. }
  split.
  { unfold failover_inv. compute_done. }
  split.
  { eapply rtc_l; [apply (step_trigger_failover 11 100000 0); by vm_compute|].
    eapply rtc_l;
      [apply (step_ns_active_end_io [] promote_1 [promote_2] BLK_STS_OK);
       by vm_compute|].
    eapply rtc_l; [|apply rtc_refl].
    apply (step_ns_active_end_io [] promote_2 [] BLK_STS_OK); by vm_compute. }
  split.
  { exists (mk_ctrl NVME_CTRL_LIVE 1 [1; 2]%nat [3%nat] true (Some 0)).
    split; [by vm_compute|]. split; reflexivity. }
  split; [done|]. split; [done|].
  intros H.
  assert (1%nat = 2%nat) as Heq; [|discriminate Heq].
  apply H; [apply elem_of_cons; by left
           |apply elem_of_cons; right; apply elem_of_cons; by left|..]; done.
Qed.

(** C3: a call of [nvme_trigger_failover] on a volume whose
    FAILOVER_IN_PROGRESS flag is set changes nothing, so that at most one
    failover attempt per volume is in progress.  The code breaks the
    second part on this run.  From the same state, the
    failover on the controller 11 takes FAILOVER_IN_PROGRESS on the
    volume 3 and puts the promotion request of the member 2 in flight; a
    second call then returns with the state unchanged.  The request of the
    creation completes and clears the flag, while the request of the
    failover is still in flight; the next call of
    [nvme_trigger_failover] takes the flag again and puts a second
    promotion request in flight for the volume 3. *)
Theorem creation_request_allows_two_attempts :
  let s3 := final_state
              (nvme_trigger_failover (KC := linux_consts) 11 100010 0
                 creation_request_completed) creation_request_completed in
  ns_field (fo_in_progress (KC := linux_consts)) failover_during_creation 3
    = Some true ∧
  inflight failover_during_creation = [promote_1; promote_2] ∧
  nvme_trigger_failover (KC := linux_consts) 11 100005 0 failover_during_creation
    = Done tt failover_during_creation ∧
  ns_field (fo_in_progress (KC := linux_consts)) creation_request_completed 3
    = Some false ∧
  inflight creation_request_completed = [promote_2] ∧
  rtc (fo_step (KC := linux_consts)) volume_second_path s3 ∧
  inflight s3 = [promote_2; promote_2] ∧
  ¬ NoDup (fo_mpath_ns <$> inflight s3).
Proof.
  intros s3.
  split; [by vm_compute|]. split; [by vm_compute|]. split; [by vm_compute|].
  split; [by vm_compute|]. split; [by vm_compute|]. split.
  { eapply rtc_l; [apply (step_trigger_failover 11 100000 0); by vm_compute|].
    eapply rtc_l;
      [apply (step_ns_active_end_io [] promote_1 [promote_2] BLK_STS_OK);
       by vm_compute|].
    eapply rtc_l; [|apply rtc_refl].
    apply (step_trigger_failover 11 100010 0). by vm_compute. }
  split; [by vm_compute|].
  intros H. vm_compute in H. apply NoDup_cons in H as [H _].
  apply H, elem_of_cons. by left.
Qed.

(** * Further properties *)

(** ** Command encodings *)

Lemma land_shiftl_low a b n :
  0 ≤ n → 0 ≤ b < 2 ^ n → Z.land (Z.shiftl a n) b = 0.
Proof.
  intros Hn Hb. apply Z.bits_inj'. intros k Hk.
  rewrite Z.land_spec, Z.bits_0.
  destruct (decide (k < n)).
  - by rewrite Z.shiftl_spec_low.
  - destruct (decide (b = 0)) as [->|Hb0].
    + by rewrite Z.bits_0, andb_false_r.
    + assert (Z.testbit b k = false) as ->; [|by rewrite andb_false_r].
      apply Z.bits_above_log2; [lia|]. apply Z.log2_lt_pow2; [lia|].
      assert (2 ^ n ≤ 2 ^ k) by (apply Z.pow_le_mono_r; lia). lia.
Qed.

Lemma lor_shiftl_low a b n :
  0 ≤ n → 0 ≤ b < 2 ^ n → Z.lor (Z.shiftl a n) b = a * 2 ^ n + b.
Proof.
  intros Hn Hb. rewrite <- Z.add_nocarry_lor by (by apply land_shiftl_low).
  by rewrite Z.shiftl_mul_pow2.
Qed.

Lemma nvme_get_log_dw10_value lid size :
  0 ≤ lid < 2 ^ 8 → 0 ≤ size < 2 ^ 64 →
  nvme_get_log_dw10 lid size =
    (if size <? 4 then 0xffff else (size / 4 - 1) mod 2 ^ 16) * 2 ^ 16 + lid.
Proof.
  intros Hlid Hsize. unfold nvme_get_log_dw10, ulong, uint.
  rewrite Z.shiftl_mul_pow2 by lia.
  set (d := (size / 4 - 1) mod 2 ^ 64).
  assert ((d * 2 ^ 16) mod 2 ^ 64 = Z.shiftl (d mod 2 ^ 48) 16) as ->.
  { rewrite Z.shiftl_mul_pow2 by lia.
    change (2 ^ 64) with (2 ^ 48 * 2 ^ 16). by rewrite Z.mul_mod_distr_r. }
  rewrite lor_shiftl_low by lia.
  assert (d mod 2 ^ 16 = if size <? 4 then 65535 else (size / 4 - 1) mod 2 ^ 16) as <-.
  { subst d. destruct (Z.ltb_spec size 4).
    - replace (size / 4) with 0 by (symmetry; apply Z.div_small; lia). done.
    - rewrite (Z.mod_small (size / 4 - 1)); [done|].
      assert (1 ≤ size / 4) by (apply Z.div_le_lower_bound; lia).
      assert (size / 4 < 2 ^ 64) by (apply Z.div_lt_upper_bound; lia). lia. }
  assert (0 ≤ d) by (subst d; apply Z.mod_pos_bound; lia).
  clearbody d.
  pose proof (Z.div_mod d (2 ^ 48) ltac:(lia)).
  pose proof (Z.mod_pos_bound d (2 ^ 48) ltac:(lia)).
  pose proof (Z.div_mod (d mod 2 ^ 48) (2 ^ 16) ltac:(lia)).
  pose proof (Z.mod_pos_bound (d mod 2 ^ 48) (2 ^ 16) ltac:(lia)).
  assert ((d mod 2 ^ 48) mod 2 ^ 16 = d mod 2 ^ 16) as Hmm.
  { symmetry. change (2 ^ 48) with (2 ^ 16 * 2 ^ 32).
    rewrite Z.rem_mul_r by lia.
    rewrite (Z.mul_comm (2 ^ 16)), Z.mod_add by lia.
    by rewrite Z.mod_mod by lia. }
  rewrite Hmm in *.
  set (e := d mod 2 ^ 48) in *. set (r := d mod 2 ^ 16) in *.
  replace (e * 2 ^ 16 + lid) with (r * 2 ^ 16 + lid + (e / 2 ^ 16) * 2 ^ 32) by lia.
  rewrite Z.mod_add by lia. apply Z.mod_small. lia.
Qed.

(** X1: [nvme_get_log_dw10] puts the log identifier in the low bits and
    the number of dwords minus one in bits 16 to 31.  For an 8-bit [lid]
    and a 64-bit [size], the low half-word of the result is [lid] and the
    high half-word is [size / 4 - 1] truncated to 16 bits; a size below 4
    bytes wraps to the largest count, 0xffff; for a size from 4 bytes to
    2^18 bytes the field decodes back to the size rounded down to a
    multiple of 4. *)
Theorem nvme_get_log_dw10_fields lid size :
  0 ≤ lid < 2 ^ 8 → 0 ≤ size < 2 ^ 64 →
  Z.land (nvme_get_log_dw10 lid size) 0xffff = lid ∧
  Z.shiftr (nvme_get_log_dw10 lid size) 16 =
    (if size <? 4 then 0xffff else (size / 4 - 1) mod 2 ^ 16) ∧
  (4 ≤ size → size ≤ 2 ^ 18 →
     4 * (Z.shiftr (nvme_get_log_dw10 lid size) 16 + 1) = size - size mod 4).
Proof.
  intros Hlid Hsize. rewrite nvme_get_log_dw10_value by done.
  set (numd := if size <? 4 then 65535 else (size / 4 - 1) mod 2 ^ 16).
  assert (0 ≤ numd < 2 ^ 16) as Hnumd.
  { subst numd. destruct (size <? 4); [lia|]. apply Z.mod_pos_bound. lia. }
  assert (Z.shiftr (numd * 2 ^ 16 + lid) 16 = numd) as Hhi.
  { rewrite Z.shiftr_div_pow2 by lia.
    rewrite Z.add_comm, Z.div_add by lia. rewrite Z.div_small by lia. lia. }
  split; [|split].
  - change 65535 with (Z.ones 16). rewrite Z.land_ones by lia.
    rewrite Z.add_comm, Z.mod_add by lia. apply Z.mod_small. lia.
  - done.
  - intros H4 Hmax. rewrite Hhi. subst numd.
    destruct (Z.ltb_spec size 4); [lia|].
    pose proof (Z.div_mod size 4 ltac:(lia)).
    pose proof (Z.mod_pos_bound size 4 ltac:(lia)).
    rewrite Z.mod_small; lia.
Qed.

Lemma nvme_get_log_dw10_fields_witness :
  Z.land (nvme_get_log_dw10 3 512) 0xffff = 3 ∧
  Z.shiftr (nvme_get_log_dw10 3 512) 16 = 127 ∧
  Z.shiftr (nvme_get_log_dw10 3 2) 16 = 0xffff.
Proof.
  destruct (nvme_get_log_dw10_fields 3 512) as (H1 & H2 & _); [lia|lia|].
  destruct (nvme_get_log_dw10_fields 3 2) as (_ & H3 & _); [lia|lia|].
  split; [exact H1|]. split; [exact H2|exact H3].
Defined.

Lemma q_count_value count :
  1 ≤ count ≤ 65536 → q_count count = (count - 1) * 2 ^ 16 + (count - 1).
Proof.
  intros Hc. unfold q_count, uint. rewrite Z.lor_comm, lor_shiftl_low by lia.
  apply Z.mod_small. lia.
Qed.

(** X2: [nvme_set_queue_count] called with a count of at least 1.  A
    negative status of [nvme_set_features] is returned as it is and the
    count is left alone; a positive status gives the return value 0 and the
    count 0; with the status 0 the function returns 0 and the count becomes
    a value from 1 to the old count, never above 65536; and when the
    controller grants exactly what was asked (for a count up to 65536) the
    count is unchanged. *)
Theorem nvme_set_queue_count_result set_features count :
  1 ≤ count →
  let status := (set_features (q_count count)).1 in
  let r := nvme_set_queue_count set_features count in
  (status < 0 → r = (status, count)) ∧
  (0 < status → r = (0, 0)) ∧
  (status = 0 → r.1 = 0 ∧ 1 ≤ r.2 ≤ count ∧ r.2 ≤ 65536) ∧
  (count ≤ 65536 → set_features (q_count count) = (0, q_count count) →
   r = (0, count)).
Proof.
  intros Hc status r. subst status r. unfold nvme_set_queue_count.
  split; [|split; [|split]].
  - intros Hs. by destruct (Z.ltb_spec (set_features (q_count count)).1 0); [|lia].
  - intros Hs. destruct (Z.ltb_spec (set_features (q_count count)).1 0); [lia|].
    by destruct (Z.ltb_spec 0 (set_features (q_count count)).1); [|lia].
  - intros ->. cbn [Z.ltb Z.compare].
    set (result := uint (set_features (q_count count)).2).
    assert (0 ≤ result < 2 ^ 32) as Hr by (apply Z.mod_pos_bound; lia).
    assert (0 ≤ Z.land result 65535 < 2 ^ 16) as Hlo.
    { change 65535 with (Z.ones 16). rewrite Z.land_ones by lia.
      apply Z.mod_pos_bound. lia. }
    assert (0 ≤ Z.shiftr result 16 < 2 ^ 16) as Hhi.
    { rewrite Z.shiftr_div_pow2 by lia. split.
      - apply Z.div_pos; lia.
      - apply Z.div_lt_upper_bound; lia. }
    cbn [fst snd]. lia.
  - intros Hmax ->. cbn [fst snd Z.ltb Z.compare].
    rewrite q_count_value by lia.
    assert (uint ((count - 1) * 2 ^ 16 + (count - 1)) = (count - 1) * 2 ^ 16 + (count - 1))
      as -> by (apply Z.mod_small; lia).
    change 65535 with (Z.ones 16). rewrite Z.land_ones by lia.
    rewrite Z.shiftr_div_pow2 by lia.
    rewrite (Z.add_comm _ (count - 1)), Z.mod_add, Z.div_add by lia.
    rewrite Z.mod_small, Z.div_small by lia. f_equal. lia.
Qed.

Lemma nvme_set_queue_count_result_witness :
  nvme_set_queue_count (λ q, (0, q)) 8 = (0, 8) ∧
  nvme_set_queue_count (λ _, (0, 0x00030003)) 8 = (0, 4) ∧
  nvme_set_queue_count (λ _, (6, 0)) 8 = (0, 0).
Proof.
  split; [|split].
  - apply (nvme_set_queue_count_result (λ q, (0, q)) 8); [lia|lia|done].
  - reflexivity.
  - apply (nvme_set_queue_count_result (λ _, (6, 0)) 8); [lia|simpl; lia].
Defined.

(** ** Cancelling a request *)

Section CancelProofs.
Context `{KC : kernel_consts}.

Lemma land_u16_lor a d : 0 ≤ d < 2 ^ 16 → Z.land (u16 (Z.lor a d)) d = d.
Proof.
  intros Hd. apply Z.bits_inj'. intros k Hk. rewrite Z.land_spec. unfold u16.
  destruct (decide (k < 16)).
  - rewrite Z.mod_pow2_bits_low, Z.lor_spec by lia.
    by destruct (Z.testbit a k), (Z.testbit d k).
  - destruct (decide (d = 0)) as [->|Hd0].
    + by rewrite Z.bits_0, andb_false_r.
    + assert (Z.testbit d k = false) as ->; [|by rewrite andb_false_r].
      apply Z.bits_above_log2; [lia|]. apply Z.log2_lt_pow2; [lia|].
      assert (2 ^ 16 ≤ 2 ^ k) by (apply Z.pow_le_mono_r; lia). lia.
Qed.

(** X3: [nvme_cancel_request] on a dying queue.  A request that was not
    started is left alone.  A started request gets the status
    ABORT_REQ | DNR (truncated to the 16 bits of the field) and keeps its
    flags, its times and its retry counter, so that [nvme_complete_rq] on
    it, at any time and for any [nvme_max_retries], never requeues it and
    ends it once; the status it is ended with is an error whenever the low
    eleven bits of ABORT_REQ | DNR are not the SUCCESS code. *)
Theorem nvme_cancel_request_dying_not_retried abort started req :
  0 < NVME_SC_DNR < 2 ^ 16 →
  match nvme_cancel_request abort started true req with
  | None => started = false
  | Some req' =>
      started = true ∧
      req' = mk_request (cmd_flags req) (rq_start_time req) (rq_timeout req)
               (mk_nvme_request (retries (nvme_req req))
                  (u16 (Z.lor abort NVME_SC_DNR))) ∧
      status (nvme_req req') = u16 (Z.lor abort NVME_SC_DNR) ∧
      Z.land (status (nvme_req req')) NVME_SC_DNR = NVME_SC_DNR ∧
      cmd_flags req' = cmd_flags req ∧ retries (nvme_req req') = retries (nvme_req req) ∧
      (∀ jiffies max_retries,
        nvme_complete_rq jiffies max_retries req' =
          [blk_mq_end_request req' (nvme_error_status req')]) ∧
      (Z.land (u16 (Z.lor abort NVME_SC_DNR)) 0x7ff ≠ NVME_SC_SUCCESS →
       nvme_error_status req' ≠ BLK_STS_OK)
  end.
Proof.
  intros Hdnr. unfold nvme_cancel_request. destruct started; cbn [negb]; [|done].
  split; [done|]. split; [done|]. split; [done|].
  split; [cbn [nvme_req status]; apply land_u16_lor; lia|].
  split; [done|]. split; [done|]. split.
  - intros jiffies max_retries.
    unfold nvme_complete_rq, nvme_req_needs_retry. cbn [nvme_req status].
    rewrite land_u16_lor by lia.
    destruct (Z.eqb_spec NVME_SC_DNR 0) as [|_]; [lia|]. cbn [negb].
    destruct (blk_noretry_request _); by rewrite andb_false_r.
  - intros Hsc. unfold nvme_error_status. cbn [nvme_req status].
    destruct (Z.eqb_spec (Z.land (u16 (Z.lor abort NVME_SC_DNR)) 0x7ff) NVME_SC_SUCCESS)
      as [|_]; [done|].
    repeat case_match; done.
Qed.

End CancelProofs.

Lemma nvme_cancel_request_dying_not_retried_witness :
  ∃ req', nvme_cancel_request (KC := linux_consts) 0x7 true true (demo_request 0 0 0)
            = Some req' ∧
    status (nvme_req req') = 0x4007 ∧
    nvme_error_status (KC := linux_consts) req' ≠ BLK_STS_OK ∧
    nvme_complete_rq (KC := linux_consts) 2000 5 req' =
      [blk_mq_end_request req' BLK_STS_IOERR].
Proof.
  pose proof (nvme_cancel_request_dying_not_retried (KC := linux_consts) 0x7 true
                (demo_request 0 0 0)) as H.
  destruct (nvme_cancel_request (KC := linux_consts) 0x7 true true (demo_request 0 0 0))
    as [req'|] eqn:Hreq; [|discriminate Hreq].
  exists req'. split; [done|].
  destruct H as (_ & _ & Hst & _ & _ & _ & Hc & Herr); [simpl; lia|].
  injection Hreq as <-. split; [exact Hst|]. split; [apply Herr; by vm_compute|].
  apply Hc.
Defined.

(** ** Reset and ioctl *)

Section ControlProofs.
Context `{KC : kernel_consts}.

(** X4: [nvme_reset_ctrl] returns 0 exactly when the controller is NEW or
    LIVE and the reset work was queued, and -EBUSY otherwise.  From NEW or
    LIVE the controller is RESETTING afterwards, also when the work was
    not queued and -EBUSY is returned, and a second call then returns
    -EBUSY; from any other state nothing changes. *)
Theorem nvme_reset_ctrl_result s c x queued :
  ctrls s !! c = Some x →
  let startable := bool_decide (state x = NVME_CTRL_NEW ∨ state x = NVME_CTRL_LIVE) in
  ∃ s', nvme_reset_ctrl c queued s =
          Done (if startable && queued then 0 else - EBUSY) s' ∧
    (startable = true →
       ctrl_field state s' c = Some NVME_CTRL_RESETTING ∧
       nvme_reset_ctrl c queued s' = Done (- EBUSY) s') ∧
    (startable = false → s' = s).
Proof.
  intros Hc startable.
  assert (ctrl_state_changed (state x) NVME_CTRL_RESETTING = startable) as Hch.
  { subst startable. destruct (state x); cbn [ctrl_state_changed]; symmetry;
      first [ apply bool_decide_eq_true_2; by (left + right)
            | apply bool_decide_eq_false_2; by intros [?|?] ]. }
  unfold nvme_reset_ctrl, nvme_change_ctrl_state. mnorm.
  rewrite (bind_get_ctrl _ _ _ _ Hc), Hch.
  destruct startable; mnorm; cbn [negb andb].
  - exists (with_ctrls (insert c (set_state NVME_CTRL_RESETTING x)) s).
    split; [by destruct queued|]. split; [|done]. intros _. split.
    + unfold ctrl_field. cbn [ctrls with_ctrls]. by rewrite lookup_insert_eq.
    + mnorm.
      erewrite bind_get_ctrl by (cbn [ctrls with_ctrls]; apply lookup_insert_eq).
      reflexivity.
  - exists s. done.
Qed.

(** X5: [nvme_ioctl] runs its command switch only on a namespace that is
    not REMOVING and whose controller is LIVE.  On a ROOT namespace the
    target is the first member whose active flag is set, on any other
    namespace it is the namespace itself; with no target, or with a target
    that is REMOVING or sits on a controller that is not LIVE, the call
    fails with -ENOTTY: no other member is tried.  The store is not
    changed. *)
Theorem nvme_ioctl_gate s p pn :
  heap_ok s → nss s !! p = Some pn →
  ∃ t, (if test_bit NVME_NS_ROOT (ns_flags pn)
        then ∃ mc, ctrls s !! ctrl pn = Some mc ∧
                   first_such (ns_is_active s) (namespaces mc) t
        else t = Some p) ∧
    nvme_ioctl p s =
      Done match t with
           | Some a => if ns_usable s a then ioctl_switch a
                       else ioctl_errno (- ENOTTY)
           | None => ioctl_errno (- ENOTTY)
           end s.
Proof.
  intros Hok Hp.
  assert (∀ a n, nss s !! a = Some n →
            bind (get_ns a) (λ n,
              if test_bit NVME_NS_REMOVING (ns_flags n) then ret (ioctl_errno (- ENOTTY))
              else bind (get_ctrl (ctrl n)) (λ c,
                if bool_decide (state c ≠ NVME_CTRL_LIVE)
                then ret (ioctl_errno (- ENOTTY)) else ret (ioctl_switch a))) s =
            Done (if ns_usable s a then ioctl_switch a else ioctl_errno (- ENOTTY)) s)
    as Hgate.
  { intros a n Ha. rewrite (bind_get_ns _ _ _ _ Ha). unfold ns_usable. rewrite Ha.
    destruct (test_bit NVME_NS_REMOVING (ns_flags n)); [done|]. cbn [negb andb].
    destruct (proj1 Hok _ _ Ha) as [c Hc]. rewrite (bind_get_ctrl _ _ _ _ Hc), Hc.
    by repeat case_bool_decide. }
  unfold nvme_ioctl, nvme_get_active_ns_for_mpath_ns. mnorm.
  rewrite (bind_get_ns _ _ _ _ Hp).
  destruct (test_bit NVME_NS_ROOT (ns_flags pn)).
  - destruct (proj1 Hok _ _ Hp) as [mc Hmc]. mnorm.
    rewrite (bind_get_ctrl _ _ _ _ Hmc).
    destruct (get_active_ns_scan_run s (namespaces mc)) as (r & Hr & Hf).
    { intros q Hq. by apply (proj1 (Forall_forall _ _) (proj2 Hok _ _ Hmc)). }
    exists r. split; [by exists mc|]. rewrite (bind_run _ _ _ _ _ Hr).
    destruct r as [a|]; [|done].
    destruct Hf as (l1 & l2 & _ & (n & Hn & _) & _). by apply (Hgate a n).
  - exists (Some p). split; [done|]. mnorm. by apply (Hgate p pn).
Qed.

End ControlProofs.

Lemma nvme_reset_ctrl_result_witness :
  ∃ s', nvme_reset_ctrl 11 true (demo_state NVME_CTRL_LIVE []) = Done 0 s' ∧
        ctrl_field state s' 11 = Some NVME_CTRL_RESETTING ∧
        nvme_reset_ctrl 11 true s' = Done (- EBUSY) s'.
Proof.
  destruct (nvme_reset_ctrl_result (demo_state NVME_CTRL_LIVE []) 11
              (mk_ctrl NVME_CTRL_LIVE 2 [1%nat] [] true None) true)
    as (s' & Hrun & Hyes & _); [reflexivity|].
  exists s'. split; [exact Hrun|]. by apply Hyes.
Defined.

Lemma nvme_ioctl_gate_witness :
  ∃ t, (∃ mc, ctrls (demo_state NVME_CTRL_RESETTING []) !! 10%nat = Some mc ∧
              first_such (ns_is_active (demo_state NVME_CTRL_RESETTING []))
                (namespaces mc) t) ∧
    nvme_ioctl (KC := linux_consts) 3 (demo_state NVME_CTRL_RESETTING []) =
      Done match t with
           | Some a => if ns_usable (KC := linux_consts)
                            (demo_state NVME_CTRL_RESETTING []) a
                       then ioctl_switch a else ioctl_errno (- ENOTTY)
           | None => ioctl_errno (- ENOTTY)
           end (demo_state NVME_CTRL_RESETTING []).
Proof.
  apply (nvme_ioctl_gate (KC := linux_consts) (demo_state NVME_CTRL_RESETTING []) 3
           (mk_ns 10 None false 4 0 103 [] false)); [compute_done|reflexivity].
Defined.

(** ** The cleanup work *)

Section CleanupProofs.
Context `{KC : kernel_consts}.

Lemma set_mpath_req_pool_id x k : mpath_req_pool x = Some k → set_mpath_req_pool (Some k) x = x.
Proof. destruct x. cbn. by intros ->. Qed.

Lemma with_ctrls_insert_id s c x : ctrls s !! c = Some x → with_ctrls (insert c x) s = s.
Proof. intros H. destruct s. unfold with_ctrls. cbn in *. by rewrite insert_id. Qed.

Lemma cancel_loop_run c l s x k :
  ctrls s !! c = Some x → mpath_req_pool x = Some k →
  Forall (λ b, ∃ priv, bi_owner b = owner_mpath priv) l →
  cancel_loop c l s =
    Done tt
      (with_ctrls (insert c (set_mpath_req_pool
                               (Some (Z.max k (Z.min (k + Z.of_nat (length l)) mpath_req_pool_min_nr))) x))
         (with_ended (λ e, e ++ ((λ b, completed_bio (set_bio_status BLK_STS_IOERR b)) <$> l))
            s)).
Proof.
  revert s x k. induction l as [|b l IH]; intros s x k Hc Hk Hall.
  - cbn [length]. replace (Z.max k (Z.min (k + Z.of_nat 0) mpath_req_pool_min_nr)) with k by lia.
    rewrite set_mpath_req_pool_id by done.
    destruct s. unfold with_ended, with_ctrls. cbn in *.
    by rewrite app_nil_r, insert_id.
  - apply Forall_cons in Hall as [[priv Hb] Hall].
    cbn [cancel_loop]. rewrite Hb. mnorm. unfold mpath_req_pool_free. mnorm.
    erewrite bind_get_ctrl by (cbn [ctrls with_ended]; exact Hc).
    rewrite Hk. mnorm.
    erewrite (IH _ (set_mpath_req_pool (Some (mempool_free k)) x) (mempool_free k));
      [|cbn [ctrls with_ctrls with_ended]; apply lookup_insert_eq|done|done].
    assert (Z.max (mempool_free k)
              (Z.min (mempool_free k + Z.of_nat (length l)) mpath_req_pool_min_nr) =
            Z.max k (Z.min (k + Z.of_nat (length (b :: l))) mpath_req_pool_min_nr)) as ->.
    { unfold mempool_free. cbn [length].
      destruct (Z.ltb_spec k mpath_req_pool_min_nr); lia. }
    f_equal. destruct s. unfold with_ended, with_ctrls. cbn.
    rewrite insert_insert_eq, <- app_assoc. cbn [app fmap list_fmap].
    unfold completed_bio at 2. cbn [bi_owner set_bio_status]. by rewrite Hb.
Qed.

(** X6: [nvme_mpath_flush_io_work], the handler of [cu_work], on the first
    volume of its aggregate controller.  While FAILOVER_IN_PROGRESS is set
    it fails no parked bio and changes no object: it only schedules itself
    again [nvme_io_timeout * HZ] later.  Otherwise, through
    [nvme_mpath_cancel_ios], every parked bio is completed to its
    submitter, in queue order, with BLK_STS_IOERR and with its block
    device, callback and cookie restored; the queue is left empty and off
    the wait queue; one pool element per bio is given back (the reserve
    grows up to 4096); nothing is scheduled.  In both cases nothing is
    submitted, no promotion request changes and no other namespace
    changes. *)
Theorem nvme_mpath_flush_io_work_effect s g gc m ml mn mc k :
  ctrls s !! g = Some gc → mpath_namespace gc = m :: ml →
  nss s !! m = Some mn → ctrls s !! ctrl mn = Some mc →
  mpath_req_pool mc = Some k →
  test_bit NVME_NS_ROOT (ns_flags mn) = true →
  Forall (λ b, ∃ priv, bi_owner b = owner_mpath priv) (fq_cong mn) →
  ∃ s', nvme_mpath_flush_io_work g s = Done tt s' ∧
    submitted s' = submitted s ∧ inflight s' = inflight s ∧
    (∀ p, p ≠ m → nss s' !! p = nss s !! p) ∧
    if fo_in_progress mn then
      nss s' = nss s ∧ ctrls s' = ctrls s ∧ ended s' = ended s ∧
      delayed s' = (if bool_decide (cu_work g ∈ (delayed s).*1) then delayed s
                    else delayed s ++ [(cu_work g, nvme_io_timeout s * HZ)])
    else
      ended s' = ended s ++
        ((λ b, completed_bio (set_bio_status BLK_STS_IOERR b)) <$> fq_cong mn) ∧
      ns_field fq_cong s' m = Some [] ∧
      (fq_cong mn ≠ [] → ns_field fq_full s' m = Some false) ∧
      ctrl_field mpath_req_pool s' (ctrl mn) =
        Some (Some (Z.max k (Z.min (k + Z.of_nat (length (fq_cong mn)))
                               mpath_req_pool_min_nr))) ∧
      delayed s' = delayed s.
Proof.
  intros Hg Hml Hm Hmc Hk Hroot Hall. unfold nvme_mpath_flush_io_work.
  rewrite (bind_get_ctrl _ _ _ _ Hg), Hml, (bind_get_ns _ _ _ _ Hm).
  unfold fo_in_progress. destruct (test_bit NVME_NS_FO_IN_PROGRESS (ns_flags mn)).
  { mnorm. eexists. split; [reflexivity|]. done. }
  rewrite Hroot. unfold nvme_mpath_cancel_ios.
  rewrite (bind_get_ns _ _ _ _ Hm). mnorm. rewrite (bind_get_ctrl _ _ _ _ Hmc).
  case_bool_decide as Hq.
  - exists s. split; [done|]. rewrite Hq. cbn [length fmap list_fmap].
    rewrite app_nil_r. repeat split; try done.
    + apply ns_field_Some. by exists mn.
    + apply ctrl_field_Some. exists mc. split; [done|]. rewrite Hk. do 2 f_equal. lia.
  - mnorm.
    rewrite (cancel_loop_run (ctrl mn) (fq_cong mn) _ mc k); [|done|done|done].
    eexists. split; [reflexivity|]. cbn.
    repeat split; try done.
    + intros p Hp. by rewrite lookup_insert_ne.
    + unfold ns_field. cbn. by rewrite lookup_insert_eq.
    + intros _. unfold ns_field. cbn. by rewrite lookup_insert_eq.
    + unfold ctrl_field. cbn. by rewrite lookup_insert_eq.
Qed.

End CleanupProofs.

Lemma nvme_mpath_flush_io_work_effect_witness :
  ∃ s', nvme_mpath_flush_io_work (KC := linux_consts) 10
          (demo_state NVME_CTRL_LIVE [parked_bio]) = Done tt s' ∧
    ended s' = [completed_bio parked_bio] ∧
    ns_field fq_cong s' 3 = Some [] ∧
    ctrl_field mpath_req_pool s' 10 = Some (Some 1).
Proof.
  destruct (nvme_mpath_flush_io_work_effect (KC := linux_consts)
              (demo_state NVME_CTRL_LIVE [parked_bio]) 10
              (mk_ctrl NVME_CTRL_LIVE 1 [1; 2]%nat [3%nat] true (Some 0)) 3 []
              (mk_ns 10 None false 4 0 103 [parked_bio] true)
              (mk_ctrl NVME_CTRL_LIVE 1 [1; 2]%nat [3%nat] true (Some 0)) 0)
    as (s' & Hrun & _ & _ & _ & He & Hq & _ & Hp & _); try reflexivity.
  { repeat constructor. by eexists. }
  exists s'. done.
Defined.

(** ** Completion of a redirected bio *)

Section EndioProofs.
Context `{KC : kernel_consts}.

(** X7: [nvme_mpath_endio] on a redirected bio.  If the bio succeeded, or
    the volume is REMOVING, or the retry budget of the shadow record is
    used up, the bio is completed once to its submitter with its status as
    it is and its block device, callback and cookie restored, and the
    shadow record goes back to the pool.  Otherwise (an error with retries
    left) the bio is not completed: it is appended to the congestion queue
    of its volume with the budget decreased by one, and the wait queue is
    marked active.  In neither case is anything submitted or scheduled. *)
Theorem nvme_mpath_endio_outcome s b priv mn mc k :
  bi_owner b = owner_mpath priv →
  nss s !! priv_mpath_ns priv = Some mn →
  ctrls s !! ctrl mn = Some mc →
  mpath_req_pool mc = Some k →
  ∃ s', nvme_mpath_endio b s = Done tt s' ∧
    submitted s' = submitted s ∧ inflight s' = inflight s ∧ delayed s' = delayed s ∧
    if bool_decide (bi_status b = BLK_STS_OK)
       || test_bit NVME_NS_REMOVING (ns_flags mn) || (nr_retries priv <=? 0)
    then
      ended s' = ended s ++ [completed_bio b] ∧
      bi_status (completed_bio b) = bi_status b ∧
      nss s' = nss s ∧
      ctrl_field mpath_req_pool s' (ctrl mn) = Some (Some (mempool_free k))
    else
      ended s' = ended s ∧ ctrls s' = ctrls s ∧
      ns_field fq_full s' (priv_mpath_ns priv) = Some true ∧
      ns_field fq_cong s' (priv_mpath_ns priv) =
        Some (fq_cong mn ++
                [set_bio_owner (bi_bdev b)
                   (owner_mpath (set_nr_retries (nr_retries priv - 1) priv)) b]).
Proof.
  intros Hb Hm Hmc Hk. unfold nvme_mpath_endio. rewrite Hb.
  rewrite (bind_get_ns _ _ _ _ Hm).
  destruct (decide (bi_status b = BLK_STS_OK)) as [Hst|Hst].
  - rewrite (bool_decide_eq_false_2 (bi_status b ≠ BLK_STS_OK)) by (by intros ?).
    rewrite (bool_decide_eq_true_2 _ Hst). cbn [andb orb]. mnorm.
    unfold mpath_req_pool_free.
    erewrite bind_get_ctrl by (cbn [ctrls with_ended]; exact Hmc). rewrite Hk.
    eexists. split; [reflexivity|]. cbn. unfold completed_bio. rewrite Hb.
    repeat split. unfold ctrl_field. cbn. by rewrite lookup_insert_eq.
  - rewrite (bool_decide_eq_true_2 (bi_status b ≠ BLK_STS_OK)) by done.
    rewrite (bool_decide_eq_false_2 _ Hst). cbn [andb orb].
    destruct (test_bit NVME_NS_REMOVING (ns_flags mn)); cbn [negb andb orb].
    { mnorm. unfold mpath_req_pool_free.
      erewrite bind_get_ctrl by (cbn [ctrls with_ended]; exact Hmc). rewrite Hk.
      eexists. split; [reflexivity|]. cbn. unfold completed_bio. rewrite Hb.
      repeat split. unfold ctrl_field. cbn. by rewrite lookup_insert_eq. }
    destruct (Z.ltb_spec 0 (nr_retries priv)), (Z.leb_spec (nr_retries priv) 0);
      try lia.
    + unfold nvme_mpath_retry_bio. cbn [bi_owner set_bio_owner priv_mpath_ns set_nr_retries].
      mnorm. rewrite (bind_get_ns _ _ _ _ Hm). mnorm.
      rewrite (bind_get_ctrl _ _ _ _ Hmc). mnorm.
      eexists. split; [reflexivity|]. cbn.
      repeat split; unfold ns_field; cbn; by rewrite lookup_insert_eq.
    + mnorm. unfold mpath_req_pool_free.
      erewrite bind_get_ctrl by (cbn [ctrls with_ended]; exact Hmc). rewrite Hk.
      eexists. split; [reflexivity|]. cbn. unfold completed_bio. rewrite Hb.
      repeat split. unfold ctrl_field. cbn. by rewrite lookup_insert_eq.
Qed.

End EndioProofs.

Lemma nvme_mpath_endio_outcome_witness :
  ∃ s', nvme_mpath_endio (KC := linux_consts) parked_bio (demo_state NVME_CTRL_LIVE [])
          = Done tt s' ∧
    ended s' = [] ∧
    ns_field fq_full s' 3 = Some true ∧
    (bi_status <$> ended
       (final_state
          (nvme_mpath_endio (KC := linux_consts) (set_bio_status BLK_STS_OK parked_bio)
             (demo_state NVME_CTRL_LIVE []))
          (demo_state NVME_CTRL_LIVE []))) = [BLK_STS_OK].
Proof.
  destruct (nvme_mpath_endio_outcome (KC := linux_consts) (demo_state NVME_CTRL_LIVE [])
              parked_bio (mk_priv 1 3 103 0 2048 1 1 70 4096 7 4 50)
              (mk_ns 10 None false 4 0 103 [] false)
              (mk_ctrl NVME_CTRL_LIVE 1 [1; 2]%nat [3%nat] true (Some 0)) 0)
    as (s' & Hrun & _ & _ & _ & He & _ & Hf & _); try reflexivity.
  exists s'. done.
Defined.

(** ** What [nvme_mpath_make_request] submits *)

Section MakeRequestSafety.
Context `{KC : kernel_consts}.

Lemma get_ns_state_Done n s st s' :
  get_ns_state n s = Done st s' →
  s' = s ∧ ∃ c, ctrls s !! ctrl n = Some c ∧
    (st = NVME_NS_STATE_ACTIVE ↔ active n = true ∧ state c = NVME_CTRL_LIVE) ∧
    (st = NVME_NS_STATE_STANDBY ↔ active n = false ∧ state c = NVME_CTRL_LIVE).
Proof.
  unfold get_ns_state. intros H.
  apply bind_Done in H as (c & s1 & Hc & H). apply get_ctrl_Done in Hc as [Hc ->].
  destruct (active n); case_bool_decide; cbn [andb negb] in H;
    injection H as <- <-; (split; [done|]); exists c; (split; [done|]);
    split; split; try done; try (by intros [? ?]).
Qed.

Lemma nvme_mpath_priv_bio_Done b p bd m jiffies s b' s' :
  nvme_mpath_priv_bio b p bd m jiffies s = Done b' s' →
  s' = s ∧ ∃ end_io private,
    bi_owner b = owner_caller end_io private ∧
    b' = mk_bio (bi_id b) bd (Z.lor (bi_opf b) REQ_FAILFAST_TRANSPORT)
           (bi_status b) (bi_flags b) (bi_sector b) (bi_size b) (bi_idx b)
           (bi_bvec_done b) (bi_vcnt b) (bi_phys_segments b)
           (bi_seg_front_size b) (bi_seg_back_size b) (bi_remaining b)
           (owner_mpath
              (mk_priv p m (bi_bdev b) (bi_flags b) (bi_sector b) (bi_vcnt b)
                 (bi_phys_segments b) private (bi_size b) end_io
                 (nvme_max_retries s) jiffies)).
Proof.
  unfold nvme_mpath_priv_bio. destruct (bi_owner b) as [e pr|]; [|done].
  mnorm. intros [= <- <-]. split; [done|]. by exists e, pr.
Qed.

Lemma make_request_active_scan_Done m b jiffies l s sent s' :
  make_request_active_scan m b jiffies l s = Done sent s' →
  (sent = false ∧ s' = s) ∨
  (sent = true ∧ ∃ p n mn c b',
     p ∈ l ∧ nss s !! p = Some n ∧ nss s !! m = Some mn ∧
     test_bit NVME_NS_REMOVING (ns_flags n) = false ∧
     test_bit NVME_NS_FO_IN_PROGRESS (ns_flags mn) = false ∧
     active n = true ∧ ctrls s !! ctrl n = Some c ∧ state c = NVME_CTRL_LIVE ∧
     mpath_ctrl n = Some (ctrl mn) ∧
     nvme_mpath_priv_bio b p (bdev n) m jiffies s = Done b' s ∧
     s' = with_submitted (λ x, x ++ [b']) s).
Proof.
  induction l as [|p l IH]; intros H.
  - injection H as <- <-. by left.
  - cbn [make_request_active_scan] in H.
    assert (make_request_active_scan m b jiffies l s = Done sent s' →
            (sent = false ∧ s' = s) ∨
            (sent = true ∧ ∃ p' n mn c b',
               p' ∈ p :: l ∧ nss s !! p' = Some n ∧ nss s !! m = Some mn ∧
               test_bit NVME_NS_REMOVING (ns_flags n) = false ∧
               test_bit NVME_NS_FO_IN_PROGRESS (ns_flags mn) = false ∧
               active n = true ∧ ctrls s !! ctrl n = Some c ∧
               state c = NVME_CTRL_LIVE ∧ mpath_ctrl n = Some (ctrl mn) ∧
               nvme_mpath_priv_bio b p' (bdev n) m jiffies s = Done b' s ∧
               s' = with_submitted (λ x, x ++ [b']) s)) as Hrec.
    { intros H'. apply IH in H' as [?|(-> & p' & n & mn & c & b' & Hin & Hrest)];
        [by left|right]. split; [done|]. exists p', n, mn, c, b'.
      split; [by right|done]. }
    apply bind_Done in H as (n & s1 & Hn & H). apply get_ns_Done in Hn as [Hn ->].
    destruct (test_bit NVME_NS_REMOVING (ns_flags n)) eqn:Hrm; [by apply Hrec|].
    apply bind_Done in H as (mn & s1 & Hm & H). apply get_ns_Done in Hm as [Hm ->].
    destruct (test_bit NVME_NS_FO_IN_PROGRESS (ns_flags mn)) eqn:Hfo.
    { injection H as <- <-. by left. }
    apply bind_Done in H as (st & s1 & Hst & H).
    apply get_ns_state_Done in Hst as (-> & c & Hc & Hact & _).
    destruct (Z.eqb_spec st NVME_NS_STATE_ACTIVE) as [Heq|_]; [|by apply Hrec].
    apply Hact in Heq as [Ha Hlive].
    case_bool_decide as Hpar; [|done].
    apply bind_Done in H as (b' & s1 & Hpriv & H).
    pose proof (nvme_mpath_priv_bio_Done _ _ _ _ _ _ _ _ Hpriv) as [-> _].
    unfold generic_make_request in H. mnorm_in H. injection H as <- <-.
    right. split; [done|]. exists p, n, mn, c, b'. repeat split; try done. left.
Qed.

Lemma make_request_standby_scan_Done m b jiffies l s r s' :
  make_request_standby_scan m b jiffies l s = Done r s' →
  s' = s ∧
  ∀ b', r = Some b' →
    ∃ p n, p ∈ l ∧ nss s !! p = Some n ∧
           nvme_mpath_priv_bio b p (bdev n) m jiffies s = Done b' s.
Proof.
  induction l as [|p l IH]; intros H.
  - injection H as <- <-. done.
  - cbn [make_request_standby_scan] in H.
    apply bind_Done in H as (n & s1 & Hn & H). apply get_ns_Done in Hn as [Hn ->].
    apply bind_Done in H as (st & s1 & Hst & H).
    apply get_ns_state_Done in Hst as (-> & _).
    destruct (st =? NVME_NS_STATE_STANDBY).
    + apply bind_Done in H as (b' & s1 & Hpriv & H).
      pose proof (nvme_mpath_priv_bio_Done _ _ _ _ _ _ _ _ Hpriv) as [-> _].
      injection H as <- <-. split; [done|]. intros b'' [= <-].
      exists p, n. split; [left|done].
    + apply IH in H as [-> Hr]. split; [done|]. intros b' Hb'.
      destruct (Hr b' Hb') as (p' & n' & Hin & Hrest). exists p', n'.
      split; [by right|done].
Qed.

Lemma mpath_req_pool_free_Done c s u s' :
  mpath_req_pool_free c s = Done u s' →
  ∃ x k, ctrls s !! c = Some x ∧ mpath_req_pool x = Some k ∧
         s' = with_ctrls (insert c (set_mpath_req_pool (Some (mempool_free k)) x)) s.
Proof.
  unfold mpath_req_pool_free. intros H.
  apply bind_Done in H as (x & s1 & Hx & H). apply get_ctrl_Done in Hx as [Hx ->].
  destruct (mpath_req_pool x) as [k|] eqn:Hk; [|done].
  injection H as <-. by exists x, k.
Qed.

(** What a completion through [nvme_mpath_endio] can change: it parks the
    bio on its volume, or completes it and returns the shadow record. *)
Lemma nvme_mpath_endio_Done b s s' :
  nvme_mpath_endio b s = Done tt s' →
  ∃ priv mn, bi_owner b = owner_mpath priv ∧ nss s !! priv_mpath_ns priv = Some mn ∧
    ((∃ b', s' = with_nss (insert (priv_mpath_ns priv)
                             (set_fq (fq_cong mn ++ [b']) true mn)) s) ∨
     (∃ x k, ctrls s !! ctrl mn = Some x ∧
        s' = with_ctrls (insert (ctrl mn)
                           (set_mpath_req_pool (Some (mempool_free k)) x))
               (with_ended (λ l, l ++ [completed_bio b]) s))).
Proof.
  unfold nvme_mpath_endio. destruct (bi_owner b) as [|priv] eqn:Hb; [done|].
  intros H. apply bind_Done in H as (mn & s1 & Hm & H).
  apply get_ns_Done in Hm as [Hm ->]. exists priv, mn. split; [done|]. split; [done|].
  destruct (_ && _) in H.
  - left. unfold nvme_mpath_retry_bio in H. cbn [bi_owner set_bio_owner] in H.
    mnorm_in H. cbn [priv_mpath_ns set_nr_retries] in H.
    apply bind_Done in H as (mn' & s1 & Hm' & H). apply get_ns_Done in Hm' as [Hm' ->].
    assert (mn' = mn) as -> by congruence. mnorm_in H.
    apply bind_Done in H as (c & s1 & Hc & H). apply get_ctrl_Done in Hc as [Hc ->].
    mnorm_in H. injection H as <-. by eexists.
  - right. mnorm_in H. apply mpath_req_pool_free_Done in H as (x & k & Hx & Hk & ->).
    exists x, k. split; [done|]. unfold completed_bio. by rewrite Hb.
Qed.

Lemma out_exit_mpath_request_Done b s s' :
  out_exit_mpath_request b s = Done tt s' →
  submitted s' = submitted s ∧ inflight s' = inflight s ∧ delayed s' = delayed s.
Proof.
  unfold out_exit_mpath_request, bio_endio. cbn [bi_owner set_bio_status].
  destruct (bi_owner b) as [|priv] eqn:Hb.
  - by intros [= <-].
  - intros H. apply nvme_mpath_endio_Done in H
      as (priv' & mn & _ & _ & [(b' & ->)|(x & k & _ & ->)]); done.
Qed.

(** X8: whenever [nvme_mpath_make_request] returns, it has issued no
    promotion request and scheduled no work, and it has submitted at most
    one bio: the caller's bio, to the block device of a member of the
    volume that has its active flag set, sits on a LIVE controller and is
    not REMOVING, while the volume itself is neither REMOVING nor failing
    over; in that case nothing is completed and no namespace changes. *)
Theorem nvme_mpath_make_request_submits_to_active s m b jiffies slab_ok s' :
  nvme_mpath_make_request m b jiffies slab_ok s = Done tt s' →
  inflight s' = inflight s ∧ delayed s' = delayed s ∧
  (submitted s' = submitted s ∨
   ∃ p n mn mc b',
     submitted s' = submitted s ++ [b'] ∧ ended s' = ended s ∧ nss s' = nss s ∧
     bi_id b' = bi_id b ∧ bi_bdev b' = bdev n ∧
     nss s !! m = Some mn ∧ ctrls s !! ctrl mn = Some mc ∧ p ∈ namespaces mc ∧
     nss s !! p = Some n ∧ active n = true ∧
     ctrl_field state s (ctrl n) = Some NVME_CTRL_LIVE ∧
     test_bit NVME_NS_REMOVING (ns_flags n) = false ∧
     test_bit NVME_NS_REMOVING (ns_flags mn) = false ∧
     test_bit NVME_NS_FO_IN_PROGRESS (ns_flags mn) = false).
Proof.
  unfold nvme_mpath_make_request. intros H.
  apply bind_Done in H as (mn & s1 & Hm & H). apply get_ns_Done in Hm as [Hm ->].
  destruct (test_bit NVME_NS_REMOVING (ns_flags mn)) eqn:Hrm.
  { apply out_exit_mpath_request_Done in H as (? & ? & ?). split; [done|]. split; [done|].
    by left. }
  apply bind_Done in H as (mc & s1 & Hmc & H). apply get_ctrl_Done in Hmc as [Hmc ->].
  destruct (mpath_req_pool mc) as [k|]; [|done].
  destruct (mempool_alloc k GFP_ATOMIC slab_ok) as [k'| |]; [| |done].
  2:{ apply out_exit_mpath_request_Done in H as (? & ? & ?). split; [done|].
      split; [done|]. by left. }
  mnorm_in H.
  set (s1 := with_ctrls (insert (ctrl mn) (set_mpath_req_pool (Some k') mc)) s) in H.
  apply bind_Done in H as (sent & s2 & Hscan & H).
  apply make_request_active_scan_Done in Hscan
    as [[-> ->]|(-> & p & n & mn' & c & b' & Hp & Hn & Hm' & Hrmn & Hfo & Hact & Hc
                 & Hlive & _ & Hpriv & ->)].
  - apply bind_Done in H as (r & s2 & Hsb & H).
    apply make_request_standby_scan_Done in Hsb as [-> _].
    assert (submitted s' = submitted s ∧ inflight s' = inflight s
            ∧ delayed s' = delayed s) as (? & ? & ?).
    { destruct r; by apply out_exit_mpath_request_Done in H. }
    split; [done|]. split; [done|]. by left.
  - injection H as <-. split; [done|]. split; [done|]. right.
    subst s1. cbn [nss ctrls with_ctrls] in Hn, Hm', Hc.
    assert (mn' = mn) as -> by congruence.
    apply nvme_mpath_priv_bio_Done in Hpriv as (_ & e & pr & _ & Hb').
    exists p, n, mn, mc, b'. repeat split; try done; try (by rewrite Hb').
    apply ctrl_field_Some.
    destruct (decide (ctrl n = ctrl mn)) as [Heq|Hne].
    + rewrite Heq, lookup_insert_eq in Hc. injection Hc as <-. exists mc.
      by rewrite Heq.
    + rewrite lookup_insert_ne in Hc by done. by exists c.
Qed.

End MakeRequestSafety.

Lemma nvme_mpath_make_request_submits_to_active_witness :
  let s := demo_state NVME_CTRL_LIVE [] in
  let s' := final_state
              (nvme_mpath_make_request (KC := linux_consts) 3 fresh_bio 100 true s) s in
  bi_bdev <$> submitted s' = [101%nat] ∧
  (submitted s' = submitted s ∨
   ∃ p n mn mc b',
     submitted s' = submitted s ++ [b'] ∧ ended s' = ended s ∧ nss s' = nss s ∧
     bi_id b' = bi_id fresh_bio ∧ bi_bdev b' = bdev n ∧
     nss s !! 3%nat = Some mn ∧ ctrls s !! ctrl mn = Some mc ∧ p ∈ namespaces mc ∧
     nss s !! p = Some n ∧ active n = true ∧
     ctrl_field state s (ctrl n) = Some NVME_CTRL_LIVE ∧
     test_bit (NVME_NS_REMOVING (kernel_consts := linux_consts)) (ns_flags n) = false ∧
     test_bit (NVME_NS_REMOVING (kernel_consts := linux_consts)) (ns_flags mn) = false ∧
     test_bit (NVME_NS_FO_IN_PROGRESS (kernel_consts := linux_consts)) (ns_flags mn)
       = false).
Proof.
  intros s s'. split; [by vm_compute|].
  apply (nvme_mpath_make_request_submits_to_active (KC := linux_consts)
           s 3 fresh_bio 100 true s').
  by vm_compute.
Defined.

(** ** A volume without a usable path *)

Section MakeRequestNoPath.
Context `{KC : kernel_consts}.

Lemma heap_ok_ctrl_frame s c x x' :
  ctrls s !! c = Some x → namespaces x' = namespaces x →
  heap_ok s → heap_ok (with_ctrls (insert c x') s).
Proof.
  intros Hc Hns [H1 H2]. split.
  - intros p n Hp. cbn [nss ctrls with_ctrls] in *.
    rewrite lookup_insert_is_Some. destruct (decide (c = ctrl n)); [by left|right].
    split; [done|]. by apply (H1 p n).
  - intros c' y Hy. cbn [nss ctrls with_ctrls] in *.
    apply lookup_insert_Some in Hy as [[<- <-]|[_ Hy]].
    + rewrite Hns. by apply (H2 c x).
    + by apply (H2 c' y).
Qed.

Lemma get_ns_state_frame n s s1 st :
  ctrl_field state s1 (ctrl n) = ctrl_field state s (ctrl n) →
  get_ns_state n s1 = Done st s1 → get_ns_state n s = Done st s.
Proof.
  unfold ctrl_field, get_ns_state, bind, get_ctrl. intros Hst.
  destruct (ctrls s1 !! ctrl n) as [c1|], (ctrls s !! ctrl n) as [c|];
    cbn in Hst; try done.
  injection Hst as ->.
  destruct (_ && _); [by intros [= <-]|]. destruct (_ && _); by intros [= <-].
Qed.

Lemma classified_frame s s1 p st :
  nss s1 = nss s →
  (∀ c, ctrl_field state s1 c = ctrl_field state s c) →
  classified s1 p st ↔ classified s p st.
Proof.
  intros Hn Hc. unfold classified. rewrite Hn. split.
  - intros (n & Hp & Hst). exists n. split; [done|].
    by apply (get_ns_state_frame n s s1).
  - intros (n & Hp & Hst). exists n. split; [done|].
    by apply (get_ns_state_frame n s1 s).
Qed.

Lemma make_request_active_scan_none m b jiffies l s mn :
  heap_ok s → nss s !! m = Some mn →
  (∀ p, p ∈ l → is_Some (nss s !! p)) →
  fo_in_progress mn = true ∨ Forall (λ p, ¬ active_path s p) l →
  make_request_active_scan m b jiffies l s = Done false s.
Proof.
  intros Hok Hm. induction l as [|p l IH]; intros Hl Hno; [done|].
  destruct (Hl p) as [n Hn]; [left|].
  assert (make_request_active_scan m b jiffies l s = Done false s) as Hrec.
  { apply IH; [intros q Hq; apply Hl; by right|].
    destruct Hno as [?|Hall]; [by left|right]. by apply Forall_cons in Hall as [_ ?]. }
  cbn [make_request_active_scan]. rewrite (bind_get_ns _ _ _ _ Hn).
  destruct (test_bit NVME_NS_REMOVING (ns_flags n)) eqn:Hrm; [done|].
  rewrite (bind_get_ns _ _ _ _ Hm).
  destruct (test_bit NVME_NS_FO_IN_PROGRESS (ns_flags mn)) eqn:Hfo; [done|].
  destruct Hno as [Hfo'|Hall]; [unfold fo_in_progress in Hfo'; congruence|].
  apply Forall_cons in Hall as [Hp _].
  destruct (proj1 Hok _ _ Hn) as [c Hc].
  destruct (get_ns_state_class s n c Hc) as (st & Hst & _).
  rewrite (bind_run _ _ _ _ _ Hst).
  destruct (Z.eqb_spec st NVME_NS_STATE_ACTIVE) as [->|_]; [|done].
  exfalso. apply Hp. split.
  - apply ns_field_Some. by exists n.
  - by exists n.
Qed.

Lemma make_request_standby_scan_skip m b jiffies l1 rest s :
  heap_ok s →
  (∀ p, p ∈ l1 → is_Some (nss s !! p)) →
  Forall (λ q, ¬ classified s q NVME_NS_STATE_STANDBY) l1 →
  make_request_standby_scan m b jiffies (l1 ++ rest) s =
    make_request_standby_scan m b jiffies rest s.
Proof.
  intros Hok. induction l1 as [|p l1 IH]; intros Hl Hall; [done|].
  destruct (Hl p) as [n Hn]; [left|].
  apply Forall_cons in Hall as [Hp Hall].
  cbn [app make_request_standby_scan]. rewrite (bind_get_ns _ _ _ _ Hn).
  destruct (proj1 Hok _ _ Hn) as [c Hc].
  destruct (get_ns_state_class s n c Hc) as (st & Hst & _).
  rewrite (bind_run _ _ _ _ _ Hst).
  destruct (Z.eqb_spec st NVME_NS_STATE_STANDBY) as [->|_].
  - exfalso. apply Hp. by exists n.
  - apply IH; [|done]. intros q Hq. apply Hl. by right.
Qed.

(** The two scans when no member can take the bio: the bio reaches
    [out_exit_mpath_request], with the shadow record of the first STANDBY
    member when there is one. *)
Lemma make_request_no_active_path s m mn mc k k' b end_io private jiffies slab_ok r :
  heap_ok s →
  nss s !! m = Some mn →
  test_bit NVME_NS_REMOVING (ns_flags mn) = false →
  ctrls s !! ctrl mn = Some mc →
  mpath_req_pool mc = Some k →
  mempool_alloc k GFP_ATOMIC slab_ok = mempool_elem k' →
  bi_owner b = owner_caller end_io private →
  fo_in_progress mn = true ∨ Forall (λ q, ¬ active_path s q) (namespaces mc) →
  first_such (λ q, classified s q NVME_NS_STATE_STANDBY) (namespaces mc) r →
  let s1 := with_ctrls (insert (ctrl mn) (set_mpath_req_pool (Some k') mc)) s in
  nvme_mpath_make_request m b jiffies slab_ok s =
    match r with
    | None => out_exit_mpath_request b s1
    | Some p =>
        match nss s !! p with
        | None => Fault
        | Some n =>
            bind (nvme_mpath_priv_bio b p (bdev n) m jiffies)
              out_exit_mpath_request s1
        end
    end.
Proof.
  intros Hok Hm Hrm Hmc Hk Halloc Hb Hno Hr s1.
  assert (heap_ok s1) as Hok1 by (by apply (heap_ok_ctrl_frame s (ctrl mn) mc)).
  assert (∀ c, ctrl_field state s1 c = ctrl_field state s c) as Hst.
  { intros c. by apply (ctrl_field_frame state s (ctrl mn) mc). }
  assert (∀ p st, classified s1 p st ↔ classified s p st) as Hcl.
  { intros p st. by apply classified_frame. }
  assert (∀ p, p ∈ namespaces mc → is_Some (nss s1 !! p)) as Hl.
  { intros p Hp. by apply (proj1 (Forall_forall _ _) (proj2 Hok _ _ Hmc)). }
  unfold nvme_mpath_make_request.
  rewrite (bind_get_ns _ _ _ _ Hm), Hrm, (bind_get_ctrl _ _ _ _ Hmc), Hk, Halloc.
  mnorm. fold s1.
  rewrite (bind_run _ _ _ _ _
             (make_request_active_scan_none m b jiffies (namespaces mc) s1 mn Hok1 Hm Hl
                ltac:(destruct Hno as [?|Hall]; [by left|right];
                      eapply Forall_impl; [exact Hall|];
                      intros q Hq [Hrq Hact]; apply Hq; split;
                      [exact Hrq|by apply Hcl]))).
  cbn beta iota.
  destruct r as [p|]; cbn [first_such] in Hr.
  - destruct Hr as (l1 & l2 & Hsplit & (n & Hn & Hsb) & Hall).
    rewrite Hn, Hsplit.
    unfold bind at 1.
    rewrite make_request_standby_scan_skip; [|done| |].
    2:{ intros q Hq. apply Hl. rewrite Hsplit. apply elem_of_app. by left. }
    2:{ eapply Forall_impl; [exact Hall|]. intros q Hq Hq'. by apply Hq, Hcl. }
    cbn [make_request_standby_scan].
    change (bind (bind (get_ns p) (λ n0,
              bind (get_ns_state n0) (λ st,
                if st =? NVME_NS_STATE_STANDBY
                then bind (nvme_mpath_priv_bio b p (bdev n0) m jiffies)
                          (λ b', ret (Some b'))
                else make_request_standby_scan m b jiffies l2)))
              (λ r, match r with
                    | Some b' => out_exit_mpath_request b'
                    | None => out_exit_mpath_request b
                    end) s1 =
            bind (nvme_mpath_priv_bio b p (bdev n) m jiffies)
              out_exit_mpath_request s1).
    mnorm. erewrite bind_get_ns by exact Hn. mnorm.
    assert (get_ns_state n s1 = Done NVME_NS_STATE_STANDBY s1) as Hsb1.
    { apply (get_ns_state_frame n s1 s); [by symmetry|done]. }
    rewrite (bind_run _ _ _ _ _ Hsb1). cbn [Z.eqb Pos.eqb NVME_NS_STATE_STANDBY].
    unfold nvme_mpath_priv_bio. rewrite Hb. mnorm. done.
  - rewrite <- (app_nil_r (namespaces mc)). unfold bind at 1.
    rewrite make_request_standby_scan_skip; [done|done| |].
    + intros q Hq. by apply Hl.
    + eapply Forall_impl; [exact Hr|]. intros q Hq Hq'. by apply Hq, Hcl.
Qed.

(** X9: when no member can take the bio (the volume is failing over, or
    no member that is not REMOVING is classified ACTIVE), some member is
    classified STANDBY and retries are allowed, [nvme_mpath_make_request]
    parks the bio: the bio gets the shadow record of the first STANDBY
    member with a budget of [nvme_max_retries - 1] and the status
    BLK_STS_IOERR, and is appended to the congestion queue of the volume,
    whose wait queue is marked active.  Nothing is submitted or completed,
    the pool element stays in use, and the shadow record still leads back
    to the submitter's block device, callback and cookie. *)
Theorem nvme_mpath_make_request_parks
    s m mn mc k k' b end_io private jiffies slab_ok p n :
  heap_ok s →
  nss s !! m = Some mn →
  test_bit NVME_NS_REMOVING (ns_flags mn) = false →
  ctrls s !! ctrl mn = Some mc →
  mpath_req_pool mc = Some k →
  mempool_alloc k GFP_ATOMIC slab_ok = mempool_elem k' →
  bi_owner b = owner_caller end_io private →
  fo_in_progress mn = true ∨ Forall (λ q, ¬ active_path s q) (namespaces mc) →
  first_such (λ q, classified s q NVME_NS_STATE_STANDBY) (namespaces mc) (Some p) →
  nss s !! p = Some n →
  0 < nvme_max_retries s →
  ∃ s' b' priv,
    nvme_mpath_make_request m b jiffies slab_ok s = Done tt s' ∧
    ns_field fq_cong s' m = Some (fq_cong mn ++ [b']) ∧
    ns_field fq_full s' m = Some true ∧
    submitted s' = submitted s ∧ ended s' = ended s ∧
    ctrl_field mpath_req_pool s' (ctrl mn) = Some (Some k') ∧
    bi_id b' = bi_id b ∧ bi_status b' = BLK_STS_IOERR ∧ bi_bdev b' = bdev n ∧
    bi_owner b' = owner_mpath priv ∧
    nr_retries priv = nvme_max_retries s - 1 ∧
    priv_ns priv = p ∧ priv_mpath_ns priv = m ∧
    bi_bdev (completed_bio b') = bi_bdev b ∧
    bi_owner (completed_bio b') = owner_caller end_io private.
Proof.
  intros Hok Hm Hrm Hmc Hk Halloc Hb Hno Hr Hn Hretries.
  rewrite (make_request_no_active_path s m mn mc k k' b end_io private jiffies slab_ok
             (Some p)) by done.
  rewrite Hn. unfold nvme_mpath_priv_bio. rewrite Hb. mnorm.
  cbn [nvme_max_retries with_ctrls].
  unfold out_exit_mpath_request, bio_endio, nvme_mpath_endio.
  cbn [bi_owner set_bio_status priv_mpath_ns bi_status nr_retries].
  erewrite bind_get_ns by (cbn [nss with_ctrls]; exact Hm).
  rewrite bool_decide_eq_true_2 by done. rewrite Hrm. cbn [negb andb].
  destruct (Z.ltb_spec 0 (nvme_max_retries s)); [|lia].
  unfold nvme_mpath_retry_bio. cbn [bi_owner set_bio_owner priv_mpath_ns set_nr_retries].
  mnorm. erewrite bind_get_ns by (cbn [nss with_ctrls]; exact Hm). mnorm.
  erewrite bind_get_ctrl by (cbn [ctrls with_ctrls]; apply lookup_insert_eq). mnorm.
  do 3 eexists. split; [reflexivity|].
  cbn [submitted ended with_nss with_ctrls].
  split; [unfold ns_field; cbn; by rewrite lookup_insert_eq|].
  split; [unfold ns_field; cbn; by rewrite lookup_insert_eq|].
  split; [done|]. split; [done|].
  split; [unfold ctrl_field; cbn; by rewrite lookup_insert_eq|].
  cbn. done.
Qed.

(** X10: when no member can take the bio and no member is classified
    STANDBY, [nvme_mpath_make_request] completes the bio once to its
    submitter with BLK_STS_IOERR; nothing is parked or submitted.  The
    shadow record taken from the pool is not given back: the reserve stays
    as the allocation left it, one element short when the backing
    allocator failed. *)
Theorem nvme_mpath_make_request_no_path
    s m mn mc k k' b end_io private jiffies slab_ok :
  heap_ok s →
  nss s !! m = Some mn →
  test_bit NVME_NS_REMOVING (ns_flags mn) = false →
  ctrls s !! ctrl mn = Some mc →
  mpath_req_pool mc = Some k →
  mempool_alloc k GFP_ATOMIC slab_ok = mempool_elem k' →
  bi_owner b = owner_caller end_io private →
  fo_in_progress mn = true ∨ Forall (λ q, ¬ active_path s q) (namespaces mc) →
  Forall (λ q, ¬ classified s q NVME_NS_STATE_STANDBY) (namespaces mc) →
  ∃ s', nvme_mpath_make_request m b jiffies slab_ok s = Done tt s' ∧
    ended s' = ended s ++ [set_bio_status BLK_STS_IOERR b] ∧
    nss s' = nss s ∧ submitted s' = submitted s ∧
    ctrl_field mpath_req_pool s' (ctrl mn) = Some (Some k') ∧
    (slab_ok = false → k' = k - 1).
Proof.
  intros Hok Hm Hrm Hmc Hk Halloc Hb Hno Hr.
  rewrite (make_request_no_active_path s m mn mc k k' b end_io private jiffies slab_ok
             None) by done.
  unfold out_exit_mpath_request, bio_endio. cbn [bi_owner set_bio_status]. rewrite Hb.
  eexists. split; [reflexivity|]. cbn. repeat split.
  - unfold ctrl_field. cbn. by rewrite lookup_insert_eq.
  - intros ->. unfold mempool_alloc in Halloc.
    destruct (0 <? k); [by injection Halloc as <-|done].
Qed.

End MakeRequestNoPath.

Lemma nvme_mpath_make_request_parks_witness :
  ∃ s' b' priv,
    nvme_mpath_make_request (KC := linux_consts) 3 fresh_bio 100 true
      (demo_state NVME_CTRL_RESETTING []) = Done tt s' ∧
    ns_field fq_cong s' 3 = Some [b'] ∧
    bi_owner b' = owner_mpath priv ∧ nr_retries priv = 4 ∧ priv_ns priv = 2%nat.
Proof.
  destruct (nvme_mpath_make_request_parks (KC := linux_consts)
              (demo_state NVME_CTRL_RESETTING []) 3
              (mk_ns 10 None false 4 0 103 [] false)
              (mk_ctrl NVME_CTRL_LIVE 1 [1; 2]%nat [3%nat] true (Some 0)) 0 0
              fresh_bio 7 70 100 true 2
              (mk_ns 12 (Some 10%nat) false 8 0 102 [] false))
    as (s' & b' & priv & Hrun & Hq & _ & _ & _ & _ & _ & _ & _ & Hown & Hr & Hp & _);
    try reflexivity.
  - compute_done.
  - right. repeat constructor.
    + intros [_ (n & Hn & Hst)]. vm_compute in Hn. simplify_eq.
    + intros [_ (n & Hn & Hst)]. vm_compute in Hn. simplify_eq.
  - exists [1%nat], []. split; [reflexivity|]. split.
    + eexists. split; reflexivity.
    + repeat constructor. intros (n & Hn & Hst). vm_compute in Hn. simplify_eq.
  - exists s', b', priv. done.
Defined.

Lemma nvme_mpath_make_request_no_path_witness :
  ∃ s', nvme_mpath_make_request (KC := linux_consts) 3 fresh_bio 100 true
          (two_path_state NVME_CTRL_RESETTING NVME_CTRL_RECONNECTING true false true [])
        = Done tt s' ∧
    ended s' = [set_bio_status BLK_STS_IOERR fresh_bio].
Proof.
  destruct (nvme_mpath_make_request_no_path (KC := linux_consts)
              (two_path_state NVME_CTRL_RESETTING NVME_CTRL_RECONNECTING true false true [])
              3 (mk_ns 10 None false 4 0 103 [] false)
              (mk_ctrl NVME_CTRL_LIVE 1 [1; 2]%nat [3%nat] true (Some 0)) 0 0
              fresh_bio 7 70 100 true)
    as (s' & Hrun & He & _); try reflexivity.
  - compute_done.
  - right. repeat constructor.
    + intros [_ (n & Hn & Hst)]. vm_compute in Hn. simplify_eq.
    + intros [_ (n & Hn & Hst)]. vm_compute in Hn. simplify_eq.
  - repeat constructor.
    + intros (n & Hn & Hst). vm_compute in Hn. simplify_eq.
    + intros (n & Hn & Hst). vm_compute in Hn. simplify_eq.
  - exists s'. done.
Defined.

(** ** The shadow record *)

Section ShadowRecord.
Context `{KC : kernel_consts}.

(** X11: the round trip of the shadow record.  [nvme_mpath_priv_bio]
    leaves the store alone and redirects the bio to the given block
    device; whatever the lower layers did to the bio since, and whatever is
    left of its retry budget, the bio that the drain task resubmits keeps
    its identity and has the sector, size, flags and segment counts the
    submitter gave it, a reset iterator, the status BLK_STS_OK and the
    block device of the member it is sent to; and once completed it goes
    back to the submitter's block device, callback and cookie. *)
Theorem shadow_record_round_trip s b end_io private p bd m jiffies b1 s1 :
  bi_owner b = owner_caller end_io private →
  nvme_mpath_priv_bio b p bd m jiffies s = Done b1 s1 →
  s1 = s ∧ bi_bdev b1 = bd ∧ bi_sector b1 = bi_sector b ∧ bi_size b1 = bi_size b ∧
  ∃ priv1, bi_owner b1 = owner_mpath priv1 ∧
    ∀ b2 r a abd b3,
      bi_owner b2 = owner_mpath (set_nr_retries r priv1) →
      resubmitted_as a abd b2 b3 →
      bi_id b3 = bi_id b2 ∧ bi_bdev b3 = abd ∧ bi_status b3 = BLK_STS_OK ∧
      bi_sector b3 = bi_sector b ∧ bi_size b3 = bi_size b ∧
      bi_flags b3 = bi_flags b ∧ bi_vcnt b3 = bi_vcnt b ∧
      bi_phys_segments b3 = bi_phys_segments b ∧
      bi_idx b3 = 0 ∧ bi_bvec_done b3 = 0 ∧
      bi_bdev (completed_bio b3) = bi_bdev b ∧
      bi_owner (completed_bio b3) = owner_caller end_io private.
Proof.
  intros Hb H. unfold nvme_mpath_priv_bio in H. rewrite Hb in H. mnorm_in H.
  injection H as <- <-. repeat split. eexists. split; [reflexivity|].
  intros b2 r a abd b3 Hb2 (priv & Hpriv & ->).
  rewrite Hb2 in Hpriv. injection Hpriv as <-. done.
Qed.

End ShadowRecord.

Lemma shadow_record_round_trip_witness :
  ∃ b1, nvme_mpath_priv_bio (KC := linux_consts) fresh_bio 1 101 3 100
          (demo_state NVME_CTRL_LIVE []) = Done b1 (demo_state NVME_CTRL_LIVE []) ∧
    bi_bdev b1 = 101%nat.
Proof.
  eexists. split; [reflexivity|].
  eapply (shadow_record_round_trip (KC := linux_consts) (demo_state NVME_CTRL_LIVE [])
            fresh_bio 7 70 1 101 3 100); reflexivity.
Defined.

(** ** The switch of the active member *)

Section FailoverSwitch.
Context `{KC : kernel_consts}.
Hypothesis FO_nonneg : 0 ≤ NVME_NS_FO_IN_PROGRESS.

Lemma scan_resolves_elem s l a sb :
  scan_resolves s l a sb →
  a ∈ l ∧ sb ∈ l ∧ ns_field active s a = Some true ∧ ns_field active s sb = Some false.
Proof.
  intros (l1 & p & l2 & -> & [(Hall & Hp & -> & Hlast)|(Hall & Hp & Hlast & ->)]).
  - apply last_Some in Hlast as (l' & ->).
    apply Forall_app in Hall as [_ Hsb]. apply Forall_cons in Hsb as [Hsb _].
    repeat split; try done.
    + apply elem_of_app. right. left.
    + apply elem_of_app. left. apply elem_of_app. right. left.
  - apply last_Some in Hlast as (l' & ->).
    apply Forall_app in Hall as [_ Ha]. apply Forall_cons in Ha as [Ha _].
    repeat split; try done.
    + apply elem_of_app. left. apply elem_of_app. right. left.
    + apply elem_of_app. right. left.
Qed.

(** X12: a call of [nvme_trigger_failover] that reaches the member scan,
    finds an active member [a] and a standby [sb], and is not within the
    failover interval.  [a] loses its active flag and takes the clock as
    its timestamp, the aggregate controller of [a] is marked not settled,
    and, with at most one member active before, no member of the volume is
    active afterwards.  When the promotion request can be issued it is in
    flight for [sb] with NVME_FAILOVER_RETRIES and the volume keeps
    FAILOVER_IN_PROGRESS; when it cannot, the flag is cleared again and
    [cu_work] is scheduled [HZ] later, and [a] stays demoted.  No other
    object changes, nothing is submitted or completed, and the state of
    the controller of [sb] plays no part. *)
Theorem nvme_trigger_failover_switches
    s c g m l a sb jiffies alloc_err mn an ag agc t :
  heap_ok s →
  reaches_scan s c g m l →
  scan_resolves s l a sb →
  at_most_one_active s l →
  nss s !! m = Some mn →
  nss s !! a = Some an → a ≠ m →
  mpath_ctrl an = Some ag → ctrls s !! ag = Some agc →
  ns_field start_time s sb = Some t →
  uint (ns_failover_interval s * HZ) ≤ ulong (jiffies - t) →
  ∃ s', nvme_trigger_failover c jiffies alloc_err s = Done tt s' ∧
    nss s' !! a = Some (set_start_time jiffies (set_active false an)) ∧
    ctrls s' !! ag = Some (set_cleanup_done false agc) ∧
    (∀ p, p ≠ a → p ≠ m → nss s' !! p = nss s !! p) ∧
    (∀ d, d ≠ ag → ctrls s' !! d = ctrls s !! d) ∧
    (∀ p, p ∈ l → ns_field active s' p ≠ Some true) ∧
    submitted s' = submitted s ∧ ended s' = ended s ∧
    if alloc_err =? 0 then
      inflight s' = inflight s ++ [mk_failover_data sb m NVME_FAILOVER_RETRIES] ∧
      nss s' !! m =
        Some (set_ns_flags (set_bit NVME_NS_FO_IN_PROGRESS (ns_flags mn)) mn) ∧
      delayed s' = delayed s
    else
      inflight s' = inflight s ∧ nss s' !! m = Some mn ∧
      delayed s' = delayed (with_cu_work g s).
Proof.
  intros Hok Hreach Hscan Hone Hm Ha Ham Hag Hagc Ht Hlate.
  pose proof Hreach as (Hres & Hcd & mn' & mc & Hm' & Hfo & Hroot & Hmc & Hl).
  assert (mn' = mn) as -> by congruence.
  destruct (scan_resolves_elem s l a sb Hscan) as (Hal & Hsbl & Haact & Hsbact).
  destruct (failover_locked_scan FO_nonneg s c g m l jiffies alloc_err mn Hreach Hm)
    as [_ ->].
  set (mn1 := set_ns_flags (set_bit NVME_NS_FO_IN_PROGRESS (ns_flags mn)) mn).
  set (s0 := with_fo_set m mn s).
  assert (∀ {B} (f : nvme_ns → B) q, (∀ v n, f (set_ns_flags v n) = f n) →
            ns_field f s0 q = ns_field f s q) as Hframe.
  { intros B f q Hf. by apply ns_field_with_fo_set. }
  assert (nss s0 !! m = Some mn1) as Hm0 by apply lookup_insert_eq.
  assert (nss s0 !! a = Some an) as Ha0.
  { subst s0. unfold with_fo_set. cbn [nss with_nss]. by rewrite lookup_insert_ne. }
  assert (heap_ok s0) as Hok0 by (by apply (heap_ok_frame s m mn)).
  destruct (failover_scan_resolved g m jiffies alloc_err l a sb s0) as [Hne ->].
  { apply (scan_resolves_frame s); [|done]. intros q. by apply Hframe. }
  assert (ns_field start_time s0 sb = Some t) as Ht0 by (by rewrite Hframe).
  apply ns_field_Some in Ht0 as (sbn & Hsb0 & Hst).
  destruct (proj1 Hok0 _ _ Hsb0) as [sbc Hsbc].
  apply ctrl_field_Some in Hcd as (gc & Hg & Hcd).
  (* the state after the demotion of [a] *)
  set (s3 := with_nss (insert a (set_start_time jiffies (set_active false an)))
               (with_nss (insert a (set_active false an))
                  (with_ctrls (insert ag (set_cleanup_done false agc)) s0))).
  assert (nss s3 !! sb = Some sbn) as Hsb3.
  { subst s3. cbn [nss with_nss with_ctrls]. by rewrite !lookup_insert_ne. }
  assert (nss s3 !! m = Some mn1) as Hm3.
  { subst s3. cbn [nss with_nss with_ctrls]. by rewrite !lookup_insert_ne. }
  assert (∃ sbc3, ctrls s3 !! ctrl sbn = Some sbc3) as [sbc3 Hsbc3].
  { subst s3. cbn [ctrls with_nss with_ctrls]. apply lookup_insert_is_Some.
    destruct (decide (ag = ctrl sbn)); [by left|right]. split; [done|by eexists]. }
  assert (∃ gc3, ctrls s3 !! g = Some gc3) as [gc3 Hg3].
  { subst s3. cbn [ctrls with_nss with_ctrls]. apply lookup_insert_is_Some.
    destruct (decide (ag = g)); [by left|right]. split; [done|by eexists]. }
  assert (failover_pair g m jiffies alloc_err a sb s0 =
          Done tt (if alloc_err =? 0
                   then with_inflight
                          (λ q, q ++ [mk_failover_data sb m NVME_FAILOVER_RETRIES]) s3
                   else with_delayed
                          (λ q, if bool_decide (cu_work g ∈ q.*1) then q
                                else q ++ [(cu_work g, HZ)])
                          (with_nss (insert m mn) s3))) as Hrun.
  { unfold failover_pair. rewrite bool_decide_eq_false_2 by done.
    rewrite (bind_get_ns _ _ _ _ Hsb0), bind_gets.
    change (ns_failover_interval s0) with (ns_failover_interval s). rewrite Hst.
    destruct (Z.ltb_spec (ulong (jiffies - t)) (uint (ns_failover_interval s * HZ)));
      [lia|].
    rewrite (bind_get_ns _ _ _ _ Ha0), Hag. mnorm.
    unfold modify_ctrl. mnorm.
    erewrite bind_get_ctrl by (subst s0; cbn [ctrls with_fo_set with_nss]; exact Hagc).
    mnorm. unfold modify_ns. mnorm.
    erewrite bind_get_ns by (cbn [nss with_ctrls]; exact Ha0). mnorm.
    erewrite bind_get_ns by (cbn [nss with_nss with_ctrls]; apply lookup_insert_eq).
    mnorm. cbn [set_active]. fold s3.
    destruct (Z.eqb_spec alloc_err 0) as [->|He].
    - rewrite (bind_run _ _ _ _ _ (nvme_set_ns_active_ok s3 sb m _ sbn sbc3 Hsb3 Hsbc3)).
      done.
    - rewrite (bind_run _ _ _ _ _
                 (nvme_set_ns_active_err s3 sb m _ _ sbn sbc3 Hsb3 Hsbc3 He)).
      destruct (Z.eqb_spec alloc_err 0) as [|_]; [done|]. cbn [negb]. mnorm.
      rewrite (bind_run _ _ _ _ _ (test_and_clear_bit_ns_run _ m _ _ Hm3)). mnorm.
      erewrite bind_get_ctrl by (cbn [ctrls with_nss]; exact Hg3).
      unfold schedule_delayed_work, modify. do 3 f_equal.
      subst mn1. cbn [ns_flags set_ns_flags].
      rewrite clear_set_bit; [|done|exact Hfo]. by destruct mn. }
  rewrite Hrun. eexists. split; [reflexivity|].
  assert (∀ p, p ∈ l → ns_field active s3 p ≠ Some true) as Hnone.
  { intros p Hp Hact. subst s3. unfold ns_field in Hact.
    cbn [nss with_nss with_ctrls] in Hact.
    destruct (decide (p = a)) as [->|Hpa].
    - rewrite lookup_insert_eq in Hact. done.
    - rewrite !lookup_insert_ne in Hact by done.
      fold (ns_field active s0 p) in Hact. rewrite Hframe in Hact by done.
      apply Hpa. apply Hone; try done.
      + apply ns_field_Some in Hact as (n & Hn & Hna). by exists n.
      + by exists an; split; [|apply ns_field_Some in Haact as (? & ? & ?); congruence]. }
  destruct (Z.eqb_spec alloc_err 0) as [->|He].
  - cbn [nss ctrls submitted ended inflight delayed with_inflight].
    split; [subst s3; cbn [nss with_nss with_ctrls]; apply lookup_insert_eq|].
    split; [subst s3; cbn [ctrls with_nss with_ctrls]; apply lookup_insert_eq|].
    split.
    { intros p Hpa Hpm. subst s3 s0. unfold with_fo_set.
      cbn [nss with_nss with_ctrls]. by rewrite !lookup_insert_ne. }
    split.
    { intros d Hd. subst s3 s0. unfold with_fo_set.
      cbn [ctrls with_nss with_ctrls]. by rewrite lookup_insert_ne. }
    split; [exact Hnone|]. done.
  - cbn [nss ctrls submitted ended inflight delayed with_delayed with_nss].
    split; [rewrite lookup_insert_ne by done; subst s3; cbn [nss with_nss with_ctrls];
            apply lookup_insert_eq|].
    split; [subst s3; cbn [ctrls with_nss with_ctrls]; apply lookup_insert_eq|].
    split.
    { intros p Hpa Hpm. subst s3 s0. unfold with_fo_set.
      cbn [nss with_nss with_ctrls]. by rewrite !lookup_insert_ne. }
    split.
    { intros d Hd. subst s3 s0. unfold with_fo_set.
      cbn [ctrls with_nss with_ctrls]. by rewrite lookup_insert_ne. }
    split.
    { intros p Hp Hact. apply (Hnone p Hp). unfold ns_field in *.
      cbn [nss with_nss with_delayed] in Hact.
      destruct (decide (p = m)) as [->|Hpm].
      - rewrite lookup_insert_eq in Hact. rewrite Hm3. by subst mn1.
      - by rewrite lookup_insert_ne in Hact. }
    split; [done|]. split; [done|]. split; [done|].
    split; [apply lookup_insert_eq|done].
Qed.

(** X13: when the call reaches the member scan and every member of the
    non-empty list is active, so that there is no standby, it returns with
    the whole state as it was: FAILOVER_IN_PROGRESS is released, nothing is
    demoted, issued or scheduled. *)
Theorem nvme_trigger_failover_no_standby s c g m l jiffies alloc_err :
  reaches_scan s c g m l →
  l ≠ [] →
  Forall (λ q, ns_field active s q = Some true) l →
  nvme_trigger_failover c jiffies alloc_err s = Done tt s.
Proof.
  intros Hreach Hl Hall.
  pose proof Hreach as (Hres & Hcd & mn & mc & Hm & Hfo & Hroot & Hmc & Hleq).
  destruct (failover_locked_scan FO_nonneg s c g m l jiffies alloc_err mn Hreach Hm)
    as [_ ->].
  rewrite <- (app_nil_r l). rewrite failover_scan_skip_active.
  - destruct (last l) as [x|] eqn:Hlast.
    + cbn [failover_scan].
      assert (nss (with_fo_set m mn s) !! m =
                Some (set_ns_flags (set_bit NVME_NS_FO_IN_PROGRESS (ns_flags mn)) mn))
        as Hm1 by apply lookup_insert_eq.
      rewrite (bind_run _ _ _ _ _ (test_and_clear_bit_ns_run _ m _ _ Hm1)).
      by rewrite (with_fo_set_clear FO_nonneg).
    + apply last_None in Hlast. done.
  - eapply Forall_impl; [exact Hall|]. intros q Hq.
    by rewrite ns_field_with_fo_set.
Qed.

End FailoverSwitch.

(** ** Early returns and the completion of a promotion *)

Section FailoverGuards.
Context `{KC : kernel_consts}.

Lemma failover_child_scan_inactive l mc0 ns0 s :
  Forall (λ p, ns_field active s p = Some false) l →
  failover_child_scan l mc0 ns0 s =
    Done (match last l with
          | Some p => (default None (ns_field mpath_ctrl s p), Some p)
          | None => (mc0, ns0)
          end) s.
Proof.
  revert mc0 ns0. induction l as [|p l IH]; intros mc0 ns0 Hall; [done|].
  apply Forall_cons in Hall as [Hp Hall].
  apply ns_field_Some in Hp as (n & Hn & Ha).
  cbn [failover_child_scan]. rewrite (bind_get_ns _ _ _ _ Hn), Ha.
  rewrite IH by done. rewrite last_cons. destruct (last l); [done|].
  unfold ns_field. by rewrite Hn.
Qed.

(** X14: [nvme_trigger_failover] changes nothing when the controller is
    not a MPATH_CHILD, and when none of its namespaces is active and the
    last of them has a settled aggregate controller, or has none, or the
    controller has no namespace at all. *)
Theorem nvme_trigger_failover_not_needed s c x jiffies alloc_err :
  ctrls s !! c = Some x →
  test_bit NVME_CTRL_MPATH_CHILD (ctrl_flags x) = false ∨
  (Forall (λ p, ns_field active s p = Some false) (namespaces x) ∧
   ∀ p g, last (namespaces x) = Some p → ns_field mpath_ctrl s p = Some (Some g) →
          ctrl_field cleanup_done s g = Some true) →
  nvme_trigger_failover c jiffies alloc_err s = Done tt s.
Proof.
  intros Hc Hcase. unfold nvme_trigger_failover. rewrite (bind_get_ctrl _ _ _ _ Hc).
  destruct Hcase as [->|[Hall Hsettled]]; [done|].
  destruct (test_bit NVME_CTRL_MPATH_CHILD (ctrl_flags x)); cbn [negb]; [|done].
  rewrite (bind_run _ _ _ _ _ (failover_child_scan_inactive _ None None s Hall)).
  destruct (last (namespaces x)) as [p|] eqn:Hlast; cbn [fst snd]; [|done].
  destruct (ns_field mpath_ctrl s p) as [[g|]|] eqn:Hpar; cbn [default fst snd];
    [|done|done].
  assert (ns_field active s p = Some false) as Hp.
  { apply (proj1 (Forall_forall _ _) Hall). apply last_Some in Hlast as (l' & ->).
    apply elem_of_app. right. left. }
  apply ns_field_Some in Hp as (n & Hn & Ha).
  specialize (Hsettled p g eq_refl Hpar).
  apply ctrl_field_Some in Hsettled as (gc & Hg & Hcd).
  change (id (Some g)) with (Some g).
  unfold failover_not_needed. mnorm. rewrite (bind_get_ns _ _ _ _ Hn), Ha. mnorm.
  by rewrite (bind_get_ctrl _ _ _ _ Hg), Hcd.
Qed.

(** X15: [nvme_ns_active_end_io], the completion of a promotion request,
    clears FAILOVER_IN_PROGRESS on the volume in both cases and leaves the
    other requests in flight alone.  On success the standby gets the
    active flag and its aggregate controller is marked settled; nothing is
    scheduled.  On error the standby and the aggregate controller stay as
    they are and [cu_work] is scheduled [HZ] later.  The retry count that
    the request carries is never read: the outcome is the same for every
    count, so the handler does not retry a failed promotion. *)
Theorem nvme_ns_active_end_io_effect s r error sbn g gc sbc mn :
  0 ≤ NVME_NS_FO_IN_PROGRESS →
  nss s !! standby_ns r = Some sbn →
  mpath_ctrl sbn = Some g →
  ctrls s !! g = Some gc →
  ctrls s !! ctrl sbn = Some sbc →
  nss s !! fo_mpath_ns r = Some mn →
  standby_ns r ≠ fo_mpath_ns r →
  ∃ s', nvme_ns_active_end_io r error s = Done tt s' ∧
    (∀ k, nvme_ns_active_end_io
            (mk_failover_data (standby_ns r) (fo_mpath_ns r) k) error s = Done tt s') ∧
    ns_field fo_in_progress s' (fo_mpath_ns r) = Some false ∧
    inflight s' = inflight s ∧
    (∀ p, p ≠ standby_ns r → p ≠ fo_mpath_ns r → nss s' !! p = nss s !! p) ∧
    (∀ d, d ≠ g → ctrls s' !! d = ctrls s !! d) ∧
    if bool_decide (error = BLK_STS_OK) then
      nss s' !! standby_ns r = Some (set_active true sbn) ∧
      ctrls s' !! g = Some (set_cleanup_done true gc) ∧
      delayed s' = delayed s
    else
      nss s' !! standby_ns r = Some sbn ∧
      ctrls s' !! g = Some gc ∧
      delayed s' = delayed (with_cu_work g s).
Proof.
  intros Hnn Hsb Hpar Hg Hsbc Hm Hne.
  assert (∀ v, test_bit NVME_NS_FO_IN_PROGRESS
                 (clear_bit NVME_NS_FO_IN_PROGRESS v) = false) as Hclr.
  { intros v. rewrite test_bit_clear_bit by done.
    by rewrite bool_decide_eq_true_2. }
  assert (∀ k, nvme_ns_active_end_io
                 (mk_failover_data (standby_ns r) (fo_mpath_ns r) k) error s =
               nvme_ns_active_end_io r error s) as Hk by (by destruct r).
  unfold nvme_ns_active_end_io in *. setoid_rewrite Hk. clear Hk.
  rewrite (bind_get_ns _ _ _ _ Hsb), Hpar.
  destruct (decide (error = BLK_STS_OK)) as [->|Herr].
  - rewrite (bool_decide_eq_false_2 (BLK_STS_OK ≠ BLK_STS_OK)) by (by intros ?).
    rewrite bool_decide_eq_true_2 by done.
    unfold modify_ns, modify_ctrl. mnorm.
    rewrite (bind_get_ns _ _ _ _ Hsb). mnorm.
    erewrite bind_get_ctrl by (cbn [ctrls with_nss]; exact Hg). mnorm.
    assert (∃ c', <[g:=set_cleanup_done true gc]> (ctrls s) !! ctrl sbn = Some c')
      as [c' Hc'].
    { apply lookup_insert_is_Some. destruct (decide (g = ctrl sbn)); [by left|right].
      split; [done|by eexists]. }
    erewrite bind_get_ctrl by (cbn [ctrls with_nss with_ctrls ctrl set_active]; exact Hc').
    mnorm.
    set (s2 := with_ctrls (insert g (set_cleanup_done true gc))
                 (with_nss (insert (standby_ns r) (set_active true sbn)) s)).
    assert (nss s2 !! fo_mpath_ns r = Some mn) as Hm1.
    { subst s2. cbn [nss with_nss with_ctrls]. by rewrite lookup_insert_ne. }
    rewrite (bind_run _ _ _ _ _
               (test_and_clear_bit_ns_run NVME_NS_FO_IN_PROGRESS (fo_mpath_ns r) s2 mn Hm1)).
    subst s2. eexists. split; [reflexivity|]. split; [done|].
    cbn [nss ctrls inflight delayed with_nss with_ctrls].
    split; [unfold ns_field, fo_in_progress; cbn [nss with_nss];
            rewrite lookup_insert_eq; cbn; by rewrite Hclr|].
    split; [done|].
    split; [intros p Hp1 Hp2; by rewrite !lookup_insert_ne|].
    split; [intros d Hd; by rewrite lookup_insert_ne|].
    split; [rewrite lookup_insert_ne by done; apply lookup_insert_eq|].
    split; [apply lookup_insert_eq|done].
  - rewrite (bool_decide_eq_true_2 (error ≠ BLK_STS_OK)) by done.
    rewrite bool_decide_eq_false_2 by done. mnorm.
    rewrite (bind_get_ctrl _ _ _ _ Hsbc). mnorm.
    rewrite (bind_run _ _ _ _ _ (test_and_clear_bit_ns_run _ _ _ _ Hm)). mnorm.
    erewrite bind_get_ctrl by (cbn [ctrls with_nss]; exact Hg).
    eexists. split; [reflexivity|]. split; [done|].
    cbn [nss ctrls inflight delayed with_nss with_ctrls with_delayed with_cu_work].
    split; [unfold ns_field, fo_in_progress; cbn [nss with_nss with_delayed];
            rewrite lookup_insert_eq; cbn; by rewrite Hclr|].
    split; [done|].
    split; [intros p Hp1 Hp2; by rewrite lookup_insert_ne|].
    split; [done|].
    split; [by rewrite lookup_insert_ne|]. done.
Qed.

End FailoverGuards.

Lemma nvme_trigger_failover_switches_witness :
  ∃ s', nvme_trigger_failover (KC := linux_consts) 11 100000 0
          (demo_state NVME_CTRL_LIVE []) = Done tt s' ∧
    nss s' !! 1%nat = Some (mk_ns 11 (Some 10%nat) false 8 100000 101 [] false) ∧
    inflight s' = [mk_failover_data 2 3 NVME_FAILOVER_RETRIES].
Proof.
  destruct (nvme_trigger_failover_switches (KC := linux_consts) ltac:(done)
              (demo_state NVME_CTRL_LIVE []) 11 10 3 [1; 2]%nat 1 2 100000 0
              (mk_ns 10 None false 4 0 103 [] false)
              (mk_ns 11 (Some 10%nat) true 8 0 101 [] false) 10
              (mk_ctrl NVME_CTRL_LIVE 1 [1; 2]%nat [3%nat] true (Some 0)) 0)
    as (s' & Hrun & Ha & _ & _ & _ & _ & _ & _ & Hi & _); try reflexivity.
  - compute_done.
  - apply demo_reaches_scan.
  - exists [1%nat], 2%nat, []. split; [reflexivity|]. right.
    repeat split; try reflexivity. by repeat constructor.
  - intros p q Hp Hq (np & Hnp & Hap) (nq & Hnq & Haq).
    apply elem_of_cons in Hp as [->|Hp]; apply elem_of_cons in Hq as [->|Hq];
      try done;
      repeat match goal with
             | H : _ ∈ [_] |- _ => apply list_elem_of_singleton in H; subst
             end;
      vm_compute in Hnp, Hnq; simplify_eq.
  - done.
  - by vm_compute.
  - exists s'. done.
Defined.

Lemma nvme_trigger_failover_no_standby_witness :
  nvme_trigger_failover (KC := linux_consts) 11 100000 0
    (two_path_state NVME_CTRL_LIVE NVME_CTRL_LIVE true true true [])
  = Done tt (two_path_state NVME_CTRL_LIVE NVME_CTRL_LIVE true true true []).
Proof.
  apply (nvme_trigger_failover_no_standby (KC := linux_consts) ltac:(done)
           (two_path_state NVME_CTRL_LIVE NVME_CTRL_LIVE true true true [])
           11 10 3 [1; 2]%nat 100000 0).
  - split; [|split; [reflexivity|]].
    + exists (mk_ctrl NVME_CTRL_LIVE 2 [1%nat] [] true None), (Some 1%nat),
        (mk_ctrl NVME_CTRL_LIVE 1 [1; 2]%nat [3%nat] true (Some 0)), [].
      repeat split; reflexivity.
    + exists (mk_ns 10 None false 4 0 103 [] false),
        (mk_ctrl NVME_CTRL_LIVE 1 [1; 2]%nat [3%nat] true (Some 0)).
      repeat split; reflexivity.
  - done.
  - by repeat constructor.
Defined.

Lemma nvme_trigger_failover_not_needed_witness :
  nvme_trigger_failover (KC := linux_consts) 12 100000 0 (demo_state NVME_CTRL_LIVE [])
  = Done tt (demo_state NVME_CTRL_LIVE []).
Proof.
  apply (nvme_trigger_failover_not_needed (KC := linux_consts)
           (demo_state NVME_CTRL_LIVE []) 12
           (mk_ctrl NVME_CTRL_LIVE 2 [2%nat] [] true None)); [reflexivity|].
  right. split; [by repeat constructor|].
  intros p g [= <-] [= <-]. reflexivity.
Defined.

Lemma nvme_ns_active_end_io_effect_witness :
  ∃ s', nvme_ns_active_end_io (KC := linux_consts)
          (mk_failover_data 2 3 NVME_FAILOVER_RETRIES) BLK_STS_IOERR
          (with_inflight (λ _, []) demo_failing_over) = Done tt s' ∧
    ns_field active s' 1 = Some false ∧ ns_field active s' 2 = Some false ∧
    ns_field (fo_in_progress (KC := linux_consts)) s' 3 = Some false ∧
    delayed s' = [(cu_work 10, 1000)].
Proof.
  destruct (nvme_ns_active_end_io_effect (KC := linux_consts)
              (with_inflight (λ _, []) demo_failing_over)
              (mk_failover_data 2 3 NVME_FAILOVER_RETRIES) BLK_STS_IOERR
              (mk_ns 12 (Some 10%nat) false 8 0 102 [] false) 10
              (mk_ctrl NVME_CTRL_LIVE 1 [1; 2]%nat [3%nat] false (Some 0))
              (mk_ctrl NVME_CTRL_LIVE 2 [2%nat] [] true None)
              (mk_ns 10 None false 20 0 103 [] false))
    as (s' & Hrun & _ & Hfo & _ & Hns & _ & Hsb & _ & Hd); try (by vm_compute).
  exists s'. split; [exact Hrun|].
  split; [unfold ns_field; rewrite Hns by done; by vm_compute|].
  cbn [standby_ns fo_mpath_ns] in Hsb.
  split; [unfold ns_field; by rewrite Hsb|].
  split; [exact Hfo|]. rewrite Hd. by vm_compute.
Defined.

(** ** What the engine leaves alone *)

Section EngineFrame.
Context `{KC : kernel_consts}.
Hypothesis FO_nonneg : 0 ≤ NVME_NS_FO_IN_PROGRESS.

Lemma engine_frame_refl s : engine_frame s s.
Proof. done. Qed.

Lemma engine_frame_trans s1 s2 s3 :
  engine_frame s1 s2 → engine_frame s2 s3 → engine_frame s1 s3.
Proof.
  intros (H1 & H2 & H3 & H4) (H1' & H2' & H3' & H4').
  repeat split; congruence.
Qed.

Lemma engine_frame_store_ns s p n n' :
  nss s !! p = Some n → ns_frame n' = ns_frame n →
  engine_frame s (with_nss (insert p n') s).
Proof.
  intros Hp Hf. repeat split. cbn [nss with_nss].
  by apply (fmap_insert_same ns_frame _ p n).
Qed.

Lemma engine_frame_store_ctrl s c x x' :
  ctrls s !! c = Some x → ctrl_frame x' = ctrl_frame x →
  engine_frame s (with_ctrls (insert c x') s).
Proof.
  intros Hc Hf. repeat split. cbn [ctrls with_ctrls].
  by apply (fmap_insert_same ctrl_frame _ c x).
Qed.

Lemma clear_bit_set_bit nr v : 0 ≤ nr → clear_bit nr (set_bit nr v) = clear_bit nr v.
Proof.
  intros Hnr. apply Z.bits_inj'. intros k Hk.
  change (test_bit k (clear_bit nr (set_bit nr v)) = test_bit k (clear_bit nr v)).
  rewrite !test_bit_clear_bit, test_bit_set_bit by done.
  by case_bool_decide.
Qed.

Lemma clear_bit_idemp nr v : 0 ≤ nr → clear_bit nr (clear_bit nr v) = clear_bit nr v.
Proof.
  intros Hnr. apply Z.bits_inj'. intros k Hk.
  change (test_bit k (clear_bit nr (clear_bit nr v)) = test_bit k (clear_bit nr v)).
  rewrite !test_bit_clear_bit by done.
  by case_bool_decide.
Qed.

Lemma engine_frame_set_flag s m mn :
  nss s !! m = Some mn →
  engine_frame s (with_nss (insert m (set_ns_flags
                    (set_bit NVME_NS_FO_IN_PROGRESS (ns_flags mn)) mn)) s).
Proof.
  intros Hm. apply (engine_frame_store_ns s m mn); [done|].
  unfold ns_frame. cbn. by rewrite clear_bit_set_bit.
Qed.

Lemma engine_frame_clear_flag s m mn :
  nss s !! m = Some mn →
  engine_frame s (with_nss (insert m (set_ns_flags
                    (clear_bit NVME_NS_FO_IN_PROGRESS (ns_flags mn)) mn)) s).
Proof.
  intros Hm. apply (engine_frame_store_ns s m mn); [done|].
  unfold ns_frame. cbn. by rewrite clear_bit_idemp.
Qed.

Lemma failover_pair_frame g m jiffies alloc_err a sb s s' :
  failover_pair g m jiffies alloc_err a sb s = Done tt s' → engine_frame s s'.
Proof.
  intros H. unfold failover_pair in H.
  case_bool_decide as Heq.
  { apply bind_Done in H as (b & s1 & Hclr & H). injection H as <-.
    apply test_and_clear_bit_ns_Done in Hclr as (mn & Hm & ->).
    by apply engine_frame_clear_flag. }
  apply bind_Done in H as (sbn & s1 & Hsbn & H). apply get_ns_Done in Hsbn as [Hsbn ->].
  mnorm_in H.
  destruct (_ <? _) in H.
  { apply bind_Done in H as (b & s1 & Hclr & H).
    apply test_and_clear_bit_ns_Done in Hclr as (mn & Hm & ->).
    apply bind_Done in H as (gc & s1 & Hg & H). apply get_ctrl_Done in Hg as [_ ->].
    unfold schedule_delayed_work, modify in H. injection H as <-.
    by apply (engine_frame_clear_flag s m mn). }
  apply bind_Done in H as (an & s1 & Han & H). apply get_ns_Done in Han as [Han ->].
  apply bind_Done in H as (u & s1 & Hcd & H).
  destruct (mpath_ctrl an) as [ag|] eqn:Hag; [|done].
  apply modify_ctrl_Done in Hcd as (x & Hx & ->).
  apply bind_Done in H as (u1 & s2 & Hdem & H).
  apply modify_ns_Done in Hdem as (an1 & Han1 & ->).
  apply bind_Done in H as (u2 & s3 & Hst & H).
  apply modify_ns_Done in Hst as (an2 & Han2 & ->).
  set (s1 := with_ctrls _ s) in *. set (s2 := with_nss _ s1) in *.
  set (s3 := with_nss _ s2) in *.
  assert (engine_frame s s3) as Hf3.
  { apply (engine_frame_trans _ s1); [by apply (engine_frame_store_ctrl s ag x)|].
    apply (engine_frame_trans _ s2); [by apply (engine_frame_store_ns s1 a an1)|].
    by apply (engine_frame_store_ns s2 a an2). }
  apply bind_Done in H as (rc & s4 & Hset & H).
  apply nvme_set_ns_active_Done in Hset as [[Hrc ->]|[-> ->]].
  - destruct (Z.eqb_spec rc 0) as [|_]; [done|]. cbn [negb] in H.
    apply bind_Done in H as (b & s5 & Hclr & H).
    apply test_and_clear_bit_ns_Done in Hclr as (mn & Hm & ->).
    apply bind_Done in H as (gc & s5 & Hg & H). apply get_ctrl_Done in Hg as [_ ->].
    unfold schedule_delayed_work, modify in H. injection H as <-.
    apply (engine_frame_trans _ s3); [done|].
    by apply (engine_frame_clear_flag s3 m mn).
  - cbn in H. injection H as <-. exact Hf3.
Qed.

Lemma failover_locked_frame g m jiffies alloc_err s s' :
  failover_locked g m jiffies alloc_err s = Done tt s' → engine_frame s s'.
Proof.
  intros H. unfold failover_locked in H.
  apply bind_Done in H as (gc & s1 & Hg & H). apply get_ctrl_Done in Hg as [Hg ->].
  destruct (cleanup_done gc) eqn:Hcd; cbn [negb] in H.
  - apply bind_Done in H as (mn & s1 & Hm & H). apply get_ns_Done in Hm as [Hm ->].
    destruct (test_bit NVME_NS_ROOT (ns_flags mn)); [|by injection H as <-].
    apply bind_Done in H as (mc & s1 & Hmc & H). apply get_ctrl_Done in Hmc as [Hmc ->].
    apply (failover_scan_Done g m jiffies alloc_err _ (namespaces mc)) in H; try done.
    destruct H as [->|[(mn' & Hm' & ->)|(a & sb & _ & _ & _ & Hpair)]].
    + done.
    + by apply engine_frame_clear_flag.
    + by apply (failover_pair_frame g m jiffies alloc_err a sb).
  - cbn [nvme_update_active] in H. mnorm_in H.
    apply bind_Done in H as (mn & s1 & Hm & H). apply get_ns_Done in Hm as [Hm ->].
    mnorm_in H.
    apply bind_Done in H as (mc & s1 & Hmc & H). apply get_ctrl_Done in Hmc as [Hmc ->].
    mnorm_in H.
    apply bind_Done in H as (found & s1 & Hscan & H).
    apply update_active_scan_Done in Hscan as [-> Hin].
    destruct found as [p|]; mnorm_in H.
    + apply bind_Done in H as (rc & s1 & Hset & H).
      apply nvme_set_ns_active_Done in Hset as [[Hrc ->]|[-> ->]].
      * destruct (Z.eqb_spec rc 0) as [|_]; [done|]. cbn [negb] in H.
        mnorm_in H.
        apply bind_Done in H as (b & s1 & Hclr & H).
        apply test_and_clear_bit_ns_Done in Hclr as (mn' & Hm' & ->).
        cbn in H. injection H as <-.
        by apply (engine_frame_clear_flag s m mn').
      * cbn in H. injection H as <-. done.
    + apply bind_Done in H as (b & s1 & Hclr & H).
      apply test_and_clear_bit_ns_Done in Hclr as (mn' & Hm' & ->).
      cbn in H. injection H as <-. by apply engine_frame_clear_flag.
Qed.

Lemma nvme_trigger_failover_frame c jiffies alloc_err s s' :
  nvme_trigger_failover c jiffies alloc_err s = Done tt s' → engine_frame s s'.
Proof.
  intros H. unfold nvme_trigger_failover in H.
  apply bind_Done in H as (x & s1 & Hx & H). apply get_ctrl_Done in Hx as [Hx ->].
  destruct (test_bit NVME_CTRL_MPATH_CHILD (ctrl_flags x)); cbn [negb] in H;
    [|by injection H as <-].
  apply bind_Done in H as (r & s1 & Hscan & H).
  apply failover_child_scan_Done in Hscan as [-> _].
  destruct (r.1) as [g|]; [|by injection H as <-].
  apply bind_Done in H as (skip & s1 & Hskip & H).
  apply failover_not_needed_Done in Hskip as ->.
  destruct skip; [by injection H as <-|].
  apply bind_Done in H as (gc & s1 & Hg & H). apply get_ctrl_Done in Hg as [Hg ->].
  destruct (mpath_namespace gc) as [|m ml]; [done|].
  apply bind_Done in H as (old & s1 & Hset & H).
  apply test_and_set_bit_ns_Done in Hset as (mn & Hm & -> & ->).
  pose proof (engine_frame_set_flag s m mn Hm) as Hf.
  destruct (test_bit NVME_NS_FO_IN_PROGRESS (ns_flags mn)).
  { by injection H as <-. }
  apply (engine_frame_trans _ _ _ Hf).
  by apply (failover_locked_frame g m jiffies alloc_err).
Qed.

Lemma nvme_ns_active_end_io_frame r error s s' :
  nvme_ns_active_end_io r error s = Done tt s' → engine_frame s s'.
Proof.
  intros H. unfold nvme_ns_active_end_io in H.
  apply bind_Done in H as (sb & s1 & Hsb & H). apply get_ns_Done in Hsb as [Hsb ->].
  apply bind_Done in H as (u & s1 & Hfirst & H).
  case_bool_decide as Herr.
  - apply bind_Done in Hfirst as (c & s2 & Hc & Hfirst).
    apply get_ctrl_Done in Hc as [_ ->]. injection Hfirst as _ <-.
    apply bind_Done in H as (b & s1 & Hclr & H).
    apply test_and_clear_bit_ns_Done in Hclr as (mn & Hm & ->).
    destruct (mpath_ctrl sb) as [g|]; [|done].
    apply bind_Done in H as (gc & s1 & Hg & H). apply get_ctrl_Done in Hg as [_ ->].
    unfold schedule_delayed_work, modify in H. injection H as <-.
    by apply (engine_frame_clear_flag s _ mn).
  - apply bind_Done in Hfirst as (u1 & s2 & Hact & Hfirst).
    apply modify_ns_Done in Hact as (sb' & Hsb' & ->).
    apply bind_Done in Hfirst as (u2 & s2 & Hcd & Hfirst).
    destruct (mpath_ctrl sb) as [g|]; [|done].
    apply modify_ctrl_Done in Hcd as (x & Hx & ->).
    apply bind_Done in Hfirst as (c & s2 & Hc & Hfirst).
    apply get_ctrl_Done in Hc as [_ ->]. injection Hfirst as _ <-.
    apply bind_Done in H as (b & s1 & Hclr & H).
    apply test_and_clear_bit_ns_Done in Hclr as (mn & Hm & ->).
    injection H as <-.
    set (s1 := with_nss _ s) in *. set (s2 := with_ctrls _ s1) in *.
    apply (engine_frame_trans _ s1); [by apply (engine_frame_store_ns s _ sb')|].
    apply (engine_frame_trans _ s2); [by apply (engine_frame_store_ctrl s1 g x)|].
    by apply (engine_frame_clear_flag s2 _ mn).
Qed.

(** X16: a call of [nvme_trigger_failover] and a completion through
    [nvme_ns_active_end_io] never change the state, the flags, the member
    list, the volume list or the pool of a controller, nor the controller,
    the parent, the block device, the queue or any flag bit other than
    FAILOVER_IN_PROGRESS of a namespace, and they submit and complete no
    bio. *)
Theorem failover_engine_footprint s s' :
  (∃ c jiffies alloc_err, nvme_trigger_failover c jiffies alloc_err s = Done tt s') ∨
  (∃ r error, nvme_ns_active_end_io r error s = Done tt s') →
  engine_frame s s' ∧
  (∀ c, ctrl_field state s' c = ctrl_field state s c) ∧
  (∀ c, ctrl_field namespaces s' c = ctrl_field namespaces s c) ∧
  (∀ p, ns_field fq_cong s' p = ns_field fq_cong s p) ∧
  (∀ p, ns_field mpath_ctrl s' p = ns_field mpath_ctrl s p).
Proof.
  intros H.
  assert (engine_frame s s') as Hf.
  { destruct H as [(c & j & e & H)|(r & error & H)].
    - by apply (nvme_trigger_failover_frame c j e).
    - by apply (nvme_ns_active_end_io_frame r error). }
  split; [done|]. destruct Hf as (Hc & Hn & _).
  assert (∀ c, ctrl_frame <$> ctrls s' !! c = ctrl_frame <$> ctrls s !! c) as Hc'.
  { intros c. by rewrite <- !lookup_fmap, Hc. }
  assert (∀ p, ns_frame <$> nss s' !! p = ns_frame <$> nss s !! p) as Hn'.
  { intros p. by rewrite <- !lookup_fmap, Hn. }
  repeat split.
  - intros c. specialize (Hc' c). unfold ctrl_field.
    destruct (ctrls s' !! c), (ctrls s !! c); unfold ctrl_frame in *;
      simplify_eq/=; congruence.
  - intros c. specialize (Hc' c). unfold ctrl_field.
    destruct (ctrls s' !! c), (ctrls s !! c); unfold ctrl_frame in *;
      simplify_eq/=; congruence.
  - intros p. specialize (Hn' p). unfold ns_field.
    destruct (nss s' !! p), (nss s !! p); unfold ns_frame in *;
      simplify_eq/=; congruence.
  - intros p. specialize (Hn' p). unfold ns_field.
    destruct (nss s' !! p), (nss s !! p); unfold ns_frame in *;
      simplify_eq/=; congruence.
Qed.

Lemma fo_step_ctrl_state s s' c st :
  fo_step s s' → ctrl_field state s c = Some st →
  ∃ st', ctrl_field state s' c = Some st' ∧
         (st' = st ∨ ctrl_state_changed st st' = true).
Proof.
  intros Hstep Hst.
  assert (engine_frame s s' → ∃ st', ctrl_field state s' c = Some st' ∧
            (st' = st ∨ ctrl_state_changed st st' = true)) as Hframe.
  { intros (Hc & _). exists st. split; [|by left].
    assert (ctrl_frame <$> ctrls s' !! c = ctrl_frame <$> ctrls s !! c) as Hc'
      by (by rewrite <- !lookup_fmap, Hc).
    unfold ctrl_field in *.
    destruct (ctrls s' !! c), (ctrls s !! c); unfold ctrl_frame in *;
      simplify_eq/=; congruence. }
  revert Hst Hframe.
  destruct Hstep as [c0 j e s1 s2 H|l1 r l2 error s1 s2 Hfl H|c0 new b s1 s2 H];
    intros Hst Hframe.
  - apply Hframe. by apply (nvme_trigger_failover_frame c0 j e).
  - apply Hframe. by apply (nvme_ns_active_end_io_frame r error) in H.
  - unfold nvme_change_ctrl_state in H.
    apply bind_Done in H as (x & s3 & Hx & H). apply get_ctrl_Done in Hx as [Hx ->].
    destruct (ctrl_state_changed (state x) new) eqn:Hch; cbn in H;
      injection H as _ <-; [|exists st; split; [done|by left]].
    unfold ctrl_field in *. cbn [ctrls with_ctrls].
    destruct (decide (c = c0)) as [->|Hne].
    + rewrite lookup_insert_eq. rewrite Hx in Hst. cbn in *. injection Hst as <-.
      exists new. split; [done|by right].
    + rewrite lookup_insert_ne by done. exists st. split; [done|by left].
Qed.

(** X17: along any run of the engine (calls of [nvme_trigger_failover],
    completions of promotion requests, calls of [nvme_change_ctrl_state])
    a controller stays in the store; a DEAD controller stays DEAD; a
    DELETING controller stays DELETING or becomes DEAD; no controller
    enters NEW; and a controller that is LIVE at the end was neither
    DELETING nor DEAD at the start. *)
Theorem ctrl_state_lifecycle s s' c st :
  rtc fo_step s s' →
  ctrl_field state s c = Some st →
  ∃ st', ctrl_field state s' c = Some st' ∧
    (st = NVME_CTRL_DEAD → st' = NVME_CTRL_DEAD) ∧
    (st = NVME_CTRL_DELETING → st' = NVME_CTRL_DELETING ∨ st' = NVME_CTRL_DEAD) ∧
    (st' = NVME_CTRL_NEW → st = NVME_CTRL_NEW) ∧
    (st' = NVME_CTRL_LIVE → st ≠ NVME_CTRL_DELETING ∧ st ≠ NVME_CTRL_DEAD).
Proof.
  intros Hsteps. revert st.
  induction Hsteps as [s|s s1 s2 Hstep _ IH]; intros st Hst.
  - exists st. split; [done|]. split; [done|]. split; [by left|]. split; [done|].
    by intros ->.
  - destruct (fo_step_ctrl_state s s1 c st Hstep Hst) as (st1 & Hst1 & Hrel).
    destruct (IH st1 Hst1) as (st2 & Hst2 & H1 & H2 & H3 & H4).
    exists st2. split; [done|].
    destruct Hrel as [->|Hch]; [done|].
    destruct st, st1; try discriminate Hch;
      (split; [intros Heq; try discriminate Heq; by apply H1|]);
      (split; [intros Heq; try discriminate Heq; right; by apply H1|]);
      (split; [intros Heq; apply H3 in Heq; discriminate Heq|]);
      intros Heq; apply H4 in Heq as [? ?]; split; congruence.
Qed.

End EngineFrame.

Lemma failover_engine_footprint_witness :
  engine_frame (KC := linux_consts) (demo_state NVME_CTRL_LIVE []) demo_failing_over ∧
  ctrl_field state demo_failing_over 11 = Some NVME_CTRL_LIVE.
Proof.
  destruct (failover_engine_footprint (KC := linux_consts) ltac:(done)
              (demo_state NVME_CTRL_LIVE []) demo_failing_over) as (Hf & Hst & _).
  - left. exists 11%nat, 100000, 0. by vm_compute.
  - split; [exact Hf|]. by rewrite Hst.
Defined.

Lemma ctrl_state_lifecycle_witness :
  let s := demo_state NVME_CTRL_DELETING [] in
  let s' := final_state
              (nvme_change_ctrl_state 11 NVME_CTRL_DEAD s) s in
  ∃ st', ctrl_field state s' 11 = Some st' ∧
    (NVME_CTRL_DELETING = NVME_CTRL_DEAD → st' = NVME_CTRL_DEAD) ∧
    (NVME_CTRL_DELETING = NVME_CTRL_DELETING →
     st' = NVME_CTRL_DELETING ∨ st' = NVME_CTRL_DEAD) ∧
    (st' = NVME_CTRL_NEW → NVME_CTRL_DELETING = NVME_CTRL_NEW) ∧
    (st' = NVME_CTRL_LIVE →
     NVME_CTRL_DELETING ≠ NVME_CTRL_DELETING ∧ NVME_CTRL_DELETING ≠ NVME_CTRL_DEAD).
Proof.
  intros s s'.
  apply (ctrl_state_lifecycle (KC := linux_consts) ltac:(done) s s' 11
           NVME_CTRL_DELETING).
  - apply rtc_once. apply (step_change_ctrl_state 11 NVME_CTRL_DEAD true).
    by vm_compute.
  - reflexivity.
Defined.

(** ** What the drain task leaves alone *)

Section DrainFrame.
Context `{KC : kernel_consts}.

Lemma drain_frame_refl s : drain_frame s s.
Proof.
  repeat split; [|by left]. exists []. by rewrite app_nil_r.
Qed.

Lemma drain_frame_trans s1 s2 s3 :
  drain_frame s1 s2 → drain_frame s2 s3 → drain_frame s1 s3.
Proof.
  intros (Hc & He & Hi & Hd & [l Hs] & Hn) (Hc' & He' & Hi' & Hd' & [l' Hs'] & Hn').
  repeat split; try congruence.
  - exists (l ++ l'). by rewrite Hs', Hs, app_assoc.
  - intros p. destruct (Hn p) as [Hp|(n & Hp & Hp2)], (Hn' p) as [Hp'|(n' & Hp' & Hp2')].
    + left. congruence.
    + right. exists n'. split; congruence.
    + right. exists n. split; congruence.
    + right. exists n. split; [done|]. rewrite Hp2', Hp2 in *. by simplify_eq.
Qed.

Lemma resubmit_loop_Done a bd l s s' :
  resubmit_loop a bd l s = Done tt s' →
  ∃ l', s' = with_submitted (λ x, x ++ l') s.
Proof.
  revert s. induction l as [|b l IH]; intros s.
  - intros [= <-]. exists []. by rewrite with_submitted_nil.
  - cbn [resubmit_loop]. destruct (bi_owner b) as [|priv]; [done|].
    unfold generic_make_request. mnorm. intros H.
    apply IH in H as (l' & ->). eexists. by rewrite with_submitted_app.
Qed.

Lemma nvme_mpath_resubmit_bios_frame m s s' :
  nvme_mpath_resubmit_bios m s = Done tt s' → drain_frame s s'.
Proof.
  unfold nvme_mpath_resubmit_bios. intros H.
  apply bind_Done in H as (mn & s1 & Hm & H). apply get_ns_Done in Hm as [Hm ->].
  apply bind_Done in H as (mc & s1 & Hc & H). apply get_ctrl_Done in Hc as [Hc ->].
  destruct (test_bit NVME_NS_FO_IN_PROGRESS (ns_flags mn));
    [injection H as <-; apply drain_frame_refl|].
  case_bool_decide; [injection H as <-; apply drain_frame_refl|].
  apply bind_Done in H as (r & s1 & Hr & H). apply get_ns_active_ro in Hr as ->.
  destruct r as [a|]; [|injection H as <-; apply drain_frame_refl].
  apply bind_Done in H as (an & s1 & Ha & H). apply get_ns_Done in Ha as [Ha ->].
  destruct (_ || _) in H; [injection H as <-; apply drain_frame_refl|].
  destruct (test_bit NVME_NS_REMOVING (ns_flags mn)) in H;
    [injection H as <-; apply drain_frame_refl|].
  case_bool_decide; [injection H as <-; apply drain_frame_refl|].
  mnorm_in H. apply resubmit_loop_Done in H as (l' & ->).
  repeat split.
  - by exists l'.
  - intros p. cbn [nss with_nss with_submitted].
    destruct (decide (p = m)) as [->|Hne].
    + right. exists mn. split; [done|apply lookup_insert_eq].
    + left. by rewrite lookup_insert_ne.
Qed.

Lemma kthread_ns_loop_drain l s s' :
  kthread_ns_loop l s = Done tt s' → drain_frame s s'.
Proof.
  revert s. induction l as [|m l IH]; intros s H.
  - injection H as <-. apply drain_frame_refl.
  - cbn [kthread_ns_loop] in H.
    apply bind_Done in H as (mn & s1 & Hm & H). apply get_ns_Done in Hm as [Hm ->].
    apply bind_Done in H as ([] & s1 & Hres & H).
    apply (drain_frame_trans _ s1); [|by apply IH].
    destruct (fq_full mn); [|injection Hres as <-; apply drain_frame_refl].
    by apply (nvme_mpath_resubmit_bios_frame m).
Qed.

Lemma kthread_ctrl_loop_drain l s s' :
  kthread_ctrl_loop l s = Done tt s' → drain_frame s s'.
Proof.
  revert s. induction l as [|g l IH]; intros s H.
  - injection H as <-. apply drain_frame_refl.
  - cbn [kthread_ctrl_loop] in H.
    apply bind_Done in H as (gc & s1 & Hg & H). apply get_ctrl_Done in Hg as [Hg ->].
    apply bind_Done in H as ([] & s1 & Hloop & H).
    apply (drain_frame_trans _ s1); [|by apply IH].
    by apply (kthread_ns_loop_drain (mpath_namespace gc)).
Qed.

(** X18: a pass of the drain task ([nvme_mpath_kthread] running
    [nvme_mpath_resubmit_bios]) changes no controller, completes no bio,
    issues no request and schedules no work; it only appends to the bios
    submitted and empties congestion queues.  Every namespace is as it was
    or has its queue emptied and its wait queue inactive: no active flag
    and no flag bit changes, and no queue gains a bio. *)
Theorem nvme_mpath_kthread_wake_footprint s s' :
  nvme_mpath_kthread_wake s = Done tt s' →
  drain_frame s s' ∧
  (∀ p, ns_field active s' p = ns_field active s p) ∧
  (∀ p, ns_field ns_flags s' p = ns_field ns_flags s p) ∧
  (∀ p q, ns_field fq_cong s' p = Some q → q = [] ∨ ns_field fq_cong s p = Some q).
Proof.
  intros H. unfold nvme_mpath_kthread_wake in H. mnorm_in H.
  apply kthread_ctrl_loop_drain in H. split; [done|].
  destruct H as (_ & _ & _ & _ & _ & Hn).
  repeat split.
  - intros p. unfold ns_field.
    destruct (Hn p) as [->|(n & -> & ->)]; done.
  - intros p. unfold ns_field.
    destruct (Hn p) as [->|(n & -> & ->)]; done.
  - intros p q. unfold ns_field.
    destruct (Hn p) as [->|(n & -> & ->)]; [by right|].
    cbn. intros [= <-]. by left.
Qed.

End DrainFrame.

Lemma nvme_mpath_kthread_wake_footprint_witness :
  let s := demo_state NVME_CTRL_LIVE [parked_bio] in
  let s' := final_state (nvme_mpath_kthread_wake (KC := linux_consts) s) s in
  drain_frame s s' ∧ ns_field fq_cong s' 3 = Some [] ∧ length (submitted s') = 1%nat.
Proof.
  intros s s'. split; [|by vm_compute].
  apply (nvme_mpath_kthread_wake_footprint (KC := linux_consts) s s').
  by vm_compute.
Defined.

(** ** The wake of the drain task *)

Section DrainWake.
Context `{KC : kernel_consts}.

Lemma drain_frame_lookup s t p n :
  drain_frame s t → nss s !! p = Some n →
  ∃ n', nss t !! p = Some n' ∧ (n' = n ∨ n' = set_fq [] false n).
Proof.
  intros (_ & _ & _ & _ & _ & Hn) Hp.
  destruct (Hn p) as [Hq|(n0 & Hq & Hq')].
  - exists n. split; [congruence|by left].
  - exists (set_fq [] false n). split; [congruence|by right].
Qed.

Lemma drain_frame_lookup_inv s t p n' :
  drain_frame s t → nss t !! p = Some n' →
  ∃ n, nss s !! p = Some n ∧ (n' = n ∨ n' = set_fq [] false n).
Proof.
  intros (_ & _ & _ & _ & _ & Hn) Hp.
  destruct (Hn p) as [Hq|(n0 & Hq & Hq')].
  - exists n'. split; [congruence|by left].
  - exists n0. split; [done|right; congruence].
Qed.

Lemma heap_ok_drain_frame s t : drain_frame s t → heap_ok s → heap_ok t.
Proof.
  intros Hfr [H1 H2]. pose proof Hfr as (Hc & _). split.
  - intros p n' Hp. rewrite Hc.
    destruct (drain_frame_lookup_inv s t p n' Hfr Hp) as (n & Hn & [->| ->]);
      by apply (H1 p n).
  - intros c x Hx. rewrite Hc in Hx.
    eapply Forall_impl; [apply (H2 c x Hx)|].
    intros p [n Hn]. cbn beta.
    destruct (drain_frame_lookup s t p n Hfr Hn) as (n' & -> & _). done.
Qed.

Lemma get_ns_state_drain s t n st :
  ctrls t = ctrls s → get_ns_state n s = Done st s → get_ns_state n t = Done st t.
Proof.
  unfold get_ns_state, bind, get_ctrl. intros ->.
  destruct (ctrls s !! ctrl n) as [c|]; [|done].
  destruct (_ && _); [by intros [= <-]|]. destruct (_ && _); by intros [= <-].
Qed.

Lemma get_ns_active_scan_drain s t l r :
  drain_frame s t →
  get_ns_active_scan l s = Done r s → get_ns_active_scan l t = Done r t.
Proof.
  intros Hfr. pose proof Hfr as (Hc & _).
  induction l as [|p l IH]; [by intros [= <-]|].
  cbn [get_ns_active_scan]. intros H.
  apply bind_Done in H as (n & s1 & Hn & H). apply get_ns_Done in Hn as [Hn ->].
  apply bind_Done in H as (st & s1 & Hst & H).
  pose proof (get_ns_state_ro _ _ _ _ Hst) as ->.
  destruct (drain_frame_lookup s t p n Hfr Hn) as (n' & Hn' & Hcase).
  rewrite (bind_get_ns _ _ _ _ Hn').
  assert (get_ns_state n' t = Done st t) as Hst'.
  { apply (get_ns_state_drain s); [done|]. by destruct Hcase as [->| ->]. }
  rewrite (bind_run _ _ _ _ _ Hst').
  assert (ns_flags n' = ns_flags n) as -> by (by destruct Hcase as [->| ->]).
  destruct (_ && _); [by injection H as <-|by apply IH].
Qed.

Lemma get_ns_active_drain s t m r :
  drain_frame s t →
  get_ns_active m s = Done r s → get_ns_active m t = Done r t.
Proof.
  intros Hfr. pose proof Hfr as (Hc & _). unfold get_ns_active. intros H.
  apply bind_Done in H as (mn & s1 & Hm & H). apply get_ns_Done in Hm as [Hm ->].
  apply bind_Done in H as (mc & s1 & Hmc & H). apply get_ctrl_Done in Hmc as [Hmc ->].
  destruct (drain_frame_lookup s t m mn Hfr Hm) as (mn' & Hm' & Hcase).
  rewrite (bind_get_ns _ _ _ _ Hm').
  assert (ctrl mn' = ctrl mn) as -> by (by destruct Hcase as [->| ->]).
  rewrite <- Hc in Hmc. rewrite (bind_get_ctrl _ _ _ _ Hmc).
  by apply (get_ns_active_scan_drain s).
Qed.

Lemma get_ns_active_drain_inv s t m r :
  heap_ok s → drain_frame s t → is_Some (nss s !! m) →
  get_ns_active m t = Done r t → get_ns_active m s = Done r s.
Proof.
  intros Hok Hfr [mn Hm] Ht.
  destruct (proj1 Hok _ _ Hm) as [mc Hmc].
  destruct (get_ns_active_run s m mn mc Hok Hm Hmc) as (r' & Hr' & _).
  pose proof (get_ns_active_drain s t m r' Hfr Hr') as Ht'.
  rewrite Ht in Ht'. by injection Ht' as <-.
Qed.

Lemma drain_ready_functional s m a a' :
  drain_ready s m a → drain_ready s m a' → a = a'.
Proof.
  intros (? & ? & ? & _ & _ & H & _) (? & ? & ? & _ & _ & H' & _).
  rewrite H in H'. by injection H'.
Qed.

Lemma nvme_mpath_resubmit_bios_exact s m mn mc :
  heap_ok s → nss s !! m = Some mn → ctrls s !! ctrl mn = Some mc →
  Forall has_shadow_record (fq_cong mn) →
  ∃ r, get_ns_active m s = Done r s ∧
       first_such (active_multipath s) (namespaces mc) r ∧
    match r with
    | None => nvme_mpath_resubmit_bios m s = Done tt s
    | Some a =>
        ∃ an l', nss s !! a = Some an ∧
          Forall2 (resubmitted_as a (bdev an)) (fq_cong mn) l' ∧
          nvme_mpath_resubmit_bios m s =
            Done tt (if drain_tests mn mc an
                     then with_submitted (λ x, x ++ l')
                            (with_nss (insert m (set_fq [] false mn)) s)
                     else s)
    end.
Proof.
  intros Hok Hm Hc Hall.
  destruct (get_ns_active_run s m mn mc Hok Hm Hc) as (r & Hr & Hf).
  exists r. split; [done|]. split; [done|].
  unfold nvme_mpath_resubmit_bios.
  rewrite (bind_get_ns _ _ _ _ Hm), (bind_get_ctrl _ _ _ _ Hc).
  destruct r as [a|].
  - destruct Hf as (l1 & l2 & Hl & [(an & Ha & _) _] & _).
    destruct (resubmit_loop_run a (bdev an) (fq_cong mn)
                (with_nss (insert m (set_fq [] false mn)) s) Hall)
      as (l' & Hl' & Hrun).
    exists an, l'. split; [done|]. split; [done|].
    unfold drain_tests, fo_in_progress.
    destruct (test_bit NVME_NS_FO_IN_PROGRESS (ns_flags mn)); [done|].
    case_bool_decide as Hnil; [rewrite Hnil in Hl; by destruct l1|].
    rewrite (bind_run _ _ _ _ _ Hr), (bind_get_ns _ _ _ _ Ha).
    destruct (test_bit NVME_NS_REMOVING (ns_flags an)); [done|].
    destruct (cleanup_done mc); [|done].
    destruct (test_bit NVME_NS_REMOVING (ns_flags mn)); [done|].
    cbn [negb andb orb].
    case_bool_decide; [done|]. cbn [negb]. mnorm. exact Hrun.
  - destruct (test_bit _ _); [done|]. case_bool_decide; [done|].
    by rewrite (bind_run _ _ _ _ _ Hr).
Qed.

Lemma drained_to_frame s t t1 m a :
  drained_to s t m a → drain_frame t t1 → drained_to s t1 m a.
Proof.
  intros (mn & an & l' & pre & post & Hm & Ha & Hl' & Hm' & Hsub) Hfr.
  destruct (drain_frame_lookup t t1 m _ Hfr Hm') as (n' & Hn' & Hcase).
  destruct Hfr as (_ & _ & _ & _ & [l Hl] & _).
  exists mn, an, l', pre, (post ++ l). repeat split; try done.
  - rewrite Hn'. by destruct Hcase as [->| ->].
  - rewrite Hl, Hsub. by rewrite <- !app_assoc.
Qed.


Lemma drain_output_mono (V V' : nat → Prop) s b :
  (∀ m, V m → V' m) → drain_output V s b → drain_output V' s b.
Proof.
  intros HV (m & a & mn & an & b0 & Hm & H). exists m, a, mn, an, b0.
  split; [by apply HV|done].
Qed.

Lemma drain_pass_ext (V V' : nat → Prop) s t :
  (∀ m, V m ↔ V' m) → drain_pass V s t → drain_pass V' s t.
Proof.
  intros HV (Hfr & H2 & H3 & l & Hl & Hout). split; [done|]. split; [|split].
  - intros m. destruct (H2 m) as [Hm|(a & Hm & Ha)]; [by left|right].
    exists a. split; [by apply HV|done].
  - intros m a Hm. apply H3. by apply HV.
  - exists l. split; [done|]. eapply Forall_impl; [exact Hout|].
    intros b. apply drain_output_mono. intros m. apply HV.
Qed.

Lemma drain_pass_refl s : drain_pass (λ _, False) s s.
Proof.
  split; [apply drain_frame_refl|]. split; [by left|]. split; [done|].
  exists []. split; [by rewrite app_nil_r|constructor].
Qed.

(** A volume on which the pass has nothing left to do joins [V]. *)
Lemma drain_pass_add (V : nat → Prop) s t m :
  drain_pass V s t →
  (∀ a, drain_pending s m a → drained_to s t m a) →
  drain_pass (λ x, V x ∨ x = m) s t.
Proof.
  intros (Hfr & H2 & H3 & l & Hl & Hout) Hm. split; [done|]. split; [|split].
  - intros x. destruct (H2 x) as [Hx|(a & Hx & Ha)]; [by left|right].
    exists a. split; [by left|done].
  - intros x a [Hx| ->]; [by apply H3|apply Hm].
  - exists l. split; [done|]. eapply Forall_impl; [exact Hout|].
    intros b. apply drain_output_mono. intros x. by left.
Qed.

Lemma kthread_ns_step (V : nat → Prop) s t m :
  heap_ok s →
  map_Forall (λ _ n, Forall has_shadow_record (fq_cong n)) (nss s) →
  is_Some (nss s !! m) →
  drain_pass V s t →
  ∃ t1, (mn <- get_ns m ;;
         if fq_full mn then nvme_mpath_resubmit_bios m else ret tt) t = Done tt t1 ∧
        drain_pass (λ x, V x ∨ x = m) s t1.
Proof.
  intros Hok Hsh [mn Hm] Hpass. pose proof Hpass as (Hfr & H2 & H3 & l0 & Hsub & Hout).
  pose proof Hfr as (Hc & _).
  destruct (drain_frame_lookup s t m mn Hfr Hm) as (mn' & Hm' & Hcase).
  rewrite (bind_get_ns _ _ _ _ Hm').
  destruct (fq_full mn') eqn:Hfull.
  2:{ exists t. split; [done|]. apply drain_pass_add; [done|].
      intros a [Hf Hready]. destruct (H2 m) as [Heq|(a' & _ & [_ Hr'] & Hd)].
      - rewrite Hm', Hm in Heq. injection Heq as ->.
        apply ns_field_Some in Hf as (n & Hn & Hf). congruence.
      - by rewrite (drain_ready_functional s m a a' Hready Hr'). }
  assert (mn' = mn) as -> by (by destruct Hcase as [->| ->]).
  destruct (proj1 Hok _ _ Hm) as [mc Hmc].
  assert (ctrls t !! ctrl mn = Some mc) as Hmc' by (by rewrite Hc).
  destruct (nvme_mpath_resubmit_bios_exact t m mn mc) as (r & Hr & _ & Hrun);
    [by apply (heap_ok_drain_frame s)|done|done|by apply (Hsh m mn)|].
  pose proof (get_ns_active_drain_inv s t m r Hok Hfr ltac:(by exists mn) Hr) as Hrs.
  destruct r as [a0|].
  2:{ exists t. split; [done|]. apply drain_pass_add; [done|].
      intros a [_ (? & ? & ? & _ & _ & Hact & _)]. rewrite Hact in Hrs. done. }
  destruct Hrun as (an' & l' & Ha' & Hl' & Hrun).
  destruct (drain_frame_lookup_inv s t a0 an' Hfr Ha') as (an & Ha & Hancase).
  assert (drain_tests mn mc an' = drain_tests mn mc an ∧ bdev an' = bdev an)
    as [Htests Hbdev] by (by destruct Hancase as [->| ->]).
  rewrite Htests in Hrun. rewrite Hbdev in Hl'.
  destruct (drain_tests mn mc an) eqn:Hdt.
  2:{ exists t. split; [done|]. apply drain_pass_add; [done|].
      intros a [_ (mn1 & mc1 & an1 & Hm1 & Hmc1 & Hact & Ha1 & Ht1)].
      rewrite Hact in Hrs. injection Hrs as ->. simplify_eq. congruence. }
  eexists. split; [exact Hrun|].
  pose proof (nvme_mpath_resubmit_bios_frame _ _ _ Hrun) as Hfr1.
  assert (drain_pending s m a0) as Hpend.
  { split; [apply ns_field_Some; by exists mn|]. by exists mn, mc, an. }
  assert (drained_to s
            (with_submitted (λ x, x ++ l') (with_nss (insert m (set_fq [] false mn)) t))
            m a0) as Hd.
  { exists mn, an, l', l0, []. repeat split; try done.
    - cbn [nss with_nss with_submitted]. apply lookup_insert_eq.
    - cbn [submitted with_nss with_submitted]. rewrite Hsub.
      by rewrite app_nil_r, <- app_assoc. }
  split; [by apply (drain_frame_trans _ t)|]. split; [|split].
  - intros x. destruct (decide (x = m)) as [->|Hne].
    + right. exists a0. split; [by right|done].
    + destruct (H2 x) as [Hx|(a & Hx & Ha1 & Hd1)].
      * left. cbn [nss with_nss with_submitted]. by rewrite lookup_insert_ne.
      * right. exists a. split; [by left|]. split; [done|].
        by apply (drained_to_frame s t).
  - intros x a [Hx| ->] Hpa.
    + apply (drained_to_frame s t); [by apply H3|done].
    + destruct Hpa as [_ Hra], Hpend as [_ Hr0].
      by rewrite (drain_ready_functional s m a a0 Hra Hr0).
  - exists (l0 ++ l'). split.
    + cbn [submitted with_nss with_submitted]. by rewrite Hsub, app_assoc.
    + apply Forall_app. split.
      * eapply Forall_impl; [exact Hout|]. intros b. apply drain_output_mono.
        intros x. by left.
      * apply Forall_forall. intros b' Hb'.
        apply list_elem_of_lookup in Hb' as [i Hi].
        destruct (Forall2_lookup_r _ _ _ _ _ Hl' Hi) as (b & Hb & Hbb').
        exists m, a0, mn, an, b. split; [by right|]. split; [done|].
        split; [done|]. split; [done|]. split; [|done].
        by apply list_elem_of_lookup_2 in Hb.
Qed.

Lemma kthread_ns_loop_pass (V : nat → Prop) s t L :
  heap_ok s →
  map_Forall (λ _ n, Forall has_shadow_record (fq_cong n)) (nss s) →
  Forall (λ m, is_Some (nss s !! m)) L →
  drain_pass V s t →
  ∃ t', kthread_ns_loop L t = Done tt t' ∧ drain_pass (λ m, V m ∨ m ∈ L) s t'.
Proof.
  intros Hok Hsh. revert V t. induction L as [|m L IH]; intros V t HL Hpass.
  - exists t. split; [done|]. eapply drain_pass_ext; [|exact Hpass].
    intros x. split; [by left|]. intros [Hx|Hx]; [done|]. by apply elem_of_nil in Hx.
  - apply Forall_cons in HL as [Hm HL].
    destruct (kthread_ns_step V s t m Hok Hsh Hm Hpass) as (t1 & Hstep & Hpass1).
    destruct (IH _ t1 HL Hpass1) as (t' & Hloop & Hpass').
    exists t'. split.
    + cbn [kthread_ns_loop]. rewrite <- Hloop.
      change (kthread_ns_loop (m :: L) t) with
        ((mn <- get_ns m ;;
          (if fq_full mn then nvme_mpath_resubmit_bios m else ret tt) ;;;
          kthread_ns_loop L) t).
      rewrite <- bind_assoc. by rewrite (bind_run _ _ _ _ _ Hstep).
    + eapply drain_pass_ext; [|exact Hpass'].
      intros x. rewrite elem_of_cons. tauto.
Qed.

Lemma kthread_ctrl_loop_pass (V : nat → Prop) s t G :
  heap_ok s → wake_lists_ok s →
  Forall (λ g, is_Some (ctrls s !! g)) G →
  drain_pass V s t →
  ∃ t', kthread_ctrl_loop G t = Done tt t' ∧
        drain_pass (λ m, V m ∨ ∃ g gc, g ∈ G ∧ ctrls s !! g = Some gc ∧
                                       m ∈ mpath_namespace gc) s t'.
Proof.
  intros Hok (_ & Hlists & Hsh). revert V t.
  induction G as [|g G IH]; intros V t HG Hpass.
  - exists t. split; [done|]. eapply drain_pass_ext; [|exact Hpass].
    intros x. split; [by left|]. intros [Hx|(g & gc & Hg & _)]; [done|].
    by apply elem_of_nil in Hg.
  - apply Forall_cons in HG as [[gc Hg] HG].
    pose proof Hpass as ((Hc & _) & _).
    destruct (kthread_ns_loop_pass V s t (mpath_namespace gc) Hok Hsh
                (Hlists g gc Hg) Hpass) as (t1 & Hloop1 & Hpass1).
    destruct (IH _ t1 HG Hpass1) as (t' & Hloop & Hpass').
    exists t'. split.
    + cbn [kthread_ctrl_loop]. rewrite <- Hc in Hg.
      rewrite (bind_get_ctrl _ _ _ _ Hg). by rewrite (bind_run _ _ _ _ _ Hloop1).
    + eapply drain_pass_ext; [|exact Hpass'].
      intros x. split.
      * intros [[Hx|Hx]|(g' & gc' & Hg' & Hgc' & Hx)].
        -- by left.
        -- right. exists g, gc. split; [by left|done].
        -- right. exists g', gc'. split; [by right|done].
      * intros [Hx|(g' & gc' & Hg' & Hgc' & Hx)]; [by left; left|].
        apply elem_of_cons in Hg' as [->|Hg'].
        -- left. right. congruence.
        -- right. by exists g', gc'.
Qed.

Lemma nvme_mpath_kthread_wake_pass s :
  heap_ok s → wake_lists_ok s →
  ∃ s', nvme_mpath_kthread_wake s = Done tt s' ∧ drain_pass (wake_visits s) s s'.
Proof.
  intros Hok Hl.
  destruct (kthread_ctrl_loop_pass (λ _, False) s s (nvme_mpath_ctrl_list s) Hok Hl
              (proj1 Hl) (drain_pass_refl s)) as (s' & Hrun & Hpass).
  exists s'. split.
  - unfold nvme_mpath_kthread_wake. mnorm. exact Hrun.
  - eapply drain_pass_ext; [|exact Hpass]. intros x. unfold wake_visits. tauto.
Qed.

(** C6, as amended.  [nvme_mpath_resubmit_bios] on a volume gives exactly
    this: with [r] what [get_ns_active] returns, the first member
    classified ACTIVE with the MULTIPATH flag, the call returns with the
    state unchanged when there is no such member, and for a member [a] it
    detaches the whole queue and submits every parked bio, reset, to the
    block device of that one member [a] when [drain_tests] holds
    (FAILOVER_IN_PROGRESS clear, [a] and the volume not REMOVING, the
    aggregate settled, the queue not empty), and returns with the state
    unchanged when any of these tests fails.  A wake of the drain task
    returns; it has then drained every volume of the aggregate controllers
    whose wait queue is active and which passes the tests, the bios of its
    queue being among those submitted, in their order and to one member;
    every other volume, in particular one with FAILOVER_IN_PROGRESS set,
    keeps its namespace, queue included, as it was; and every bio
    submitted during the wake is a bio parked on a volume that is
    drained. *)
Theorem nvme_mpath_resubmit_bios_drain s :
  heap_ok s →
  (∀ m mn mc,
     nss s !! m = Some mn → ctrls s !! ctrl mn = Some mc →
     Forall has_shadow_record (fq_cong mn) →
     ∃ r, get_ns_active m s = Done r s ∧
          first_such (active_multipath s) (namespaces mc) r ∧
       match r with
       | None => nvme_mpath_resubmit_bios m s = Done tt s
       | Some a =>
           ∃ an l', nss s !! a = Some an ∧
             Forall2 (resubmitted_as a (bdev an)) (fq_cong mn) l' ∧
             nvme_mpath_resubmit_bios m s =
               Done tt (if drain_tests mn mc an
                        then with_submitted (λ x, x ++ l')
                               (with_nss (insert m (set_fq [] false mn)) s)
                        else s)
       end) ∧
  (∀ m mn s', nss s !! m = Some mn → fo_in_progress mn = true →
     nvme_mpath_resubmit_bios m s = Done tt s ∧
     (nvme_mpath_kthread_wake s = Done tt s' → nss s' !! m = Some mn)) ∧
  (wake_lists_ok s →
   ∃ s', nvme_mpath_kthread_wake s = Done tt s' ∧
     (∀ m a, wake_drains s m a → drained_to s s' m a) ∧
     (∀ m, (∀ a, ¬ wake_drains s m a) → nss s' !! m = nss s !! m) ∧
     (∃ l, submitted s' = submitted s ++ l ∧
           Forall (drain_output (wake_visits s) s) l)).
Proof.
  intros Hok. split; [|split].
  - intros m mn mc Hm Hmc Hall. by apply nvme_mpath_resubmit_bios_exact.
  - intros m mn s' Hm Hfo. split.
    + destruct (proj1 Hok _ _ Hm) as [mc Hmc].
      unfold nvme_mpath_resubmit_bios.
      rewrite (bind_get_ns _ _ _ _ Hm), (bind_get_ctrl _ _ _ _ Hmc).
      unfold fo_in_progress in Hfo. by rewrite Hfo.
    + intros Hwake. unfold nvme_mpath_kthread_wake in Hwake. mnorm_in Hwake.
      by apply (kthread_ctrl_loop_frame _ _ _ m mn Hwake).
  - intros Hl.
    destruct (nvme_mpath_kthread_wake_pass s Hok Hl)
      as (s' & Hrun & _ & H2 & H3 & Hout).
    exists s'. split; [done|]. split; [|split; [|done]].
    + intros m a [Hv Hp]. by apply H3.
    + intros m Hno. destruct (H2 m) as [Hm|(a & Hv & Hp & _)]; [done|].
      by destruct (Hno a).
Qed.

End DrainWake.

Lemma nvme_mpath_resubmit_bios_drain_witness :
  let s := demo_state NVME_CTRL_LIVE [parked_bio] in
  wake_drains (KC := linux_consts) s 3 1 ∧
  ∃ s', nvme_mpath_kthread_wake (KC := linux_consts) s = Done tt s' ∧
        drained_to s s' 3 1 ∧
        nss s' !! 1%nat = nss s !! 1%nat ∧
        bi_bdev <$> submitted s' = [101%nat].
Proof.
  intros s.
  assert (wake_drains (KC := linux_consts) s 3 1) as Hd.
  { split.
    - exists 10%nat, (mk_ctrl NVME_CTRL_LIVE 1 [1; 2]%nat [3%nat] true (Some 0)).
      split; [apply elem_of_cons; by left|]. split; [reflexivity|].
      apply elem_of_cons; by left.
    - split; [reflexivity|].
      exists (mk_ns 10 None false 4 0 103 [parked_bio] true),
        (mk_ctrl NVME_CTRL_LIVE 1 [1; 2]%nat [3%nat] true (Some 0)),
        (mk_ns 11 (Some 10%nat) true 8 0 101 [] false).
      repeat split; by vm_compute. }
  split; [exact Hd|].
  destruct (nvme_mpath_resubmit_bios_drain (KC := linux_consts) s) as (_ & _ & Hwake);
    [compute_done|].
  destruct Hwake as (s' & Hrun & Hdr & Hkeep & _); [compute_done|].
  exists s'. split; [exact Hrun|]. split; [by apply Hdr|]. split.
  - apply Hkeep. intros a (_ & Hf & _). by vm_compute in Hf.
  - assert (s' = final_state (nvme_mpath_kthread_wake (KC := linux_consts) s) s)
      as -> by (by rewrite Hrun).
    by vm_compute.
Defined.

(** ** A new member *)

Lemma inv_add_member (N : gmap nat (nat * option nat)) (C : gmap nat (list nat * list nat))
    (A F D : gmap nat bool) (I : list nvme_failover_data) g v p :
  inv_on_views N C A F D I →
  C !! g = Some v → snd <$> N !! p = Some (Some g) → A !! p ≠ Some true →
  inv_on_views N (<[g:=(v.1 ++ [p], v.2)]> C) A F D I.
Proof.
  intros ((Hw1 & Hw2 & Hw3) & H1 & H2 & Hall & Hnd) Hg Hp Hpa.
  split_inv; [split; [|split]| | | |done].
  - intros g' w Hw. apply lookup_insert_Some in Hw as [[<- <-]|[Hne Hw]].
    + cbn [fst]. apply Forall_app. split; [exact (Hw1 g v Hg)|]. by repeat constructor.
    + exact (Hw1 g' w Hw).
  - intros q w Hq. pose proof (Hw2 q w Hq) as Hpar. unfold parent_ok in *.
    destruct (w.2) as [g'|]; [|done].
    apply lookup_insert_is_Some'. by right.
  - intros g' w Hw. apply lookup_insert_Some in Hw as [[<- <-]|[Hne Hw]].
    + exact (Hw3 g v Hg).
    + exact (Hw3 g' w Hw).
  - apply one_active_intro. intros g' w x y Hw Hx Hy Hxa Hya.
    apply lookup_insert_Some in Hw as [[<- <-]|[Hne Hw]].
    + cbn [fst] in Hx, Hy.
      apply elem_of_app in Hx as [Hx|Hx];
        [|apply list_elem_of_singleton in Hx; by subst].
      apply elem_of_app in Hy as [Hy|Hy];
        [|apply list_elem_of_singleton in Hy; by subst].
      by apply (one_active_unique C A g v).
    + by apply (one_active_unique C A g' w).
  - apply unsettled_inactive_intro. intros g' w x Hw Hd Hx.
    apply lookup_insert_Some in Hw as [[<- <-]|[Hne Hw]].
    + cbn [fst] in Hx.
      apply elem_of_app in Hx as [Hx|Hx];
        [|apply list_elem_of_singleton in Hx; by subst].
      by apply (unsettled_inactive_elim C A D g v).
    + by apply (unsettled_inactive_elim C A D g' w).
  - apply Forall_forall. intros r Hr.
    pose proof (proj1 (Forall_forall _ _) Hall r Hr) as Hok.
    apply request_ok_iff in Hok as (g' & v' & Hp' & Hd & Hc & Hh & Hf).
    apply request_ok_iff.
    destruct (decide (g' = g)) as [->|Hne].
    + exists g, (v.1 ++ [p], v.2). rewrite lookup_insert_eq.
      assert (v' = v) as -> by congruence. done.
    + exists g', v'. by rewrite lookup_insert_ne.
Qed.

Section AddMember.
Context `{KC : kernel_consts}.

Hypothesis MP_nonneg : 0 ≤ NVME_NS_MULTIPATH.
Hypothesis MP_not_FO : NVME_NS_MULTIPATH ≠ NVME_NS_FO_IN_PROGRESS.
Hypothesis CHILD_nonneg : 0 ≤ NVME_CTRL_MPATH_CHILD.
Hypothesis CHILD_not_MULTIPATH : NVME_CTRL_MPATH_CHILD ≠ NVME_CTRL_MULTIPATH.

(** X19: [nvme_add_ns_mpath_ctrl] on a namespace whose active flag is
    clear keeps the failover invariant (well-formed groups, at most one
    active member in each, no active member in a group that is not
    settled, consistent promotion requests).  The namespace is appended to
    the member list of its aggregate controller, it gets the MULTIPATH
    flag and its controller the MPATH_CHILD flag; no request in flight and
    no bio changes.  The bit numbers of the flags are assumed distinct. *)
Theorem nvme_add_ns_mpath_ctrl_inv s p n s' :
  failover_inv s →
  nss s !! p = Some n → active n = false →
  nvme_add_ns_mpath_ctrl p s = Done tt s' →
  failover_inv s' ∧
  ∃ g l, mpath_ctrl n = Some g ∧
    group_members s g l ∧ group_members s' g (l ++ [p]) ∧
    ns_field (λ y, test_bit NVME_NS_MULTIPATH (ns_flags y)) s' p = Some true ∧
    ctrl_field (λ y, test_bit NVME_CTRL_MPATH_CHILD (ctrl_flags y)) s' (ctrl n)
      = Some true ∧
    inflight s' = inflight s ∧ submitted s' = submitted s ∧ ended s' = ended s.
Proof.
  intros Hinv Hp Hact H. unfold nvme_add_ns_mpath_ctrl in H.
  apply bind_Done in H as (n' & s1 & Hn & H). apply get_ns_Done in Hn as [Hn ->].
  assert (n' = n) as -> by congruence.
  destruct (mpath_ctrl n) as [g|] eqn:Hpar; [|done].
  unfold nvme_find_get_mpath_ns in H. mnorm_in H.
  apply bind_Done in H as (x & s1 & Hx & H). apply get_ctrl_Done in Hx as [Hx ->].
  mnorm_in H.
  apply bind_Done in H as (u & s1 & Hadd & H).
  apply modify_ctrl_Done in Hadd as (x' & Hx' & ->).
  assert (x' = x) as -> by congruence.
  apply bind_Done in H as (u1 & s2 & Hfl & H).
  apply modify_ctrl_Done in Hfl as (y & Hy & ->).
  apply bind_Done in H as (u2 & s3 & Hmp & H).
  apply modify_ns_Done in Hmp as (n2 & Hn2 & ->).
  cbn [nss with_ctrls] in Hn2. assert (n2 = n) as -> by congruence.
  destruct (head (mpath_namespace x)) as [m|]; [|done]. injection H as <-.
  set (s1 := with_ctrls (insert g (set_namespaces (namespaces x ++ [p]) x)) s) in *.
  set (s2 := with_ctrls _ s1) in *.
  set (s3 := with_nss _ s2).
  (* [g] is an aggregate controller *)
  assert (snd <$> v_ns s !! p = Some (Some g)) as HpN.
  { unfold v_ns. by rewrite lookup_fmap, Hp, <- Hpar. }
  destruct (groups_wf_parent _ _ p g (proj1 Hinv) HpN) as [v Hv].
  destruct (v_ctrl_lookup s g v Hv) as (x0 & Hx0 & Hagg & Hveq).
  assert (x0 = x) as -> by congruence.
  (* the projections of the final state *)
  assert (v_ns s3 = v_ns s) as HvN.
  { unfold v_ns. subst s3. cbn [nss with_nss with_ctrls].
    by rewrite (fmap_insert_same ns_shape _ p n). }
  assert (v_act s3 = v_act s) as HvA.
  { unfold v_act. subst s3. cbn [nss with_nss with_ctrls].
    by rewrite (fmap_insert_same active _ p n). }
  assert (v_fo s3 = v_fo s) as HvF.
  { unfold v_fo. subst s3. cbn [nss with_nss with_ctrls].
    rewrite (fmap_insert_same fo_in_progress _ p n); [done|done|].
    unfold fo_in_progress. cbn [ns_flags set_ns_flags].
    rewrite test_bit_set_bit by done. by rewrite bool_decide_eq_false_2. }
  assert (v_cd s3 = v_cd s) as HvD.
  { unfold v_cd. subst s3 s2 s1. cbn [ctrls with_nss with_ctrls].
    rewrite (fmap_insert_same cleanup_done _ (ctrl n) y); [|done|done].
    by rewrite (fmap_insert_same cleanup_done _ g x). }
  assert (v_ctrl s3 = <[g:=(v.1 ++ [p], v.2)]> (v_ctrl s)) as HvC.
  { unfold v_ctrl. subst s3 s2. cbn [ctrls with_nss with_ctrls].
    rewrite (omap_insert_same ctrl_shape _ (ctrl n) y); [|done|].
    - subst s1. cbn [ctrls with_ctrls]. rewrite Hveq. cbn [fst snd].
      apply map_eq. intros i. rewrite lookup_omap.
      destruct (decide (i = g)) as [->|Hne].
      + rewrite !lookup_insert_eq. cbn. unfold ctrl_shape.
        cbn [ctrl_flags set_namespaces namespaces mpath_namespace]. by rewrite Hagg.
      + rewrite !lookup_insert_ne by done. by rewrite lookup_omap.
    - unfold ctrl_shape. cbn [ctrl_flags set_ctrl_flags namespaces mpath_namespace].
      rewrite test_bit_set_bit by done.
      rewrite bool_decide_eq_false_2; [done|]. by intros ?. }
  split.
  { unfold failover_inv. rewrite HvN, HvC, HvA, HvF, HvD.
    change (inflight s3) with (inflight s).
    apply inv_add_member; [exact Hinv|done|done|].
    unfold v_act. rewrite lookup_fmap, Hp. cbn. by rewrite Hact. }
  exists g, (namespaces x). split; [done|]. split; [by exists x|].
  split.
  { assert (v_ctrl s3 !! g = Some (v.1 ++ [p], v.2)) as Hg3
      by (by rewrite HvC, lookup_insert_eq).
    destruct (v_ctrl_lookup s3 g _ Hg3) as (x3 & Hx3 & Hagg3 & Heq3).
    exists x3. split; [done|]. split; [done|].
    rewrite Hveq in Heq3. cbn [fst snd] in Heq3. congruence. }
  split.
  { unfold ns_field. subst s3. cbn [nss with_nss]. rewrite lookup_insert_eq. cbn.
    rewrite test_bit_set_bit by done. by rewrite bool_decide_eq_true_2. }
  split; [|done].
  unfold ctrl_field. subst s3 s2. cbn [ctrls with_nss with_ctrls].
  rewrite lookup_insert_eq. cbn.
  rewrite test_bit_set_bit by done. by rewrite bool_decide_eq_true_2.
Qed.

End AddMember.

Lemma nvme_add_ns_mpath_ctrl_inv_witness :
  let s := with_nss (insert 4%nat (mk_ns 13 (Some 10%nat) false 0 0 104 [] false))
             (with_ctrls (insert 13%nat (mk_ctrl NVME_CTRL_LIVE 0 [4%nat] [] true None))
                (demo_state NVME_CTRL_LIVE [])) in
  let s' := final_state (nvme_add_ns_mpath_ctrl (KC := linux_consts) 4 s) s in
  failover_inv (KC := linux_consts) s' ∧
  ctrl_field namespaces s' 10 = Some [1; 2; 4]%nat.
Proof.
  intros s s'. split; [|by vm_compute].
  apply (nvme_add_ns_mpath_ctrl_inv (KC := linux_consts) ltac:(done) ltac:(done)
           ltac:(done) ltac:(done) s 4
           (mk_ns 13 (Some 10%nat) false 0 0 104 [] false) s').
  - unfold failover_inv. compute_done.
  - by vm_compute.
  - done.
  - by vm_compute.
Defined.

(** ** Agreement of the two lookups *)

Section RegistryAgreement.
Context `{KC : kernel_consts}.

(** X20: on a ROOT namespace whose aggregate controller has at most one
    active member, the two lookups agree: a member that [get_ns_active]
    returns is a member of the list, is classified ACTIVE with the
    MULTIPATH flag, and is the one [nvme_get_active_ns_for_mpath_ns]
    returns. *)
Theorem active_lookups_agree s m mn mc a :
  heap_ok s →
  nss s !! m = Some mn →
  test_bit NVME_NS_ROOT (ns_flags mn) = true →
  ctrls s !! ctrl mn = Some mc →
  at_most_one_active s (namespaces mc) →
  get_ns_active m s = Done (Some a) s →
  nvme_get_active_ns_for_mpath_ns m s = Done (Some a) s ∧
  a ∈ namespaces mc ∧ active_multipath s a.
Proof.
  intros Hok Hm Hroot Hmc Hone Hact.
  destruct (get_ns_active_run s m mn mc Hok Hm Hmc) as (r & Hr & Hf).
  rewrite Hr in Hact. injection Hact as ->.
  destruct Hf as (l1 & l2 & Hsplit & Ha & _).
  assert (a ∈ namespaces mc) as Hin.
  { rewrite Hsplit. apply elem_of_app. right. left. }
  assert (ns_is_active s a) as Haa.
  { destruct Ha as [(n & Hn & Hst) _]. exists n. split; [done|].
    apply get_ns_state_Done in Hst as (_ & c & _ & Hiff & _).
    by apply Hiff. }
  split; [|done].
  unfold nvme_get_active_ns_for_mpath_ns.
  rewrite (bind_get_ns _ _ _ _ Hm), Hroot, (bind_get_ctrl _ _ _ _ Hmc).
  destruct (get_active_ns_scan_run s (namespaces mc)) as (r & Hr' & Hf').
  { intros q Hq. by apply (proj1 (Forall_forall _ _) (proj2 Hok _ _ Hmc)). }
  rewrite Hr'. destruct r as [a'|]; cbn [first_such] in Hf'.
  - destruct Hf' as (l1' & l2' & Hsplit' & Ha' & _).
    do 2 f_equal. apply Hone; try done.
    rewrite Hsplit'. apply elem_of_app. right. left.
  - exfalso. by apply (proj1 (Forall_forall _ _) Hf' a Hin).
Qed.

End RegistryAgreement.

Lemma active_lookups_agree_witness :
  nvme_get_active_ns_for_mpath_ns (KC := linux_consts) 3 (demo_state NVME_CTRL_LIVE [])
    = Done (Some 1%nat) (demo_state NVME_CTRL_LIVE []).
Proof.
  apply (active_lookups_agree (KC := linux_consts) (demo_state NVME_CTRL_LIVE []) 3
           (mk_ns 10 None false 4 0 103 [] false)
           (mk_ctrl NVME_CTRL_LIVE 1 [1; 2]%nat [3%nat] true (Some 0)) 1);
    try reflexivity.
  - compute_done.
  - intros p q Hp Hq (np & Hnp & Hap) (nq & Hnq & Haq).
    apply elem_of_cons in Hp as [->|Hp]; apply elem_of_cons in Hq as [->|Hq];
      try done;
      repeat match goal with
             | H : _ ∈ [_] |- _ => apply list_elem_of_singleton in H; subst
             end;
      vm_compute in Hnp, Hnq; simplify_eq.
Defined.

(** ** Dispatch to the active member *)

Section MakeRequestDispatch.
Context `{KC : kernel_consts}.

Lemma make_request_active_scan_skip m b jiffies l1 rest s mn :
  heap_ok s → nss s !! m = Some mn →
  test_bit NVME_NS_FO_IN_PROGRESS (ns_flags mn) = false →
  (∀ p, p ∈ l1 → is_Some (nss s !! p)) →
  Forall (λ q, ¬ active_path s q) l1 →
  make_request_active_scan m b jiffies (l1 ++ rest) s =
    make_request_active_scan m b jiffies rest s.
Proof.
  intros Hok Hm Hfo. induction l1 as [|p l1 IH]; intros Hl Hall; [done|].
  destruct (Hl p) as [n Hn]; [left|].
  apply Forall_cons in Hall as [Hp Hall].
  assert (make_request_active_scan m b jiffies (l1 ++ rest) s =
          make_request_active_scan m b jiffies rest s) as Hrec.
  { apply IH; [|done]. intros q Hq. apply Hl. by right. }
  cbn [app make_request_active_scan]. rewrite (bind_get_ns _ _ _ _ Hn).
  destruct (test_bit NVME_NS_REMOVING (ns_flags n)) eqn:Hrm; [done|].
  rewrite (bind_get_ns _ _ _ _ Hm), Hfo.
  destruct (proj1 Hok _ _ Hn) as [c Hc].
  destruct (get_ns_state_class s n c Hc) as (st & Hst & _).
  rewrite (bind_run _ _ _ _ _ Hst).
  destruct (Z.eqb_spec st NVME_NS_STATE_ACTIVE) as [->|_]; [|done].
  exfalso. apply Hp. split.
  - apply ns_field_Some. by exists n.
  - by exists n.
Qed.

(** X21: when the volume is neither REMOVING nor failing over, a pool
    element is available and [p] is the first member that is not REMOVING
    and is classified ACTIVE, [nvme_mpath_make_request] hands the bio to
    the block device of [p] with REQ_FAILFAST_TRANSPORT set and a shadow
    record that holds the submitter's block device, callback and cookie,
    the full retry budget [nvme_max_retries] and the clock; nothing is
    completed or parked.  If the parent of [p] is not the controller of
    the volume the function does not return: it goes back to scan the same
    list again. *)
Theorem nvme_mpath_make_request_dispatch
    s m mn mc k k' b end_io private jiffies slab_ok p n :
  heap_ok s →
  nss s !! m = Some mn →
  test_bit NVME_NS_REMOVING (ns_flags mn) = false →
  fo_in_progress mn = false →
  ctrls s !! ctrl mn = Some mc →
  mpath_req_pool mc = Some k →
  mempool_alloc k GFP_ATOMIC slab_ok = mempool_elem k' →
  bi_owner b = owner_caller end_io private →
  first_such (active_path s) (namespaces mc) (Some p) →
  nss s !! p = Some n →
  if bool_decide (mpath_ctrl n = Some (ctrl mn)) then
    ∃ s' b' priv,
      nvme_mpath_make_request m b jiffies slab_ok s = Done tt s' ∧
      submitted s' = submitted s ++ [b'] ∧ ended s' = ended s ∧ nss s' = nss s ∧
      ctrl_field mpath_req_pool s' (ctrl mn) = Some (Some k') ∧
      bi_id b' = bi_id b ∧ bi_bdev b' = bdev n ∧ bi_status b' = bi_status b ∧
      bi_opf b' = Z.lor (bi_opf b) REQ_FAILFAST_TRANSPORT ∧
      bi_owner b' = owner_mpath priv ∧
      priv_ns priv = p ∧ priv_mpath_ns priv = m ∧
      nr_retries priv = nvme_max_retries s ∧ priv_start_time priv = jiffies ∧
      bi_bdev (completed_bio b') = bi_bdev b ∧
      bi_owner (completed_bio b') = owner_caller end_io private
  else nvme_mpath_make_request m b jiffies slab_ok s = Blocked.
Proof.
  intros Hok Hm Hrm Hfo Hmc Hk Halloc Hb Hr Hn.
  set (s1 := with_ctrls (insert (ctrl mn) (set_mpath_req_pool (Some k') mc)) s).
  assert (heap_ok s1) as Hok1 by (by apply (heap_ok_ctrl_frame s (ctrl mn) mc)).
  assert (∀ c, ctrl_field state s1 c = ctrl_field state s c) as Hst.
  { intros c. by apply (ctrl_field_frame state s (ctrl mn) mc). }
  assert (∀ q st, classified s1 q st ↔ classified s q st) as Hcl.
  { intros q st. by apply classified_frame. }
  assert (∀ q, q ∈ namespaces mc → is_Some (nss s1 !! q)) as Hl.
  { intros q Hq. by apply (proj1 (Forall_forall _ _) (proj2 Hok _ _ Hmc)). }
  destruct Hr as (l1 & l2 & Hsplit & [Hprm (n' & Hn' & Hact)] & Hall).
  assert (n' = n) as -> by congruence.
  apply ns_field_Some in Hprm as (n' & Hn'' & Hprm).
  assert (n' = n) as -> by congruence.
  assert (get_ns_state n s1 = Done NVME_NS_STATE_ACTIVE s1) as Hact1.
  { apply (get_ns_state_frame n s1 s); [by symmetry|done]. }
  assert (make_request_active_scan m b jiffies (namespaces mc) s1 =
          if bool_decide (mpath_ctrl n = Some (ctrl mn))
          then bind (nvme_mpath_priv_bio b p (bdev n) m jiffies)
                 (λ b', bind (generic_make_request b') (λ _, ret true)) s1
          else Blocked) as Hscan.
  { rewrite Hsplit.
    rewrite (make_request_active_scan_skip m b jiffies l1 _ s1 mn); try done.
    - cbn [make_request_active_scan].
      erewrite bind_get_ns by exact Hn. rewrite Hprm.
      erewrite bind_get_ns by exact Hm. unfold fo_in_progress in Hfo. rewrite Hfo.
      rewrite (bind_run _ _ _ _ _ Hact1). cbn [Z.eqb Pos.eqb NVME_NS_STATE_ACTIVE].
      by case_bool_decide.
    - intros q Hq. apply Hl. rewrite Hsplit. apply elem_of_app. by left.
    - eapply Forall_impl; [exact Hall|]. intros q Hq [Hq1 Hq2]. apply Hq.
      split; [exact Hq1|by apply Hcl]. }
  assert (nvme_mpath_make_request m b jiffies slab_ok s =
          bind (make_request_active_scan m b jiffies (namespaces mc))
            (λ sent : bool,
               if sent then ret tt
               else bind (make_request_standby_scan m b jiffies (namespaces mc))
                      (λ r, match r with
                            | Some b' => out_exit_mpath_request b'
                            | None => out_exit_mpath_request b
                            end)) s1) as ->.
  { unfold nvme_mpath_make_request.
    rewrite (bind_get_ns _ _ _ _ Hm), Hrm, (bind_get_ctrl _ _ _ _ Hmc), Hk, Halloc.
    by mnorm. }
  case_bool_decide as Hpar; [|unfold bind at 1; by rewrite Hscan].
  unfold bind at 1. rewrite Hscan.
  unfold nvme_mpath_priv_bio. rewrite Hb. unfold generic_make_request. mnorm.
  do 3 eexists. split; [reflexivity|].
  cbn [submitted ended nss with_submitted with_ctrls nvme_max_retries].
  split; [done|]. split; [done|]. split; [done|].
  split; [unfold ctrl_field; cbn; by rewrite lookup_insert_eq|].
  cbn. done.
Qed.

End MakeRequestDispatch.

Lemma nvme_mpath_make_request_dispatch_witness :
  ∃ s' b' priv,
    nvme_mpath_make_request (KC := linux_consts) 3 fresh_bio 100 true
      (demo_state NVME_CTRL_LIVE []) = Done tt s' ∧
    submitted s' = [b'] ∧ bi_bdev b' = 101%nat ∧
    bi_owner b' = owner_mpath priv ∧ nr_retries priv = 5.
Proof.
  pose proof (nvme_mpath_make_request_dispatch (KC := linux_consts)
                (demo_state NVME_CTRL_LIVE []) 3
                (mk_ns 10 None false 4 0 103 [] false)
                (mk_ctrl NVME_CTRL_LIVE 1 [1; 2]%nat [3%nat] true (Some 0)) 0 0
                fresh_bio 7 70 100 true 1
                (mk_ns 11 (Some 10%nat) true 8 0 101 [] false)) as H.
  cbn [mpath_ctrl ctrl] in H. rewrite bool_decide_eq_true_2 in H by done.
  destruct H as (s' & b' & priv & Hrun & Hs & _ & _ & _ & _ & Hbd & _ & _ & Hown
                 & _ & _ & Hr & _); try reflexivity.
  - compute_done.
  - exists [], [2%nat]. split; [reflexivity|]. split; [|constructor].
    split; [reflexivity|]. eexists. split; reflexivity.
  - exists s', b', priv. done.
Defined.
